(** * ITS dashboard: overlay geometry, zone editor and detection page

    A shallow embedding of the three TypeScript components that carry the
    design content of the traffic-camera dashboard:

    - [DetectionViewer.tsx]: the read-only overlay (zones, detection boxes,
      violation callouts);
    - [PolygonEditor.tsx]: the zone editor (click-to-frame mapping, overlay
      repaint, save / cancel / undo);
    - [Detection.tsx] (the [DetectionPage] component): the detection toggle,
      the WebSocket handlers and the choice of the displayed media element.

    Canvas painting is modelled as the list of calls made on the 2D context,
    React state as a record, and the browser objects touched by the page
    (sockets, interval timers, the console) as an explicit environment.
    Numbers are exact rationals next to [NaN] and the infinities; the
    scale factors, the coordinate mapping and the two repaints are also
    given in binary64, with the rounding of every operation. *)

From Stdlib Require Import ZArith QArith Qpower Qround Qabs String List Bool.
From Stdlib Require Import Lia Lqa.
From Stdlib Require SpecFloat.
From stdpp Require Import base gmap strings list pretty.
Import ListNotations.

Open Scope string_scope.
Open Scope list_scope.

(** String concatenation, as in template literals. *)
Infix "^^" := String.append (at level 60, right associativity).

(** ** JavaScript values used by the components *)

Module Js.

(** The [number] type.  Finite values are kept as exact rationals, next to
    the three special values the code can produce by dividing by zero.
    The sign of zero is not represented.  The four operations below are
    exact: they do not round to binary64, which [Binary64] adds for the
    properties that rounding, overflow or underflow can change. *)
Inductive number : Type :=
| Fin (q : Q)
| PosInf
| NegInf
| NaN.

Definition of_Z (z : Z) : number := Fin (inject_Z z).
Definition of_nat (n : nat) : number := of_Z (Z.of_nat n).

Definition is_zero (q : Q) : bool := Qeq_bool q 0.
Definition is_pos (q : Q) : bool := (0 <? Qnum q)%Z.

Definition neg (a : number) : number :=
  match a with
  | Fin q => Fin (- q)
  | PosInf => NegInf
  | NegInf => PosInf
  | NaN => NaN
  end.

Definition add (a b : number) : number :=
  match a, b with
  | NaN, _ | _, NaN => NaN
  | Fin p, Fin q => Fin (p + q)
  | PosInf, NegInf | NegInf, PosInf => NaN
  | PosInf, _ | _, PosInf => PosInf
  | NegInf, _ | _, NegInf => NegInf
  end.

Definition sub (a b : number) : number := add a (neg b).

(** The infinity carrying the sign of [q]; a zero [q] counts as [+0]. *)
Definition inf_signed (q : Q) : number :=
  if is_pos q || is_zero q then PosInf else NegInf.

Definition mul (a b : number) : number :=
  match a, b with
  | NaN, _ | _, NaN => NaN
  | Fin p, Fin q => Fin (p * q)
  | Fin p, PosInf | PosInf, Fin p => if is_zero p then NaN else inf_signed p
  | Fin p, NegInf | NegInf, Fin p => if is_zero p then NaN else neg (inf_signed p)
  | PosInf, PosInf | NegInf, NegInf => PosInf
  | PosInf, NegInf | NegInf, PosInf => NegInf
  end.

Definition div (a b : number) : number :=
  match a, b with
  | NaN, _ | _, NaN => NaN
  | Fin p, Fin q =>
      if is_zero q then (if is_zero p then NaN else inf_signed p)
      else Fin (p / q)
  | Fin _, (PosInf | NegInf) => Fin 0
  | PosInf, Fin q => inf_signed q
  | NegInf, Fin q => neg (inf_signed q)
  | (PosInf | NegInf), (PosInf | NegInf) => NaN
  end.

(** [ToBoolean] on a number: [0] and [NaN] are falsy. *)
Definition truthy (a : number) : bool :=
  match a with
  | Fin q => negb (is_zero q)
  | PosInf | NegInf => true
  | NaN => false
  end.

(** [v || d] where [v] is a number that may be [undefined]. *)
Definition num_or (v : option number) (d : number) : number :=
  match v with
  | Some a => if truthy a then a else d
  | None => d
  end.

(** [s || d] on strings: the empty string is falsy. *)
Definition str_or (s d : string) : string :=
  if String.eqb s "" then d else s.

(** [!s] on a string. *)
Definition str_not (s : string) : bool := String.eqb s "".

(** [Number.prototype.toFixed(0)]: nearest integer, ties away from zero,
    the sign printed first (the switch to exponent notation from 1e21 on
    is not represented). *)
Definition toFixed0 (a : number) : string :=
  match a with
  | Fin q =>
      if (Qnum q <? 0)%Z
      then "-" ^^ pretty (Qfloor (- q + (1 # 2)))
      else pretty (Qfloor (q + (1 # 2)))
  | PosInf => "Infinity"
  | NegInf => "-Infinity"
  | NaN => "NaN"
  end.

(** Equality of numbers as values ([Fin] up to [Qeq]); [NaN] is related
    to nothing, as with [===]. *)
Definition num_eq (a b : number) : Prop :=
  match a, b with
  | Fin p, Fin q => p == q
  | PosInf, PosInf | NegInf, NegInf => True
  | _, _ => False
  end.

(** A finite number other than zero: what a scale factor must be for
    the projection and its inverse to be defined. *)
Definition finite_nonzero (a : number) : Prop :=
  match a with
  | Fin q => ~ q == 0
  | _ => False
  end.

(** A dimension the media or the layout has not reported yet. *)
Definition zero_or_undefined (v : option number) : Prop :=
  match v with
  | None => True
  | Some (Fin q) => q == 0
  | Some _ => False
  end.

(** A dimension as the DOM reports it: absent, [NaN] or a finite number,
    but never an infinity. *)
Definition reported (v : option number) : Prop :=
  match v with
  | Some PosInf | Some NegInf => False
  | _ => True
  end.

(** Exceptions.  The only one these components can raise is the
    [TypeError] of reading a property of [undefined]. *)
Inductive result (A : Type) : Type :=
| Ok (a : A)
| Throw (e : string).
Arguments Ok {A} a.
Arguments Throw {A} e.

Definition bind {A B} (m : result A) (k : A -> result B) : result B :=
  match m with
  | Ok a => k a
  | Throw e => Throw e
  end.

(** [arr[i]] followed by a property read: fails on [undefined]. *)
Definition at_index {A} (arr : list A) (i : nat) : result A :=
  match arr !! i with
  | Some a => Ok a
  | None => Throw "TypeError: Cannot read properties of undefined"
  end.

(** [for (let i = lo; i < hi; i++) body(i)], collecting what each
    iteration emits. *)
Fixpoint for_range {A} (lo : nat) (count : nat) (body : nat -> result (list A))
  : result (list A) :=
  match count with
  | O => Ok []
  | S n =>
      bind (body lo) (fun out =>
      bind (for_range (S lo) n body) (fun rest => Ok (out ++ rest)))
  end.

(** [for (const z of arr) body(z)]. *)
Fixpoint for_of {A B} (arr : list A) (body : A -> result (list B))
  : result (list B) :=
  match arr with
  | [] => Ok []
  | z :: rest =>
      bind (body z) (fun out =>
      bind (for_of rest body) (fun outs => Ok (out ++ outs)))
  end.

(** [arr.find(pred)]. *)
Fixpoint find {A} (pred : A -> bool) (arr : list A) : option A :=
  match arr with
  | [] => None
  | a :: rest => if pred a then Some a else find pred rest
  end.

(** [arr.slice(start, end)] with the relative-index rules of the language:
    a negative index counts from the end, and both are clamped. *)
Definition rel_index (len : nat) (i : Z) : nat :=
  if (i <? 0)%Z then Z.to_nat (Z.max (Z.of_nat len + i) 0)
  else Nat.min (Z.to_nat i) len.

Definition slice {A} (arr : list A) (start stop : Z) : list A :=
  let k := rel_index (length arr) start in
  let final := rel_index (length arr) stop in
  take (final - k) (drop k arr).

End Js.

Notation "'let*' x ':=' m 'in' k" := (Js.bind m (fun x => k))
  (at level 10, x name, k at level 200).

(** ** The wire types of [lib/api.ts] *)

Module BoundingBox.
Record t : Type := mk { x1 : Js.number; y1 : Js.number; x2 : Js.number; y2 : Js.number }.
End BoundingBox.

Module Detection.
(** [track_id] is [number | null]; track ids are the integers handed out
    by the tracker. *)
Record t : Type := mk {
  bbox : BoundingBox.t;
  class_name : string;
  class_id : Z;
  confidence : Js.number;
  track_id : option Z;
}.
End Detection.

Module DetectionResult.
Record t : Type := mk {
  detections : list Detection.t;
  vehicle_count : gmap string Js.number;
  total_count : Js.number;
  frame_width : Js.number;
  frame_height : Js.number;
  processing_time_ms : Js.number;
}.
End DetectionResult.

Module Point.
Record t : Type := mk { x : Js.number; y : Js.number }.
End Point.

Module ZonePolygon.
Record t : Type := mk {
  id : string;
  name : string;
  points : list Point.t;
  is_parking_zone : bool;
  is_traffic_light : bool;
  is_red_light : bool;
  is_stop_line : bool;
  linked_traffic_light_id : option string;
  color : string;
}.
End ZonePolygon.

Module ParkingViolation.
(** The interface declares [track_id: number]; the value comes straight
    from [JSON.parse], so a [null] can occur and is kept representable. *)
Record t : Type := mk {
  track_id : option Z;
  vehicle_class : string;
  zone_id : string;
  zone_name : string;
  duration_seconds : Js.number;
  bbox : BoundingBox.t;
}.
End ParkingViolation.

(** ** The 2D drawing context *)

Module Canvas.
Import Js.

(** One constructor per method call or property assignment the overlay
    code performs on the canvas and its context. *)
Inductive call : Type :=
| set_width (w : number)
| set_height (h : number)
| clearRect (x y w h : number)
| beginPath
| moveTo (x y : number)
| lineTo (x y : number)
| closePath
| arc (x y r a0 a1 : number)
| set_fillStyle (s : string)
| fill
| set_strokeStyle (s : string)
| set_lineWidth (n : number)
| setLineDash (segments : list number)
| stroke
| set_font (s : string)
| strokeText (text : string) (x y : number)
| fillText (text : string) (x y : number)
| strokeRect (x y w h : number)
| fillRect (x y w h : number).

End Canvas.

(** ** [components/DetectionViewer.tsx] *)

Module DetectionViewer.
Import Js Canvas.

(** The four dimensions are declared [number] but are read through
    [|| default], so [undefined] is representable; the three display
    toggles are optional with default [true]. *)
Record props : Type := mkProps {
  detections : list Detection.t;
  zones : list ZonePolygon.t;
  violations : list ParkingViolation.t;
  frameWidth : option number;
  frameHeight : option number;
  containerWidth : option number;
  containerHeight : option number;
  showLabels : option bool;
  showZones : option bool;
  showViolations : option bool;
}.

Definition CLASS_COLORS : gmap string string :=
  list_to_map
    [("car", "#00FF00"); ("motorcycle", "#FFFF00"); ("bus", "#FF8800");
     ("truck", "#FF00FF"); ("bicycle", "#00FFFF"); ("person", "#0088FF")].

Definition VIOLATION_COLOR : string := "#FF0000".

Definition getColor (className : string) (isViolation : bool) : string :=
  if isViolation then VIOLATION_COLOR
  else match CLASS_COLORS !! className with
       | Some c => str_or c "#00FF00"
       | None => "#00FF00"
       end.

Section Render.
(** [ctx.measureText(text).width] under the given font: decided by the
    browser's text layout. *)
Variable measureText : string -> string -> number.
Variable p : props.

Definition flag (o : option bool) : bool := default true o.

Definition violationTrackIds : gset (option Z) :=
  list_to_set (map ParkingViolation.track_id (violations p)).

Definition safeFrameWidth : number := num_or (frameWidth p) (of_Z 640).
Definition safeFrameHeight : number := num_or (frameHeight p) (of_Z 360).
Definition safeContainerWidth : number := num_or (containerWidth p) (of_Z 640).
Definition safeContainerHeight : number := num_or (containerHeight p) (of_Z 360).

Definition scaleX : number := div safeContainerWidth safeFrameWidth.
Definition scaleY : number := div safeContainerHeight safeFrameHeight.

(** One iteration of the zone loop. *)
Definition draw_zone (zone : ZonePolygon.t) : result (list call) :=
  let pts := ZonePolygon.points zone in
  if (length pts <? 3)%nat then Ok []
  else
    let* p0 := at_index pts 0 in
    let* edges :=
      for_range 1 (length pts - 1) (fun i =>
        let* pi := at_index pts i in
        Ok [lineTo (mul (Point.x pi) scaleX) (mul (Point.y pi) scaleY)]) in
    Ok ([beginPath;
         moveTo (mul (Point.x p0) scaleX) (mul (Point.y p0) scaleY)]
        ++ edges
        ++ [closePath;
            set_fillStyle (if ZonePolygon.is_parking_zone zone
                           then "rgba(255, 0, 0, 0.2)"
                           else "rgba(0, 255, 0, 0.2)");
            fill;
            set_strokeStyle
              (str_or (ZonePolygon.color zone)
                 (if ZonePolygon.is_parking_zone zone
                  then "#FF0000" else "#00FF00"));
            set_lineWidth (of_Z 3);
            stroke]
        ++ (if flag (showLabels p) then
              let labelX := add (mul (Point.x p0) scaleX) (of_Z 5) in
              let labelY := add (mul (Point.y p0) scaleY) (of_Z 20) in
              [set_fillStyle "#FFFFFF";
               set_strokeStyle "#000000";
               set_lineWidth (of_Z 3);
               set_font "bold 14px Arial";
               strokeText (ZonePolygon.name zone) labelX labelY;
               fillText (ZonePolygon.name zone) labelX labelY]
            else [])).

(** [showViolations && det.track_id !== null &&
     violationTrackIds.has(det.track_id)] *)
Definition isViolation (det : Detection.t) : bool :=
  flag (showViolations p)
  && negb (bool_decide (Detection.track_id det = None))
  && bool_decide (Detection.track_id det ∈ violationTrackIds).

Definition percent (det : Detection.t) : string :=
  toFixed0 (mul (Detection.confidence det) (of_Z 100)).

Definition label_of (det : Detection.t) : string :=
  match Detection.track_id det with
  | Some tid =>
      "#" ^^ pretty tid ^^ " " ^^ Detection.class_name det ^^ " "
          ^^ percent det ^^ "%"
  | None => Detection.class_name det ^^ " " ^^ percent det ^^ "%"
  end.

(** The red box under a violating detection. *)
Definition callout (det : Detection.t) (x1 y1 h : number) : list call :=
  match find (fun v => bool_decide (ParkingViolation.track_id v
                                    = Detection.track_id det))
             (violations p) with
  | Some violation =>
      if flag (showLabels p) then
        let warnText :=
          "⚠ PARKING "
            ^^ toFixed0 (ParkingViolation.duration_seconds violation)
            ^^ "s" in
        let warnWidth := measureText "bold 14px Arial" warnText in
        [set_font "bold 14px Arial";
         set_fillStyle "#FF0000";
         fillRect x1 (add (add y1 h) (of_Z 4))
                  (add warnWidth (of_Z 12)) (of_Z 22);
         set_fillStyle "#FFFFFF";
         fillText warnText (add x1 (of_Z 6)) (add (add y1 h) (of_Z 20))]
      else []
  | None => []
  end.

(** One iteration of the detection loop. *)
Definition draw_detection (det : Detection.t) : result (list call) :=
  let isViolation := isViolation det in
  let color := getColor (Detection.class_name det) isViolation in
  let box := Detection.bbox det in
  let x1 := mul (BoundingBox.x1 box) scaleX in
  let y1 := mul (BoundingBox.y1 box) scaleY in
  let w := mul (sub (BoundingBox.x2 box) (BoundingBox.x1 box)) scaleX in
  let h := mul (sub (BoundingBox.y2 box) (BoundingBox.y1 box)) scaleY in
  Ok ([set_strokeStyle color;
       set_lineWidth (if isViolation then of_Z 4 else of_Z 3);
       strokeRect x1 y1 w h]
      ++ (if flag (showLabels p) then
            let label := label_of det in
            let textWidth := measureText "bold 12px Arial" label in
            let textHeight := of_Z 16 in
            let padding := of_Z 4 in
            [set_font "bold 12px Arial";
             set_fillStyle color;
             fillRect x1 (sub (sub y1 textHeight) padding)
                      (add textWidth (mul padding (of_Z 2)))
                      (add textHeight padding);
             set_fillStyle "#000000";
             fillText label (add x1 padding)
                      (sub (sub y1 padding) (of_Z 2))]
          else [])
      ++ (if isViolation then callout det x1 y1 h else [])).

(** The repaint.  The canvas is mounted and hands out its context when
    the effect runs; the two early returns on a missing canvas are not
    represented. *)
Definition draw : result (list call) :=
  let* zs :=
    if flag (showZones p) && (0 <? length (zones p))%nat
    then for_of (zones p) draw_zone
    else Ok [] in
  let* ds :=
    if (0 <? length (detections p))%nat
    then for_of (detections p) draw_detection
    else Ok [] in
  Ok ([set_width safeContainerWidth;
       set_height safeContainerHeight;
       clearRect (of_Z 0) (of_Z 0) safeContainerWidth safeContainerHeight]
      ++ zs ++ ds).

End Render.

End DetectionViewer.

(** ** [components/PolygonEditor.tsx] *)

Module PolygonEditor.
Import Js Canvas.

Inductive ZoneType : Type := normal | parking | traffic_light | stop_line.

Definition ZoneType_eqb (a b : ZoneType) : bool :=
  match a, b with
  | normal, normal | parking, parking
  | traffic_light, traffic_light | stop_line, stop_line => true
  | _, _ => false
  end.

(** The props that carry data.  The five callback props are represented
    by the [effect]s the handlers emit. *)
Record props : Type := mkProps {
  zones : list ZonePolygon.t;
  frameWidth : option number;
  frameHeight : option number;
  containerWidth : option number;
  containerHeight : option number;
  isEditing : bool;
}.

(** The four [useState] cells. *)
Record state : Type := mkState {
  currentPoints : list Point.t;
  zoneName : string;
  zoneType : ZoneType;
  linkedTrafficLightId : string;
}.

(** What a handler does besides updating its own state. *)
Inductive effect : Type :=
| onZoneAdd (zone : ZonePolygon.t)
| onZoneDelete (zoneId : string)
| onZonesClear
| onEditingChange (editing : bool)
| alert (message : string).

(** The part of a [DOMRect] the editor reads. *)
Record DOMRect : Type := mkRect { left : number; top : number }.

Definition ZONE_COLORS : list string :=
  ["#00FF00"; "#FF8800"; "#00FFFF"; "#FF00FF"; "#FFFF00"; "#8800FF"].

Section Component.
Variable p : props.

Definition safeFrameWidth : number := num_or (frameWidth p) (of_Z 640).
Definition safeFrameHeight : number := num_or (frameHeight p) (of_Z 360).
Definition safeContainerWidth : number := num_or (containerWidth p) (of_Z 640).
Definition safeContainerHeight : number := num_or (containerHeight p) (of_Z 360).

Definition scaleX : number := div safeContainerWidth safeFrameWidth.
Definition scaleY : number := div safeContainerHeight safeFrameHeight.

Definition trafficLightZones : list ZonePolygon.t :=
  List.filter ZonePolygon.is_traffic_light (zones p).

(** The projection into viewport space.  The source writes it inline,
    as [pt.x * scaleX, pt.y * scaleY], at every [moveTo], [lineTo] and
    [arc]. *)
Definition toViewport (pt : Point.t) : Point.t :=
  Point.mk (mul (Point.x pt) scaleX) (mul (Point.y pt) scaleY).

Definition toFrameCoords (clientX clientY : number) (rect : DOMRect) : Point.t :=
  let x := div (sub clientX (left rect)) scaleX in
  let y := div (sub clientY (top rect)) scaleY in
  Point.mk x y.

(** [zones.find((z) => z.id === zone.linked_traffic_light_id)] *)
Definition find_linked (zone : ZonePolygon.t) : option ZonePolygon.t :=
  find (fun z => match ZonePolygon.linked_traffic_light_id zone with
                 | Some l => String.eqb (ZonePolygon.id z) l
                 | None => false
                 end)
       (zones p).

(** [linkedLight?.is_red_light] used as a condition. *)
Definition red (linkedLight : option ZonePolygon.t) : bool :=
  match linkedLight with
  | Some l => ZonePolygon.is_red_light l
  | None => false
  end.

Definition getZoneColor (zone : ZonePolygon.t) : string :=
  if ZonePolygon.is_traffic_light zone then
    (if ZonePolygon.is_red_light zone
     then "rgba(255, 0, 0, 0.35)" else "rgba(0, 255, 0, 0.35)")
  else if ZonePolygon.is_stop_line zone then
    (if red (find_linked zone)
     then "rgba(255, 0, 0, 0.4)" else "rgba(255, 255, 255, 0.3)")
  else if ZonePolygon.is_parking_zone zone
       then "rgba(255, 0, 0, 0.25)" else "rgba(0, 255, 0, 0.25)".

Definition getZoneStrokeColor (zone : ZonePolygon.t) : string :=
  if ZonePolygon.is_stop_line zone then
    (if red (find_linked zone) then "#FF0000" else "#FFFFFF")
  else str_or (ZonePolygon.color zone) "#00FF00".

Definition zone_label (zone : ZonePolygon.t) : string :=
  if ZonePolygon.is_traffic_light zone then
    "🚦 " ^^ ZonePolygon.name zone ^^ " "
      ^^ (if ZonePolygon.is_red_light zone then "🔴" else "🟢")
  else if ZonePolygon.is_stop_line zone then
    let lightStatus :=
      match find_linked zone with
      | Some linkedLight =>
          if ZonePolygon.is_red_light linkedLight then "🔴" else "🟢"
      | None => "⚠️"
      end in
    "🚧 " ^^ ZonePolygon.name zone ^^ " " ^^ lightStatus
  else ZonePolygon.name zone.

(** [pts.reduce((s, p) => s + p.<coord>, 0) / pts.length] *)
Definition mean (coord : Point.t -> number) (pts : list Point.t) : number :=
  div (fold_left (fun s pt => add s (coord pt)) pts (of_Z 0))
      (of_nat (length pts)).

(** The dashed connector from a stop line to its traffic light. *)
Definition link_line (zone : ZonePolygon.t) : list call :=
  if ZonePolygon.is_stop_line zone
     && match ZonePolygon.linked_traffic_light_id zone with
        | Some l => negb (str_not l)
        | None => false
        end
  then
    match find_linked zone with
    | Some linkedLight =>
        if (0 <? length (ZonePolygon.points linkedLight))%nat then
          let stopCenter :=
            Point.mk (mean Point.x (ZonePolygon.points zone))
                     (mean Point.y (ZonePolygon.points zone)) in
          let lightCenter :=
            Point.mk (mean Point.x (ZonePolygon.points linkedLight))
                     (mean Point.y (ZonePolygon.points linkedLight)) in
          [beginPath;
           moveTo (mul (Point.x stopCenter) scaleX)
                  (mul (Point.y stopCenter) scaleY);
           lineTo (mul (Point.x lightCenter) scaleX)
                  (mul (Point.y lightCenter) scaleY);
           set_strokeStyle "rgba(255, 255, 0, 0.5)";
           set_lineWidth (of_Z 2);
           setLineDash [of_Z 5; of_Z 5];
           stroke;
           setLineDash []]
        else []
    | None => []
    end
  else [].

(** One iteration of the zone loop. *)
Definition draw_zone (zone : ZonePolygon.t) : result (list call) :=
  let pts := ZonePolygon.points zone in
  if (length pts <? 3)%nat then Ok []
  else
    let* p0 := at_index pts 0 in
    let* edges :=
      for_range 1 (length pts - 1) (fun j =>
        let* pj := at_index pts j in
        Ok [lineTo (mul (Point.x pj) scaleX) (mul (Point.y pj) scaleY)]) in
    let labelX := add (mul (Point.x p0) scaleX) (of_Z 5) in
    let labelY := add (mul (Point.y p0) scaleY) (of_Z 20) in
    let label := zone_label zone in
    Ok ([beginPath;
         moveTo (mul (Point.x p0) scaleX) (mul (Point.y p0) scaleY)]
        ++ edges
        ++ [closePath;
            set_fillStyle (getZoneColor zone);
            fill;
            set_strokeStyle (getZoneStrokeColor zone);
            set_lineWidth
              (if ZonePolygon.is_traffic_light zone
                  || ZonePolygon.is_stop_line zone
               then of_Z 4 else of_Z 3);
            setLineDash (if ZonePolygon.is_stop_line zone
                         then [of_Z 10; of_Z 5] else []);
            stroke;
            setLineDash [];
            set_fillStyle "#FFFFFF";
            set_strokeStyle "#000000";
            set_lineWidth (of_Z 3);
            set_font "bold 14px Arial";
            strokeText label labelX labelY;
            fillText label labelX labelY]
        ++ link_line zone).

Section WithState.
(** [Math.PI], which has no exact rational value. *)
Variable Math_PI : number.
Variable st : state.

Definition strokeColor : string :=
  match zoneType st with
  | traffic_light => "#FFFF00"
  | parking => "#FF0000"
  | stop_line => "#FFFFFF"
  | normal => "#00FF00"
  end.

(** The polygon being drawn: a dashed polyline and a disc per vertex. *)
Definition draw_current : result (list call) :=
  let pts := currentPoints st in
  if isEditing p && (0 <? length pts)%nat then
    let* p0 := at_index pts 0 in
    let* edges :=
      for_range 1 (length pts - 1) (fun i =>
        let* pi := at_index pts i in
        Ok [lineTo (mul (Point.x pi) scaleX) (mul (Point.y pi) scaleY)]) in
    let* discs :=
      for_of pts (fun point =>
        Ok [beginPath;
            arc (mul (Point.x point) scaleX) (mul (Point.y point) scaleY)
                (of_Z 8) (of_Z 0) (mul Math_PI (of_Z 2));
            set_fillStyle strokeColor;
            fill;
            set_strokeStyle "#FFFFFF";
            set_lineWidth (of_Z 2);
            stroke]) in
    Ok ([beginPath;
         moveTo (mul (Point.x p0) scaleX) (mul (Point.y p0) scaleY)]
        ++ edges
        ++ [set_strokeStyle strokeColor;
            set_lineWidth (of_Z 3);
            setLineDash [of_Z 8; of_Z 4];
            stroke;
            setLineDash []]
        ++ discs)
  else Ok [].

(** The repaint (canvas mounted, context available). *)
Definition draw : result (list call) :=
  let* zs := for_of (zones p) draw_zone in
  let* cur := draw_current in
  Ok ([set_width safeContainerWidth;
       set_height safeContainerHeight;
       clearRect (of_Z 0) (of_Z 0) safeContainerWidth safeContainerHeight]
      ++ zs ++ cur).

(** A click on the canvas at client position [(clientX, clientY)],
    [rect] being the canvas's bounding rectangle at that moment. *)
Definition handleCanvasClick (clientX clientY : number) (rect : DOMRect)
  : state :=
  if negb (isEditing p) then st
  else
    let point := toFrameCoords clientX clientY rect in
    mkState (currentPoints st ++ [point]) (zoneName st) (zoneType st)
            (linkedTrafficLightId st).

(** [generateId()] reads the clock and the random generator; its
    result is supplied by the caller. *)
Definition handleSaveZone (generateId : string) : state * list effect :=
  if (length (currentPoints st) <? 3)%nat then (st, [])
  else if ZoneType_eqb (zoneType st) stop_line
          && str_not (linkedTrafficLightId st)
  then (st, [alert "Stop Line must be linked to a Traffic Light zone!"])
  else
    let zone :=
      {| ZonePolygon.id := generateId;
         ZonePolygon.name :=
           str_or (zoneName st)
                  ("Zone " ^^ pretty (length (zones p) + 1)%nat);
         ZonePolygon.points := currentPoints st;
         ZonePolygon.is_parking_zone := ZoneType_eqb (zoneType st) parking;
         ZonePolygon.is_traffic_light :=
           ZoneType_eqb (zoneType st) traffic_light;
         ZonePolygon.is_red_light := false;
         ZonePolygon.is_stop_line := ZoneType_eqb (zoneType st) stop_line;
         ZonePolygon.linked_traffic_light_id :=
           if ZoneType_eqb (zoneType st) stop_line
           then Some (linkedTrafficLightId st) else None;
         ZonePolygon.color :=
           if ZoneType_eqb (zoneType st) traffic_light then "#FFFF00"
           else if ZoneType_eqb (zoneType st) stop_line then "#FFFFFF"
           else nth (length (zones p) mod length ZONE_COLORS)
                    ZONE_COLORS "" |} in
    (mkState [] "" normal "",
     [onZoneAdd zone; onEditingChange false]).

Definition handleCancel : state * list effect :=
  (mkState [] "" normal "", [onEditingChange false]).

Definition handleUndo : state :=
  mkState (slice (currentPoints st) 0 (-1)) (zoneName st) (zoneType st)
          (linkedTrafficLightId st).

(** The [disabled] attribute of the Save button. *)
Definition save_disabled : bool :=
  (length (currentPoints st) <? 3)%nat
  || (ZoneType_eqb (zoneType st) stop_line
      && str_not (linkedTrafficLightId st)).

(** The [onChange] of the role selector. *)
Definition select_zoneType (value : ZoneType) : state :=
  mkState (currentPoints st) (zoneName st) value
          (if negb (ZoneType_eqb value stop_line) then ""
           else linkedTrafficLightId st).

End WithState.
End Component.

End PolygonEditor.

(** ** [pages/Detection.tsx] *)

(** What [JSON.parse(event.data)] yields for a frame pushed by the server;
    a field the object lacks reads as [undefined] ([None]). *)
Module WsMessage.
Record t : Type := mk {
  type : string;
  result : option DetectionResult.t;
  violations : option (list ParkingViolation.t);
  frame : option string;
  error : option string;
}.
End WsMessage.

Module DetectResponse.
Record t : Type := mk {
  success : bool;
  result : option DetectionResult.t;
  violations : option (list ParkingViolation.t);
  error : option string;
}.
End DetectResponse.

Module DetectionPage.

Record size : Type := mkSize { width : Js.number; height : Js.number }.

(** [WebSocket.readyState]; [CLOSING] is merged into [CLOSED], since no
    event is dispatched to the page in either. *)
Inductive readyState : Type := CONNECTING | OPEN | CLOSED.

(** Frames handed to [ws.send]. *)
Inductive frame_out : Type :=
| start_stream (video_url : string) (send_frame : bool)
| update_zones.

(** Requests issued with [fetch]. *)
Inductive request : Type :=
| POST_detect (image_url camera_id : string) (include_zones : bool)
| POST_zones_add (cameraId : string) (zone : ZonePolygon.t)
| DELETE_zone (cameraId zoneId : string)
| POST_zones (cameraId : string) (zones : list ZonePolygon.t)
| GET_zones (cameraId : string).

(** The [useState] cells and the two refs the claims involve. *)
Record state : Type := mkState {
  isDetecting : bool;
  isEditing : bool;
  debugInfo : string;
  result : option DetectionResult.t;
  violations : list ParkingViolation.t;
  zones : list ZonePolygon.t;
  frameSize : size;
  syncedFrame : option string;
  wsRef : option nat;
  detectIntervalRef : option positive;
}.

(** The browser objects the page acts on. *)
Record browser : Type := mkBrowser {
  sockets : gmap nat readyState;
  outbox : list (nat * frame_out);
  intervals : gset positive;
  requests : list request;
  console : list string;
}.

Record world : Type := mkWorld { page : state; env : browser }.

(** The cells and the browser at the first render, before any effect has
    run; the effects of the mount are in [PageEvents.mount]. *)
Definition initial : world :=
  mkWorld
    (mkState false false "" None [] []
             (mkSize (Js.of_Z 1920) (Js.of_Z 1080)) None None None)
    (mkBrowser ∅ [] ∅ [] []).

(** *** State setters *)

Definition on_page (f : state -> state) (w : world) : world :=
  mkWorld (f (page w)) (env w).
Definition on_env (f : browser -> browser) (w : world) : world :=
  mkWorld (page w) (f (env w)).

Definition setIsDetecting (b : bool) : world -> world :=
  on_page (fun s =>
    mkState b (isEditing s) (debugInfo s) (result s) (violations s) (zones s)
            (frameSize s) (syncedFrame s) (wsRef s) (detectIntervalRef s)).
Definition setIsEditing (b : bool) : world -> world :=
  on_page (fun s =>
    mkState (isDetecting s) b (debugInfo s) (result s) (violations s) (zones s)
            (frameSize s) (syncedFrame s) (wsRef s) (detectIntervalRef s)).
Definition setDebugInfo (d : string) : world -> world :=
  on_page (fun s =>
    mkState (isDetecting s) (isEditing s) d (result s) (violations s) (zones s)
            (frameSize s) (syncedFrame s) (wsRef s) (detectIntervalRef s)).
Definition setResult (r : option DetectionResult.t) : world -> world :=
  on_page (fun s =>
    mkState (isDetecting s) (isEditing s) (debugInfo s) r (violations s)
            (zones s) (frameSize s) (syncedFrame s) (wsRef s)
            (detectIntervalRef s)).
Definition setViolations (v : list ParkingViolation.t) : world -> world :=
  on_page (fun s =>
    mkState (isDetecting s) (isEditing s) (debugInfo s) (result s) v (zones s)
            (frameSize s) (syncedFrame s) (wsRef s) (detectIntervalRef s)).
Definition setZones (z : list ZonePolygon.t) : world -> world :=
  on_page (fun s =>
    mkState (isDetecting s) (isEditing s) (debugInfo s) (result s)
            (violations s) z (frameSize s) (syncedFrame s) (wsRef s)
            (detectIntervalRef s)).
Definition setFrameSize (f : size) : world -> world :=
  on_page (fun s =>
    mkState (isDetecting s) (isEditing s) (debugInfo s) (result s)
            (violations s) (zones s) f (syncedFrame s) (wsRef s)
            (detectIntervalRef s)).
Definition setSyncedFrame (f : option string) : world -> world :=
  on_page (fun s =>
    mkState (isDetecting s) (isEditing s) (debugInfo s) (result s)
            (violations s) (zones s) (frameSize s) f (wsRef s)
            (detectIntervalRef s)).
Definition set_wsRef (r : option nat) : world -> world :=
  on_page (fun s =>
    mkState (isDetecting s) (isEditing s) (debugInfo s) (result s)
            (violations s) (zones s) (frameSize s) (syncedFrame s) r
            (detectIntervalRef s)).
Definition set_detectIntervalRef (r : option positive) : world -> world :=
  on_page (fun s =>
    mkState (isDetecting s) (isEditing s) (debugInfo s) (result s)
            (violations s) (zones s) (frameSize s) (syncedFrame s) (wsRef s) r).

(** *** Browser operations *)

Definition set_socket (ws : nat) (r : readyState) : world -> world :=
  on_env (fun e =>
    mkBrowser (<[ws := r]> (sockets e)) (outbox e) (intervals e) (requests e)
              (console e)).
Definition ws_send (ws : nat) (f : frame_out) : world -> world :=
  on_env (fun e =>
    mkBrowser (sockets e) (outbox e ++ [(ws, f)]) (intervals e) (requests e)
              (console e)).
Definition ws_close (ws : nat) : world -> world := set_socket ws CLOSED.
Definition add_interval (t : positive) : world -> world :=
  on_env (fun e =>
    mkBrowser (sockets e) (outbox e) ({[t]} ∪ intervals e) (requests e)
              (console e)).
Definition clearInterval (t : positive) : world -> world :=
  on_env (fun e =>
    mkBrowser (sockets e) (outbox e) (intervals e ∖ {[t]}) (requests e)
              (console e)).
Definition fetch (r : request) : world -> world :=
  on_env (fun e =>
    mkBrowser (sockets e) (outbox e) (intervals e) (requests e ++ [r])
              (console e)).
Definition console_error (msg : string) : world -> world :=
  on_env (fun e =>
    mkBrowser (sockets e) (outbox e) (intervals e) (requests e)
              (console e ++ [msg])).

(** *** Stream sniffing *)

Definition lower (c : Ascii.ascii) : Ascii.ascii :=
  let n := Ascii.nat_of_ascii c in
  if (65 <=? n)%nat && (n <=? 90)%nat then Ascii.ascii_of_nat (n + 32) else c.

Fixpoint toLowerCase (s : string) : string :=
  match s with
  | EmptyString => EmptyString
  | String c rest => String (lower c) (toLowerCase rest)
  end.

Fixpoint includes (needle s : string) : bool :=
  String.prefix needle s
  || match s with
     | EmptyString => false
     | String _ rest => includes needle rest
     end.

Section Page.
(** The [id] and [url] search parameters of the route. *)
Variable cameraId : string.
Variable cameraUrl : string.
(** [String(n)] for a number, as template literals apply it. *)
Variable toString : Js.number -> string.

Definition isM3u8 : bool := includes ".m3u8" (toLowerCase cameraUrl).

(** A string-or-null used as a condition. *)
Definition present (o : option string) : bool :=
  match o with
  | Some s => negb (Js.str_not s)
  | None => false
  end.

(** *** What is on screen *)

Inductive surface : Type :=
| synced_img (src : string)
| video_element
| snapshot_img.

Definition displayed (w : world) : surface :=
  if isM3u8 then
    match syncedFrame (page w) with
    | Some f =>
        if isDetecting (page w) && present (Some f)
        then synced_img f else video_element
    | None => video_element
    end
  else snapshot_img.

(** Whether [<DetectionViewer>] is mounted. *)
Definition viewer_mounted (w : world) : bool :=
  isDetecting (page w)
  && bool_decide (is_Some (result (page w)))
  && negb (isEditing (page w))
  && negb (present (syncedFrame (page w))).

(** *** Snapshot detection *)

(** The synchronous part of [runDetectionForImage]; [urlWithT] is the
    cache-busted snapshot URL, which depends on the clock. *)
Definition runDetectionForImage (urlWithT : string) (w : world) : world :=
  if Js.str_not cameraUrl || Js.str_not cameraId then w
  else fetch (POST_detect urlWithT cameraId true) w.

(** Its continuation; [None] stands for a rejected or unparseable
    response, [message] being the text of the error caught. *)
Definition detect_settled (response : option DetectResponse.t)
           (message : string) (w : world) : world :=
  match response with
  | Some r =>
      match DetectResponse.success r, DetectResponse.result r with
      | true, Some res =>
          setDebugInfo
            ("Detected: " ^^ toString (DetectionResult.total_count res)
               ^^ " vehicles")
            (setFrameSize
               (mkSize (DetectionResult.frame_width res)
                       (DetectionResult.frame_height res))
               (setViolations (default [] (DetectResponse.violations r))
                  (setResult (Some res) w)))
      | _, _ =>
          setDebugInfo
            ("Error: "
               ^^ match DetectResponse.error r with
                  | Some e => Js.str_or e "No result"
                  | None => "No result"
                  end) w
      end
  | None =>
      setDebugInfo ("Error: " ^^ message)
        (console_error "Detection failed:" w)
  end.

(** *** Socket handlers *)

Definition onopen (ws : nat) (w : world) : world :=
  ws_send ws (start_stream cameraUrl true)
    (setDebugInfo "Connecting to video stream..." w).

(** [data] is [None] when [JSON.parse] throws.  A [detection_result]
    without [result] throws at [data.result.frame_width], after the
    first two setters have run; both exceptions end in the same
    [catch]. *)
Definition onmessage (data : option WsMessage.t) (w : world) : world :=
  match data with
  | None => console_error "WS message parse error:" w
  | Some d =>
      if String.eqb (WsMessage.type d) "detection_result" then
        let w1 :=
          setViolations (default [] (WsMessage.violations d))
            (setResult (WsMessage.result d) w) in
        match WsMessage.result d with
        | None => console_error "WS message parse error:" w1
        | Some res =>
            let w2 :=
              setDebugInfo
                (toString (DetectionResult.total_count res)
                   ^^ " vehicles ("
                   ^^ Js.toFixed0 (DetectionResult.processing_time_ms res)
                   ^^ "ms)")
                (setFrameSize
                   (mkSize (DetectionResult.frame_width res)
                           (DetectionResult.frame_height res)) w1) in
            if present (WsMessage.frame d)
            then setSyncedFrame (WsMessage.frame d) w2
            else w2
        end
      else if String.eqb (WsMessage.type d) "connected" then
        setDebugInfo "Video stream connected!" w
      else if String.eqb (WsMessage.type d) "error" then
        setDebugInfo
          ("Error: " ^^ default "undefined" (WsMessage.error d)) w
      else w
  end.

Definition onerror (w : world) : world := setDebugInfo "WebSocket error" w.

(** *** Events dispatched by the browser on a socket *)

Definition ws_opened (ws : nat) (w : world) : world :=
  match sockets (env w) !! ws with
  | Some CONNECTING => onopen ws (set_socket ws OPEN w)
  | _ => w
  end.

Definition ws_received (ws : nat) (data : option WsMessage.t) (w : world)
  : world :=
  match sockets (env w) !! ws with
  | Some OPEN => onmessage data w
  | _ => w
  end.

(** *** The detection effect *)

(** Body of the effect keyed on [isDetecting]. *)
Definition detection_effect (urlWithT : string) (w : world) : world :=
  if isDetecting (page w) then
    if isM3u8 then
      let ws := fresh (dom (sockets (env w))) in
      set_wsRef (Some ws) (set_socket ws CONNECTING w)
    else
      let w1 := runDetectionForImage urlWithT w in
      let t := fresh (intervals (env w1)) in
      set_detectIntervalRef (Some t) (add_interval t w1)
  else
    let w1 :=
      match wsRef (page w) with
      | Some ws => set_wsRef None (ws_close ws w)
      | None => w
      end in
    let w2 :=
      match detectIntervalRef (page w1) with
      | Some t => set_detectIntervalRef None (clearInterval t w1)
      | None => w1
      end in
    setSyncedFrame None (setResult None w2).

(** The cleanup it returns. *)
Definition detection_cleanup (w : world) : world :=
  let w1 :=
    match wsRef (page w) with
    | Some ws => set_wsRef None (ws_close ws w)
    | None => w
    end in
  match detectIntervalRef (page w1) with
  | Some t => clearInterval t w1
  | None => w1
  end.

(** A tick of the detection interval [t]. *)
Definition interval_fired (t : positive) (urlWithT : string) (w : world)
  : world :=
  if bool_decide (t ∈ intervals (env w))
  then runDetectionForImage urlWithT w else w.

(** A click on the Start/Stop button: the state flips, then the
    previous effect is cleaned up and the effect runs again. *)
Definition click_toggle (urlWithT : string) (w : world) : world :=
  if isEditing (page w) then w
  else
    detection_effect urlWithT
      (detection_cleanup
         (setIsDetecting (negb (isDetecting (page w))) w)).

(** *** Zone callbacks handed to the editor *)

Definition handleZoneAdd (zone : ZonePolygon.t) (w : world) : world :=
  if Js.str_not cameraId then w
  else fetch (POST_zones_add cameraId zone) w.

Definition handleZoneDelete (zoneId : string) (w : world) : world :=
  if Js.str_not cameraId then w
  else fetch (DELETE_zone cameraId zoneId) w.

Definition handleZonesClear (w : world) : world :=
  if Js.str_not cameraId then w
  else fetch (POST_zones cameraId []) w.

(** Continuation of [addZone] and [deleteZone]. *)
Definition zones_settled (success : bool) (zs : list ZonePolygon.t)
           (w : world) : world :=
  if success then setZones zs w else w.

Definition editor_effect (e : PolygonEditor.effect) (w : world) : world :=
  match e with
  | PolygonEditor.onZoneAdd zone => handleZoneAdd zone w
  | PolygonEditor.onZoneDelete zoneId => handleZoneDelete zoneId w
  | PolygonEditor.onZonesClear => handleZonesClear w
  | PolygonEditor.onEditingChange b => setIsEditing b w
  | PolygonEditor.alert _ => w
  end.

Definition editor_effects (es : list PolygonEditor.effect) (w : world)
  : world :=
  fold_left (fun acc e => editor_effect e acc) es w.

End Page.

End DetectionPage.

(** ** More of the [number] type *)

Module JsMath.
Import Js.

(** [a > b]; a comparison with [NaN] is false. *)
Definition gt (a b : number) : bool :=
  match a, b with
  | NaN, _ | _, NaN => false
  | Fin p, Fin q => negb (Qle_bool p q)
  | PosInf, PosInf => false
  | PosInf, _ => true
  | _, PosInf => false
  | NegInf, _ => false
  | Fin _, NegInf => true
  end.

Definition max2 (a b : number) : number :=
  match a, b with
  | NaN, _ | _, NaN => NaN
  | _, _ => if gt b a then b else a
  end.

(** [Math.max(...args)]: [-Infinity] without arguments, [NaN] as soon as
    one argument is. *)
Definition Math_max (args : list number) : number :=
  fold_left max2 args NegInf.

(** [arr.slice(start)]: up to the end of the array. *)
Definition slice_from {A} (arr : list A) (start : Z) : list A :=
  slice arr start (Z.of_nat (length arr)).

End JsMath.

(** ** What the calls of a repaint carry *)

Module CanvasChecks.
Import Js Canvas.

Definition fin (a : number) : Prop :=
  match a with
  | Fin _ => True
  | _ => False
  end.

(** Every number handed to the context by this call is finite. *)
Definition finite_call (c : call) : Prop :=
  match c with
  | set_width w => fin w
  | set_height h => fin h
  | clearRect x y w h | strokeRect x y w h | fillRect x y w h =>
      fin x /\ fin y /\ fin w /\ fin h
  | moveTo x y | lineTo x y => fin x /\ fin y
  | arc x y r a0 a1 => fin x /\ fin y /\ fin r /\ fin a0 /\ fin a1
  | set_lineWidth n => fin n
  | setLineDash segments => Forall fin segments
  | strokeText _ x y | fillText _ x y => fin x /\ fin y
  | beginPath | closePath | fill | stroke
  | set_fillStyle _ | set_strokeStyle _ | set_font _ => True
  end.

End CanvasChecks.

(** ** The controls of the zone editor *)

Module EditorControls.
Import Js PolygonEditor.

(** [onChange] of the name input. *)
Definition type_name (value : string) (st : state) : state :=
  mkState (currentPoints st) value (zoneType st) (linkedTrafficLightId st).

(** [onChange] of the link selector. *)
Definition select_link (value : string) (st : state) : state :=
  mkState (currentPoints st) (zoneName st) (zoneType st) value.

(** The [value]s of the [<option>]s of the link selector. *)
Definition link_options (p : props) : list string :=
  "" :: map ZonePolygon.id (trafficLightZones p).

(** What the user can do on the editor.  The "Clear All" and delete
    buttons are left out: they only call the parent back, and a session
    below is one during which the zone list does not change. *)
Inductive event : Type :=
| add_zone_pressed
| canvas_clicked (clientX clientY : number) (rect : DOMRect)
| undo_pressed
| save_pressed (generateId : string)
| cancel_pressed
| name_typed (value : string)
| role_selected (value : ZoneType)
| link_selected (value : string).

(** The handler an event reaches, if the control it comes from is
    rendered and enabled under [p] and [st]: the "+ Add Zone" button
    shows outside editing, all other controls inside; Undo and Save
    carry a [disabled] attribute; the link selector shows for the
    stop-line role only and offers [link_options]. *)
Definition dispatch (p : props) (ev : event) (st : state)
  : state * list effect :=
  match ev with
  | add_zone_pressed =>
      if isEditing p then (st, []) else (st, [onEditingChange true])
  | canvas_clicked clientX clientY rect =>
      (handleCanvasClick p st clientX clientY rect, [])
  | undo_pressed =>
      if isEditing p && negb (length (currentPoints st) =? 0)%nat
      then (handleUndo st, []) else (st, [])
  | save_pressed generateId =>
      if isEditing p && negb (save_disabled st)
      then handleSaveZone p st generateId else (st, [])
  | cancel_pressed =>
      if isEditing p then handleCancel else (st, [])
  | name_typed value =>
      if isEditing p then (type_name value st, []) else (st, [])
  | role_selected value =>
      if isEditing p then (select_zoneType st value, []) else (st, [])
  | link_selected value =>
      if isEditing p
         && ZoneType_eqb (zoneType st) stop_line
         && existsb (String.eqb value) (link_options p)
      then (select_link value st, []) else (st, [])
  end.

Definition initial : state := mkState [] "" normal "".

(** The parent keeps [isEditing]: [onEditingChange] is [setIsEditing]. *)
Definition editing_after (es : list effect) (editing : bool) : bool :=
  fold_left (fun acc e =>
               match e with onEditingChange b => b | _ => acc end)
            es editing.

Section Session.
(** The zone list and the dimensions stay as they are during a session. *)
Variable zones : list ZonePolygon.t.
Variables frameWidth frameHeight containerWidth containerHeight : option number.

Definition props_of (editing : bool) : props :=
  mkProps zones frameWidth frameHeight containerWidth containerHeight editing.

(** A session: the editing flag, the editor state, and every effect
    emitted so far. *)
Definition step (s : bool * state * list effect) (ev : event)
  : bool * state * list effect :=
  let '(editing, st, log) := s in
  let '(st', es) := dispatch (props_of editing) ev st in
  (editing_after es editing, st', log ++ es).

Definition run (evs : list event) : bool * state * list effect :=
  fold_left step evs (false, initial, []).

End Session.

End EditorControls.

(** ** [components/TrafficDashboard.tsx] *)

Module TrafficDashboard.
Import Js JsMath.

Record sample : Type := mkSample { time : string; count : number }.

(** The effect keyed on [result]; [now] is the formatted clock reading. *)
Definition on_result (now : string) (result : option DetectionResult.t)
           (history : list sample) : list sample :=
  match result with
  | Some r =>
      if gt (DetectionResult.total_count r) (of_Z 0)
      then slice_from
             (history ++ [mkSample now (DetectionResult.total_count r)]) (-20)
      else history
  | None => history
  end.

Definition maxCount (history : list sample) : number :=
  Math_max (map count history ++ [of_Z 1]).

(** The [height] percentage of one bar of the trend. *)
Definition bar_height (history : list sample) (h : sample) : number :=
  mul (div (count h) (maxCount history)) (of_Z 100).

Definition trend_shown (history : list sample) : bool :=
  (1 <? length history)%nat.

End TrafficDashboard.

(** ** [components/CameraSelectDialog.tsx] *)

Module CameraSelectDialog.

(** [Camera] of [data/cam.ts]. *)
Record Camera : Type := mkCamera {
  id : string;
  name : string;
  location : string;
  url : string;
}.

Definition includes (arr : list string) (x : string) : bool :=
  existsb (String.eqb x) arr.

(** The updater passed to [setTempSelected]. *)
Definition handleToggleCamera (cameraId : string) (prev : list string)
  : list string :=
  if includes prev cameraId
  then List.filter (fun id => negb (String.eqb id cameraId)) prev
  else prev ++ [cameraId].

Section Dialog.
(** The catalogue [ALL_CAMERAS]; the handlers do not depend on what it
    lists. *)
Variable ALL_CAMERAS : list Camera.

(** The list handed to [onCamerasChange] by "save". *)
Definition handleSave (tempSelected : list string) : list Camera :=
  List.filter (fun cam => includes tempSelected (id cam)) ALL_CAMERAS.

(** The list handed to [onCamerasChange], and the new [tempSelected]. *)
Definition handleRemoveCamera (cameraId : string)
           (selectedCameras : list Camera) (tempSelected : list string)
  : list Camera * list string :=
  (List.filter (fun cam => negb (String.eqb (id cam) cameraId)) selectedCameras,
   List.filter (fun i => negb (String.eqb i cameraId)) tempSelected).

End Dialog.

End CameraSelectDialog.

(** ** The events of the detection page *)

Module PageEvents.
Import DetectionPage.

(** [zones.map((z) => z.id === updatedZone.id ? updatedZone : z)] *)
Definition replace_zone (updatedZone : ZonePolygon.t) (zs : list ZonePolygon.t)
  : list ZonePolygon.t :=
  map (fun z => if String.eqb (ZonePolygon.id z) (ZonePolygon.id updatedZone)
                then updatedZone else z) zs.

Section Events.
Variable cameraId cameraUrl : string.
Variable toString : Js.number -> string.

(** [handleZoneUpdate] up to its [await]. *)
Definition handleZoneUpdate (updatedZone : ZonePolygon.t) (w : world) : world :=
  if Js.str_not cameraId then w
  else fetch (POST_zones cameraId (replace_zone updatedZone (zones (page w)))) w.

(** Its continuation, [newZones] being the list computed before. *)
Definition zone_update_settled (newZones : list ZonePolygon.t) (w : world)
  : world :=
  let w1 := setZones newZones w in
  match wsRef (page w1) with
  | Some ws =>
      match sockets (env w1) !! ws with
      | Some OPEN => ws_send ws update_zones w1
      | _ => w1
      end
  | None => w1
  end.

(** Continuation of [handleZonesClear]: the list is emptied whatever the
    response says. *)
Definition zones_cleared (w : world) : world := setZones [] w.

(** A connection that fails: the handler runs and the socket is closed. *)
Definition ws_failed (ws : nat) (w : world) : world :=
  match sockets (env w) !! ws with
  | Some CONNECTING | Some OPEN => onerror (ws_close ws w)
  | _ => w
  end.

(** The effect keyed on [cameraId]: the saved zones are fetched when the
    page mounts. *)
Definition zones_effect (w : world) : world :=
  if Js.str_not cameraId then w else fetch (GET_zones cameraId) w.

(** Its continuation, [setZones(data.zones || [])], and its [catch]. *)
Definition zones_loaded (zs : option (list ZonePolygon.t)) (w : world)
  : world :=
  setZones (default [] zs) w.

Definition zones_load_failed (message : string) (w : world) : world :=
  console_error message w.

(** [handleVideoLoad] and [handleImageLoad]. *)
Definition handleVideoLoad (videoWidth videoHeight : Js.number) (w : world)
  : world :=
  setFrameSize
    (mkSize (Js.num_or (Some videoWidth) (Js.of_Z 1920))
            (Js.num_or (Some videoHeight) (Js.of_Z 1080))) w.

Definition handleImageLoad (naturalWidth naturalHeight : Js.number)
           (w : world) : world :=
  setFrameSize (mkSize naturalWidth naturalHeight) w.

(** The page while it is mounted: the cells and refs of [world], the
    [timestamp] cell, and the id of the snapshot-refresh interval, which
    no ref holds: only the cleanup returned by its effect knows it. *)
Record mounted : Type := mkMounted {
  cells : world;
  refreshInterval : option positive;
  timestamp : Z;
}.

Definition on_cells (f : world -> world) (m : mounted) : mounted :=
  mkMounted (f (cells m)) (refreshInterval m) (timestamp m).

(** The effect keyed on [isM3u8]: on a snapshot camera an interval of
    12 s re-reads the clock, which changes the address of the image. *)
Definition refresh_effect (w : world) : world * option positive :=
  if isM3u8 cameraUrl then (w, None)
  else
    let t := fresh (intervals (env w)) in
    (add_interval t w, Some t).

(** The first render and its effects, in the order of the source: the
    zones are fetched, the refresh interval is armed, and the detection
    effect runs with [isDetecting] false (so that the address it is
    given is not used).  [now] is the clock at the first render.  The
    resize listener and the effect that drives the HLS player are left
    out: they create neither a socket nor an interval of the page, and
    the cells they write ([containerSize], the player) are not among
    those of [world]. *)
Definition mount (now : Z) : mounted :=
  let '(w, t) := refresh_effect (zones_effect initial) in
  mkMounted (detection_effect cameraId cameraUrl "" w) t now.

(** The cleanups run when the page is left, in the order of the
    effects: the refresh interval is cleared, then the detection effect
    is cleaned up. *)
Definition unmount (m : mounted) : world :=
  detection_cleanup
    match refreshInterval m with
    | Some t => clearInterval t (cells m)
    | None => cells m
    end.

(** A tick of interval [t]: the browser runs the callback that was
    registered under that id. *)
Definition interval_ticked (t : positive) (urlWithT : string) (now : Z)
           (m : mounted) : mounted :=
  if bool_decide (refreshInterval m = Some t) then
    if bool_decide (t ∈ intervals (env (cells m)))
    then mkMounted (cells m) (refreshInterval m) now
    else m
  else on_cells (interval_fired cameraId cameraUrl t urlWithT) m.

Inductive event : Type :=
| toggle_clicked (urlWithT : string)
| socket_opened (ws : nat)
| socket_message (ws : nat) (data : option WsMessage.t)
| socket_failed (ws : nat)
| interval_tick (t : positive) (urlWithT : string) (now : Z)
| detect_response (response : option DetectResponse.t) (message : string)
| editor_called (e : PolygonEditor.effect)
| zones_response (success : bool) (zs : list ZonePolygon.t)
| zones_clear_response
| zones_load_response (zs : option (list ZonePolygon.t))
| zones_load_error (message : string)
| video_loaded (videoWidth videoHeight : Js.number)
| image_loaded (naturalWidth naturalHeight : Js.number).

Definition dispatch (ev : event) (m : mounted) : mounted :=
  match ev with
  | toggle_clicked urlWithT =>
      on_cells (click_toggle cameraId cameraUrl urlWithT) m
  | socket_opened ws => on_cells (ws_opened cameraUrl ws) m
  | socket_message ws data => on_cells (ws_received toString ws data) m
  | socket_failed ws => on_cells (ws_failed ws) m
  | interval_tick t urlWithT now => interval_ticked t urlWithT now m
  | detect_response response message =>
      on_cells (detect_settled toString response message) m
  | editor_called e => on_cells (editor_effect cameraId e) m
  | zones_response success zs => on_cells (zones_settled success zs) m
  | zones_clear_response => on_cells zones_cleared m
  | zones_load_response zs => on_cells (zones_loaded zs) m
  | zones_load_error message => on_cells (zones_load_failed message) m
  | video_loaded videoWidth videoHeight =>
      on_cells (handleVideoLoad videoWidth videoHeight) m
  | image_loaded naturalWidth naturalHeight =>
      on_cells (handleImageLoad naturalWidth naturalHeight) m
  end.

Definition run (evs : list event) (m : mounted) : mounted :=
  fold_left (fun acc ev => dispatch ev acc) evs m.

(** Who holds the sockets and intervals of the page's own code.  Every
    live socket is the one in [wsRef], and exists only while detecting on
    a stream camera.  Intervals exist on snapshot cameras only: the
    refresh interval, armed for as long as the page is mounted, and the
    one in [detectIntervalRef], armed only while detecting. *)
Definition owned (rt : option positive) (w : world) : Prop :=
  (forall ws r, sockets (env w) !! ws = Some r -> r <> CLOSED ->
     wsRef (page w) = Some ws /\ isDetecting (page w) = true
     /\ isM3u8 cameraUrl = true)
  /\ (forall t, t ∈ intervals (env w) ->
        isM3u8 cameraUrl = false
        /\ (rt = Some t
            \/ (detectIntervalRef (page w) = Some t
                /\ isDetecting (page w) = true)))
  /\ (isM3u8 cameraUrl = false ->
      exists t, rt = Some t /\ t ∈ intervals (env w)
                /\ detectIntervalRef (page w) <> Some t)
  /\ (isM3u8 cameraUrl = true -> rt = None).

Definition transports_owned (m : mounted) : Prop :=
  owned (refreshInterval m) (cells m).

(** Nothing of the page is left running. *)
Definition nothing_running (w : world) : Prop :=
  (forall ws r, sockets (env w) !! ws = Some r -> r = CLOSED)
  /\ (forall t, t ∉ intervals (env w)).

End Events.

End PageEvents.

(** ** Comparing two states of the detection page *)

Module PageChecks.
Import DetectionPage.


End PageChecks.

(** ** Arithmetic in binary64 *)

(** The four operations of [Js] compute in exact rationals.  Here each of
    them is followed by the rounding of IEEE 754 binary64 (53 bits of
    precision, exponents up to 1023, gradual underflow, round to nearest
    with ties to even), which is what the operators of the language do.
    A result too small to be told from zero rounds to [Fin 0], the sign
    of zero being dropped as in [Js]: the guarded divisors below are
    never zero, so that sign cannot show. *)
Module Binary64.
Import Js.
Local Open Scope Q_scope.

Definition pow2 (e : Z) : Q := 2 ^ e.

(** The unit roundoff and the half of the smallest positive number. *)
Definition eps : Q := pow2 (-53).
Definition eta : Q := pow2 (-1075).

(** [floor (log2 a)] for a positive [a]. *)
Definition ilog2 (a : Q) : Z :=
  let e := (Z.log2 (Qnum a) - Z.log2 (Zpos (Qden a)))%Z in
  if Qle_bool (pow2 e) a then e else (e - 1)%Z.

(** The integer nearest to [x], the even one of the two at a tie. *)
Definition nearest_even (x : Q) : Z :=
  let f := Qfloor x in
  match Qcompare (x - inject_Z f) (1 # 2) with
  | Lt => f
  | Eq => if Z.even f then f else (f + 1)%Z
  | Gt => (f + 1)%Z
  end.

(** The binary64 number nearest to [q]: a multiple of the unit in the
    last place of [q], which is [2 ^ (e - 52)] in the binade
    [2 ^ e <= |q| < 2 ^ (e + 1)] and [2 ^ -1074] below [2 ^ -1022], or an
    infinity from [2 ^ 1024] on. *)
Definition round64 (q : Q) : number :=
  if is_zero q then Fin 0
  else
    let a := Qabs q in
    let ulp := pow2 (Z.max (ilog2 a - 52) (-1074)) in
    let r := inject_Z (nearest_even (a / ulp)) * ulp in
    if Qle_bool (pow2 1024) r then inf_signed q
    else Fin (Qred (if is_pos q then r else - r)).

Definition rounded (a : number) : number :=
  match a with
  | Fin q => round64 q
  | _ => a
  end.

Definition add (a b : number) : number := rounded (Js.add a b).
Definition sub (a b : number) : number := rounded (Js.sub a b).
Definition mul (a b : number) : number := rounded (Js.mul a b).
Definition div (a b : number) : number := rounded (Js.div a b).

(** A number that a binary64 variable can hold (a finite one being kept
    in lowest terms). *)
Definition representable (a : number) : Prop := rounded a = a.

(** A finite number at most [tol] away from [c]. *)
Definition within (a : number) (c tol : Q) : Prop :=
  match a with
  | Fin x => Qabs (x - c) <= tol
  | _ => False
  end.

(** What five roundings can move a coordinate [c] by, when it is scaled
    by [s], shifted by the origin [o], shifted back and unscaled: a few
    units in the last place of [c] and of [o / s], and a term for the
    roundings that fall near zero. *)
Definition tolerance (c o s : Q) : Q :=
  pow2 (-50) * (Qabs c + Qabs o / s) + pow2 (-600).

(** A dimension that is not reported ([undefined], [NaN] or zero) or of
    a magnitude between [2 ^ -k] and [2 ^ k]; for [k] up to 500 the
    quotient of two such dimensions is clear of underflow and overflow. *)
Definition ordinary (k : Z) (v : option number) : Prop :=
  match v with
  | None | Some NaN => True
  | Some (Fin q) => q == 0 \/ (pow2 (- k) <= Qabs q /\ Qabs q <= pow2 k)
  | Some PosInf | Some NegInf => False
  end.

(** A finite number of magnitude at most [2 ^ k]. *)
Definition bounded (k : Z) (a : number) : Prop :=
  match a with
  | Fin q => Qabs q <= pow2 k
  | _ => False
  end.

Definition bounded_point (k : Z) (pt : Point.t) : Prop :=
  bounded k (Point.x pt) /\ bounded k (Point.y pt).

Definition bounded_box (k : Z) (b : BoundingBox.t) : Prop :=
  bounded k (BoundingBox.x1 b) /\ bounded k (BoundingBox.y1 b)
  /\ bounded k (BoundingBox.x2 b) /\ bounded k (BoundingBox.y2 b).

(** The value of a float of the reference implementation of the
    Standard Library, against which [round64] is checked below. *)
Definition of_spec_float (x : SpecFloat.spec_float) : number :=
  match x with
  | SpecFloat.S754_zero _ => Fin 0
  | SpecFloat.S754_infinity false => PosInf
  | SpecFloat.S754_infinity true => NegInf
  | SpecFloat.S754_nan => NaN
  | SpecFloat.S754_finite s m e =>
      Fin (Qred ((if s then - 1 else 1) * inject_Z (Zpos m) * pow2 e))
  end.

(** [m * 2 ^ e] as such a float. *)
Definition spec_float_of (m e : Z) : SpecFloat.spec_float :=
  SpecFloat.binary_normalize 53 1024 m e false.

End Binary64.

(** ** The overlays in binary64 *)

(** What involves no arithmetic (the guarded dimensions, the colours,
    the labels of zones, the lookups) is shared with [DetectionViewer]
    and [PolygonEditor]; the scale factors, the projection,
    [toFrameCoords] and the repaints are the same expressions as there,
    [add], [sub], [mul] and [div] being the operators of [Binary64]. *)
Module DetectionViewer64.
Import Js Canvas Binary64.
Import DetectionViewer.

Section Render.
Variable measureText : string -> string -> number.
Variable p : props.

Definition scaleX : number := div (safeContainerWidth p) (safeFrameWidth p).
Definition scaleY : number := div (safeContainerHeight p) (safeFrameHeight p).

Definition draw_zone (zone : ZonePolygon.t) : result (list call) :=
  let pts := ZonePolygon.points zone in
  if (length pts <? 3)%nat then Ok []
  else
    let* p0 := at_index pts 0 in
    let* edges :=
      for_range 1 (length pts - 1) (fun i =>
        let* pi := at_index pts i in
        Ok [lineTo (mul (Point.x pi) scaleX) (mul (Point.y pi) scaleY)]) in
    Ok ([beginPath;
         moveTo (mul (Point.x p0) scaleX) (mul (Point.y p0) scaleY)]
        ++ edges
        ++ [closePath;
            set_fillStyle (if ZonePolygon.is_parking_zone zone
                           then "rgba(255, 0, 0, 0.2)"
                           else "rgba(0, 255, 0, 0.2)");
            fill;
            set_strokeStyle
              (str_or (ZonePolygon.color zone)
                 (if ZonePolygon.is_parking_zone zone
                  then "#FF0000" else "#00FF00"));
            set_lineWidth (of_Z 3);
            stroke]
        ++ (if flag (showLabels p) then
              let labelX := add (mul (Point.x p0) scaleX) (of_Z 5) in
              let labelY := add (mul (Point.y p0) scaleY) (of_Z 20) in
              [set_fillStyle "#FFFFFF";
               set_strokeStyle "#000000";
               set_lineWidth (of_Z 3);
               set_font "bold 14px Arial";
               strokeText (ZonePolygon.name zone) labelX labelY;
               fillText (ZonePolygon.name zone) labelX labelY]
            else [])).

Definition percent (det : Detection.t) : string :=
  toFixed0 (mul (Detection.confidence det) (of_Z 100)).

Definition label_of (det : Detection.t) : string :=
  match Detection.track_id det with
  | Some tid =>
      "#" ^^ pretty tid ^^ " " ^^ Detection.class_name det ^^ " "
          ^^ percent det ^^ "%"
  | None => Detection.class_name det ^^ " " ^^ percent det ^^ "%"
  end.

Definition callout (det : Detection.t) (x1 y1 h : number) : list call :=
  match find (fun v => bool_decide (ParkingViolation.track_id v
                                    = Detection.track_id det))
             (violations p) with
  | Some violation =>
      if flag (showLabels p) then
        let warnText :=
          "⚠ PARKING "
            ^^ toFixed0 (ParkingViolation.duration_seconds violation)
            ^^ "s" in
        let warnWidth := measureText "bold 14px Arial" warnText in
        [set_font "bold 14px Arial";
         set_fillStyle "#FF0000";
         fillRect x1 (add (add y1 h) (of_Z 4))
                  (add warnWidth (of_Z 12)) (of_Z 22);
         set_fillStyle "#FFFFFF";
         fillText warnText (add x1 (of_Z 6)) (add (add y1 h) (of_Z 20))]
      else []
  | None => []
  end.

Definition draw_detection (det : Detection.t) : result (list call) :=
  let isViolation := isViolation p det in
  let color := getColor (Detection.class_name det) isViolation in
  let box := Detection.bbox det in
  let x1 := mul (BoundingBox.x1 box) scaleX in
  let y1 := mul (BoundingBox.y1 box) scaleY in
  let w := mul (sub (BoundingBox.x2 box) (BoundingBox.x1 box)) scaleX in
  let h := mul (sub (BoundingBox.y2 box) (BoundingBox.y1 box)) scaleY in
  Ok ([set_strokeStyle color;
       set_lineWidth (if isViolation then of_Z 4 else of_Z 3);
       strokeRect x1 y1 w h]
      ++ (if flag (showLabels p) then
            let label := label_of det in
            let textWidth := measureText "bold 12px Arial" label in
            let textHeight := of_Z 16 in
            let padding := of_Z 4 in
            [set_font "bold 12px Arial";
             set_fillStyle color;
             fillRect x1 (sub (sub y1 textHeight) padding)
                      (add textWidth (mul padding (of_Z 2)))
                      (add textHeight padding);
             set_fillStyle "#000000";
             fillText label (add x1 padding)
                      (sub (sub y1 padding) (of_Z 2))]
          else [])
      ++ (if isViolation then callout det x1 y1 h else [])).

Definition draw : result (list call) :=
  let* zs :=
    if flag (showZones p) && (0 <? length (zones p))%nat
    then for_of (zones p) draw_zone
    else Ok [] in
  let* ds :=
    if (0 <? length (detections p))%nat
    then for_of (detections p) draw_detection
    else Ok [] in
  Ok ([set_width (safeContainerWidth p);
       set_height (safeContainerHeight p);
       clearRect (of_Z 0) (of_Z 0) (safeContainerWidth p)
                 (safeContainerHeight p)]
      ++ zs ++ ds).

End Render.

End DetectionViewer64.

Module PolygonEditor64.
Import Js Canvas Binary64.
Import PolygonEditor.

Section Component.
Variable p : props.

Definition scaleX : number := div (safeContainerWidth p) (safeFrameWidth p).
Definition scaleY : number := div (safeContainerHeight p) (safeFrameHeight p).

Definition toViewport (pt : Point.t) : Point.t :=
  Point.mk (mul (Point.x pt) scaleX) (mul (Point.y pt) scaleY).

Definition toFrameCoords (clientX clientY : number) (rect : DOMRect) : Point.t :=
  let x := div (sub clientX (left rect)) scaleX in
  let y := div (sub clientY (top rect)) scaleY in
  Point.mk x y.

Definition mean (coord : Point.t -> number) (pts : list Point.t) : number :=
  div (fold_left (fun s pt => add s (coord pt)) pts (of_Z 0))
      (of_nat (length pts)).

Definition link_line (zone : ZonePolygon.t) : list call :=
  if ZonePolygon.is_stop_line zone
     && match ZonePolygon.linked_traffic_light_id zone with
        | Some l => negb (str_not l)
        | None => false
        end
  then
    match find_linked p zone with
    | Some linkedLight =>
        if (0 <? length (ZonePolygon.points linkedLight))%nat then
          let stopCenter :=
            Point.mk (mean Point.x (ZonePolygon.points zone))
                     (mean Point.y (ZonePolygon.points zone)) in
          let lightCenter :=
            Point.mk (mean Point.x (ZonePolygon.points linkedLight))
                     (mean Point.y (ZonePolygon.points linkedLight)) in
          [beginPath;
           moveTo (mul (Point.x stopCenter) scaleX)
                  (mul (Point.y stopCenter) scaleY);
           lineTo (mul (Point.x lightCenter) scaleX)
                  (mul (Point.y lightCenter) scaleY);
           set_strokeStyle "rgba(255, 255, 0, 0.5)";
           set_lineWidth (of_Z 2);
           setLineDash [of_Z 5; of_Z 5];
           stroke;
           setLineDash []]
        else []
    | None => []
    end
  else [].

Definition draw_zone (zone : ZonePolygon.t) : result (list call) :=
  let pts := ZonePolygon.points zone in
  if (length pts <? 3)%nat then Ok []
  else
    let* p0 := at_index pts 0 in
    let* edges :=
      for_range 1 (length pts - 1) (fun j =>
        let* pj := at_index pts j in
        Ok [lineTo (mul (Point.x pj) scaleX) (mul (Point.y pj) scaleY)]) in
    let labelX := add (mul (Point.x p0) scaleX) (of_Z 5) in
    let labelY := add (mul (Point.y p0) scaleY) (of_Z 20) in
    let label := zone_label p zone in
    Ok ([beginPath;
         moveTo (mul (Point.x p0) scaleX) (mul (Point.y p0) scaleY)]
        ++ edges
        ++ [closePath;
            set_fillStyle (getZoneColor p zone);
            fill;
            set_strokeStyle (getZoneStrokeColor p zone);
            set_lineWidth
              (if ZonePolygon.is_traffic_light zone
                  || ZonePolygon.is_stop_line zone
               then of_Z 4 else of_Z 3);
            setLineDash (if ZonePolygon.is_stop_line zone
                         then [of_Z 10; of_Z 5] else []);
            stroke;
            setLineDash [];
            set_fillStyle "#FFFFFF";
            set_strokeStyle "#000000";
            set_lineWidth (of_Z 3);
            set_font "bold 14px Arial";
            strokeText label labelX labelY;
            fillText label labelX labelY]
        ++ link_line zone).

Section WithState.
Variable Math_PI : number.
Variable st : state.

Definition draw_current : result (list call) :=
  let pts := currentPoints st in
  if isEditing p && (0 <? length pts)%nat then
    let* p0 := at_index pts 0 in
    let* edges :=
      for_range 1 (length pts - 1) (fun i =>
        let* pi := at_index pts i in
        Ok [lineTo (mul (Point.x pi) scaleX) (mul (Point.y pi) scaleY)]) in
    let* discs :=
      for_of pts (fun point =>
        Ok [beginPath;
            arc (mul (Point.x point) scaleX) (mul (Point.y point) scaleY)
                (of_Z 8) (of_Z 0) (mul Math_PI (of_Z 2));
            set_fillStyle (strokeColor st);
            fill;
            set_strokeStyle "#FFFFFF";
            set_lineWidth (of_Z 2);
            stroke]) in
    Ok ([beginPath;
         moveTo (mul (Point.x p0) scaleX) (mul (Point.y p0) scaleY)]
        ++ edges
        ++ [set_strokeStyle (strokeColor st);
            set_lineWidth (of_Z 3);
            setLineDash [of_Z 8; of_Z 4];
            stroke;
            setLineDash []]
        ++ discs)
  else Ok [].

Definition draw : result (list call) :=
  let* zs := for_of (zones p) draw_zone in
  let* cur := draw_current in
  Ok ([set_width (safeContainerWidth p);
       set_height (safeContainerHeight p);
       clearRect (of_Z 0) (of_Z 0) (safeContainerWidth p)
                 (safeContainerHeight p)]
      ++ zs ++ cur).

End WithState.
End Component.

End PolygonEditor64.

(** * Properties *)

(** ** Arithmetic on [number] *)

Section NumberFacts.
Import Js.

Lemma is_zero_false (q : Q) : ~ q == 0 -> is_zero q = false.
Proof.
  intros Hq. unfold is_zero. destruct (Qeq_bool q 0) eqn:E; [|reflexivity].
  apply Qeq_bool_iff in E. contradiction.
Qed.

Lemma is_zero_true (q : Q) : q == 0 -> is_zero q = true.
Proof. intros Hq. unfold is_zero. now apply Qeq_bool_iff. Qed.

Lemma div_Fin (a b : Q) : ~ b == 0 -> div (Fin a) (Fin b) = Fin (a / b).
Proof. intros Hb. simpl. now rewrite is_zero_false. Qed.

Lemma num_or_Fin (q : Q) (d : number) :
  ~ q == 0 -> num_or (Some (Fin q)) d = Fin q.
Proof. intros Hq. simpl. now rewrite is_zero_false. Qed.

Lemma num_or_default (v : option number) (d : number) :
  zero_or_undefined v -> num_or v d = d.
Proof.
  destruct v as [[q| | |]|]; simpl; try contradiction; [|reflexivity].
  intros Hq. now rewrite is_zero_true.
Qed.

Lemma num_or_finite_nonzero (v : option number) (d : number) :
  reported v -> finite_nonzero d -> finite_nonzero (num_or v d).
Proof.
  destruct v as [[q| | |]|]; simpl; try contradiction; try (intros; assumption).
  intros _ Hd. destruct (is_zero q) eqn:E; simpl; [assumption|].
  intros Hq. apply is_zero_true in Hq. congruence.
Qed.

Lemma div_finite_nonzero (a b : number) :
  finite_nonzero a -> finite_nonzero b -> finite_nonzero (div a b).
Proof.
  destruct a as [p| | |], b as [q| | |]; simpl; try contradiction.
  intros Hp Hq. rewrite (is_zero_false q Hq). simpl.
  intros H. apply Hp.
  assert (E : p == p / q * q) by (field; exact Hq).
  rewrite E, H. ring.
Qed.

Lemma of_Z_finite_nonzero (z : Z) : z <> 0%Z -> finite_nonzero (of_Z z).
Proof.
  intros Hz. simpl. unfold Qeq. simpl. lia.
Qed.

End NumberFacts.

(** ** The primitives on sample inputs *)

Section Samples.
Import Js.

Example toFixed0_half_up : toFixed0 (Fin (5 # 2)) = "3".
Proof. reflexivity. Qed.

Example toFixed0_half_down : toFixed0 (Fin (- 5 # 2)) = "-3".
Proof. reflexivity. Qed.

Example toFixed0_percent : toFixed0 (mul (Fin (87 # 100)) (of_Z 100)) = "87".
Proof. reflexivity. Qed.

Example div_by_zero : div (of_Z 800) (of_Z 0) = PosInf.
Proof. reflexivity. Qed.

Example zero_by_zero : div (of_Z 0) (of_Z 0) = NaN.
Proof. reflexivity. Qed.

Example num_or_NaN : num_or (Some NaN) (of_Z 640) = of_Z 640.
Proof. reflexivity. Qed.

Example slice_last (a b c : nat) : slice [a; b; c] 0 (-1) = [a; b].
Proof. reflexivity. Qed.

Example slice_empty : slice ([] : list nat) 0 (-1) = [].
Proof. reflexivity. Qed.

Example slice_middle (a b c d : nat) : slice [a; b; c; d] 1 3 = [b; c].
Proof. reflexivity. Qed.

Example m3u8_sniffed :
  DetectionPage.isM3u8 "https://cam.example/live/index.M3U8?token=1" = true
  /\ DetectionPage.isM3u8 "https://cam.example/shot.jpg" = false.
Proof. split; reflexivity. Qed.

Example label_tracked :
  DetectionViewer.label_of
    (Detection.mk (BoundingBox.mk (of_Z 0) (of_Z 0) (of_Z 1) (of_Z 1))
                  "car" 2 (Fin (9 # 10)) (Some 7%Z))
  = "#7 car 90%".
Proof. reflexivity. Qed.

Example color_by_class :
  DetectionViewer.getColor "bus" false = "#FF8800"
  /\ DetectionViewer.getColor "tram" false = "#00FF00"
  /\ DetectionViewer.getColor "bus" true = "#FF0000".
Proof. repeat split; reflexivity. Qed.

End Samples.

(** ** Loops and array reads never throw inside their guards *)

Section Loops.
Import Js.

Lemma at_index_lt {A} (arr : list A) (i : nat) :
  (i < length arr)%nat -> exists a, at_index arr i = Ok a.
Proof.
  intros Hi. unfold at_index.
  destruct (lookup_lt_is_Some_2 arr i Hi) as [a Ha].
  exists a. now rewrite Ha.
Qed.

Lemma for_range_total {A} (body : nat -> result (list A)) (count lo : nat) :
  (forall i, (lo <= i < lo + count)%nat -> exists out, body i = Ok out) ->
  exists outs, for_range lo count body = Ok outs.
Proof.
  revert lo. induction count as [|n IH]; intros lo Hbody; simpl.
  - now exists [].
  - destruct (Hbody lo) as [out Hout]; [lia|].
    destruct (IH (S lo)) as [rest Hrest].
    + intros i Hi. apply Hbody. lia.
    + rewrite Hout, Hrest. simpl. now eexists.
Qed.

Lemma for_of_total {A B} (body : A -> result (list B)) (arr : list A) :
  (forall a, In a arr -> exists out, body a = Ok out) ->
  exists outs, for_of arr body = Ok outs.
Proof.
  induction arr as [|a arr IH]; intros Hbody; simpl.
  - now exists [].
  - destruct (Hbody a) as [out Hout]; [now left|].
    destruct IH as [rest Hrest].
    + intros b Hb. apply Hbody. now right.
    + rewrite Hout, Hrest. simpl. now eexists.
Qed.

(** An iteration that emits nothing can be dropped from the loop. *)
Lemma for_of_skip {A B} (body : A -> result (list B)) (before after : list A) (a : A) :
  body a = Ok [] ->
  for_of (before ++ a :: after) body = for_of (before ++ after) body.
Proof.
  intros Ha. induction before as [|b before IH]; simpl.
  - rewrite Ha. simpl. now destruct (for_of after body).
  - now rewrite IH.
Qed.

(** Two bodies that agree on every element give the same loop. *)
Lemma for_of_ext {A B} (f g : A -> result (list B)) (arr : list A) :
  (forall a, In a arr -> f a = g a) -> for_of arr f = for_of arr g.
Proof.
  induction arr as [|a arr IH]; intros H; simpl; [reflexivity|].
  rewrite (H a) by now left.
  rewrite IH; [reflexivity|]. intros b Hb. apply H. now right.
Qed.


(** The edge loop [for (i = 1; i < pts.length; i++)] reads inside the
    array only. *)
Lemma edges_total {B} (pts : list Point.t) (emit : Point.t -> list B) :
  exists edges,
    for_range 1 (length pts - 1)
      (fun i => let* pi := at_index pts i in Ok (emit pi)) = Ok edges.
Proof.
  apply for_range_total. intros i Hi.
  destruct (at_index_lt pts i) as [a Ha]; [lia|].
  rewrite Ha. simpl. now eexists.
Qed.

Lemma viewer_draw_zone_total (v : DetectionViewer.props) (zone : ZonePolygon.t) :
  exists out, DetectionViewer.draw_zone v zone = Ok out.
Proof.
  unfold DetectionViewer.draw_zone.
  destruct (length (ZonePolygon.points zone) <? 3)%nat eqn:E; [now eexists|].
  apply Nat.ltb_ge in E.
  destruct (at_index_lt (ZonePolygon.points zone) 0) as [p0 H0]; [lia|].
  rewrite H0. simpl.
  destruct (edges_total (ZonePolygon.points zone)
              (fun pi => [Canvas.lineTo (mul (Point.x pi) (DetectionViewer.scaleX v))
                                        (mul (Point.y pi) (DetectionViewer.scaleY v))]))
    as [edges He].
  rewrite He. simpl. now eexists.
Qed.

Lemma editor_draw_zone_total (e : PolygonEditor.props) (zone : ZonePolygon.t) :
  exists out, PolygonEditor.draw_zone e zone = Ok out.
Proof.
  unfold PolygonEditor.draw_zone.
  destruct (length (ZonePolygon.points zone) <? 3)%nat eqn:E; [now eexists|].
  apply Nat.ltb_ge in E.
  destruct (at_index_lt (ZonePolygon.points zone) 0) as [p0 H0]; [lia|].
  rewrite H0. simpl.
  destruct (edges_total (ZonePolygon.points zone)
              (fun pj => [Canvas.lineTo (mul (Point.x pj) (PolygonEditor.scaleX e))
                                        (mul (Point.y pj) (PolygonEditor.scaleY e))]))
    as [edges He].
  rewrite He. simpl. now eexists.
Qed.

Lemma editor_draw_current_total (e : PolygonEditor.props) (pi : number)
      (st : PolygonEditor.state) :
  exists out, PolygonEditor.draw_current e pi st = Ok out.
Proof.
  unfold PolygonEditor.draw_current.
  destruct (PolygonEditor.isEditing e
            && (0 <? length (PolygonEditor.currentPoints st))%nat) eqn:E;
    [|now eexists].
  apply andb_true_iff in E as [_ E]. apply Nat.ltb_lt in E.
  destruct (at_index_lt (PolygonEditor.currentPoints st) 0) as [p0 H0]; [lia|].
  rewrite H0. simpl.
  destruct (edges_total (PolygonEditor.currentPoints st)
              (fun pj => [Canvas.lineTo (mul (Point.x pj) (PolygonEditor.scaleX e))
                                        (mul (Point.y pj) (PolygonEditor.scaleY e))]))
    as [edges He].
  rewrite He. simpl.
  match goal with
  | |- context [for_of ?l ?f] =>
      destruct (for_of_total f l) as [discs Hd]
  end.
  { intros a _. now eexists. }
  rewrite Hd. simpl. now eexists.
Qed.

(** Neither repaint can throw. *)
Lemma viewer_draw_total (mt : string -> string -> number) (v : DetectionViewer.props) :
  exists calls, DetectionViewer.draw mt v = Ok calls.
Proof.
  unfold DetectionViewer.draw.
  destruct (for_of_total (DetectionViewer.draw_zone v) (DetectionViewer.zones v))
    as [zs Hz]; [intros; apply viewer_draw_zone_total|].
  destruct (for_of_total (DetectionViewer.draw_detection mt v)
              (DetectionViewer.detections v)) as [ds Hd].
  { intros a _. unfold DetectionViewer.draw_detection. now eexists. }
  rewrite Hz, Hd.
  destruct (_ && _); destruct (_ <? _)%nat; simpl; now eexists.
Qed.

Lemma editor_draw_total (e : PolygonEditor.props) (pi : number)
      (st : PolygonEditor.state) :
  exists calls, PolygonEditor.draw e pi st = Ok calls.
Proof.
  unfold PolygonEditor.draw.
  destruct (for_of_total (PolygonEditor.draw_zone e) (PolygonEditor.zones e))
    as [zs Hz]; [intros; apply editor_draw_zone_total|].
  destruct (editor_draw_current_total e pi st) as [cur Hc].
  rewrite Hz, Hc. simpl. now eexists.
Qed.

End Loops.

(** ** The detection viewer *)

Section Viewer.
Import Js Canvas.
Local Open Scope Q_scope.

Variable measureText : string -> string -> number.



(** C2 -- untracked detections.  A detection whose [track_id] is [null] is
    not a violation whatever the violation list holds (entries with a
    [null] track id included): its box is stroked in the colour of its
    class with line width 3, its label carries that colour and no track
    id, and no callout follows. *)
Theorem null_track_id_never_violation
  (v : DetectionViewer.props) (det : Detection.t) :
  Detection.track_id det = None ->
  let color := DetectionViewer.getColor (Detection.class_name det) false in
  let box := Detection.bbox det in
  let sx := DetectionViewer.scaleX v in
  let sy := DetectionViewer.scaleY v in
  let x1 := mul (BoundingBox.x1 box) sx in
  let y1 := mul (BoundingBox.y1 box) sy in
  let w := mul (sub (BoundingBox.x2 box) (BoundingBox.x1 box)) sx in
  let h := mul (sub (BoundingBox.y2 box) (BoundingBox.y1 box)) sy in
  let label :=
    Detection.class_name det ^^ " "
      ^^ toFixed0 (mul (Detection.confidence det) (of_Z 100)) ^^ "%" in
  DetectionViewer.isViolation v det = false
  /\ DetectionViewer.draw_detection measureText v det
     = Ok ([set_strokeStyle color; set_lineWidth (of_Z 3); strokeRect x1 y1 w h]
           ++ (if DetectionViewer.flag (DetectionViewer.showLabels v) then
                 [set_font "bold 12px Arial";
                  set_fillStyle color;
                  fillRect x1 (sub (sub y1 (of_Z 16)) (of_Z 4))
                    (add (measureText "bold 12px Arial" label)
                         (mul (of_Z 4) (of_Z 2)))
                    (add (of_Z 16) (of_Z 4));
                  set_fillStyle "#000000";
                  fillText label (add x1 (of_Z 4))
                    (sub (sub y1 (of_Z 4)) (of_Z 2))]
               else [])).
Proof.
  intros Hnull color box sx sy x1 y1 w h label.
  assert (Hv : DetectionViewer.isViolation v det = false).
  { unfold DetectionViewer.isViolation. rewrite Hnull.
    rewrite bool_decide_eq_true_2 by reflexivity.
    simpl. now rewrite andb_false_r. }
  split; [exact Hv|].
  unfold DetectionViewer.draw_detection. rewrite Hv.
  unfold DetectionViewer.label_of, DetectionViewer.percent. rewrite Hnull.
  subst color box sx sy x1 y1 w h label.
  now rewrite app_nil_r.
Qed.

End Viewer.

Section ViewerInstances.
Import Js Canvas.
Local Open Scope Q_scope.


(** C2 at a motorcycle without track id, while the violation list holds
    an entry whose track id is [null] and another for track 7. *)
Lemma null_track_id_never_violation_witness :
  let measureText := fun (_ text : string) => of_nat (7 * String.length text) in
  let box := BoundingBox.mk (of_Z 10) (of_Z 20) (of_Z 110) (of_Z 220) in
  let det := Detection.mk box "motorcycle" 3 (Fin (87 # 100)) None in
  let v :=
    DetectionViewer.mkProps [det] []
      [ParkingViolation.mk None "motorcycle" "z1" "Kerb" (Fin 42) box;
       ParkingViolation.mk (Some 7%Z) "car" "z1" "Kerb" (Fin 12) box]
      (Some (of_Z 1920)) (Some (of_Z 1080)) (Some (of_Z 800)) (Some (of_Z 450))
      (Some false) None (Some true) in
  ((None : option Z) ∈ DetectionViewer.violationTrackIds v)
  /\ DetectionViewer.isViolation v det = false
  /\ DetectionViewer.draw_detection measureText v det
     = Ok [set_strokeStyle "#FFFF00"; set_lineWidth (of_Z 3);
           strokeRect (mul (of_Z 10) (DetectionViewer.scaleX v))
                      (mul (of_Z 20) (DetectionViewer.scaleY v))
                      (mul (sub (of_Z 110) (of_Z 10)) (DetectionViewer.scaleX v))
                      (mul (sub (of_Z 220) (of_Z 20)) (DetectionViewer.scaleY v))].
Proof.
  intros measureText box det v.
  split; [now vm_compute|].
  exact (null_track_id_never_violation measureText v det eq_refl).
Defined.

End ViewerInstances.

(** ** Zones with too few points *)

Section ShortZones.
Import Js Canvas.

Lemma viewer_draw_zone_short (v : DetectionViewer.props) (zone : ZonePolygon.t) :
  (length (ZonePolygon.points zone) < 3)%nat ->
  DetectionViewer.draw_zone v zone = Ok [].
Proof.
  intros H. unfold DetectionViewer.draw_zone.
  now rewrite (proj2 (Nat.ltb_lt _ _) H).
Qed.

Lemma editor_draw_zone_short (e : PolygonEditor.props) (zone : ZonePolygon.t) :
  (length (ZonePolygon.points zone) < 3)%nat ->
  PolygonEditor.draw_zone e zone = Ok [].
Proof.
  intros H. unfold PolygonEditor.draw_zone.
  now rewrite (proj2 (Nat.ltb_lt _ _) H).
Qed.

Lemma find_skip {A} (pred : A -> bool) (before after : list A) (a : A) :
  pred a = false ->
  find pred (before ++ a :: after) = find pred (before ++ after).
Proof.
  intros Ha. induction before as [|b before IH]; simpl.
  - now rewrite Ha.
  - now rewrite IH.
Qed.

(** The viewer's zone loop reads nothing but the zone at hand, so the
    zone list matters only through the loop itself. *)
Lemma viewer_draw_zone_same_dims
      (dets : list Detection.t) (viols : list ParkingViolation.t)
      (fw fh cw ch : option number) (sl sz sv : option bool)
      (zs zs' : list ZonePolygon.t) (zone : ZonePolygon.t) :
  DetectionViewer.draw_zone
    (DetectionViewer.mkProps dets zs viols fw fh cw ch sl sz sv) zone
  = DetectionViewer.draw_zone
      (DetectionViewer.mkProps dets zs' viols fw fh cw ch sl sz sv) zone.
Proof. reflexivity. Qed.

(** In the editor a stop line is painted after its linked light; the
    lookup is the only place where one zone's painting reads another. *)
Lemma editor_find_linked_skip
      (fw fh cw ch : option number) (ed : bool)
      (before after : list ZonePolygon.t) (short zone : ZonePolygon.t) :
  ZonePolygon.linked_traffic_light_id zone <> Some (ZonePolygon.id short) ->
  PolygonEditor.find_linked
    (PolygonEditor.mkProps (before ++ short :: after) fw fh cw ch ed) zone
  = PolygonEditor.find_linked
      (PolygonEditor.mkProps (before ++ after) fw fh cw ch ed) zone.
Proof.
  intros Hne. unfold PolygonEditor.find_linked. simpl.
  apply find_skip.
  destruct (ZonePolygon.linked_traffic_light_id zone) as [l|]; [|reflexivity].
  apply String.eqb_neq. congruence.
Qed.

Lemma editor_draw_zone_skip
      (fw fh cw ch : option number) (ed : bool)
      (before after : list ZonePolygon.t) (short zone : ZonePolygon.t) :
  (ZonePolygon.is_stop_line zone = true ->
   ZonePolygon.linked_traffic_light_id zone <> Some (ZonePolygon.id short)) ->
  PolygonEditor.draw_zone
    (PolygonEditor.mkProps (before ++ short :: after) fw fh cw ch ed) zone
  = PolygonEditor.draw_zone
      (PolygonEditor.mkProps (before ++ after) fw fh cw ch ed) zone.
Proof.
  intros Hlink.
  unfold PolygonEditor.draw_zone, PolygonEditor.getZoneColor,
    PolygonEditor.getZoneStrokeColor, PolygonEditor.zone_label,
    PolygonEditor.link_line.
  destruct (ZonePolygon.is_stop_line zone) eqn:Estop.
  - rewrite (editor_find_linked_skip fw fh cw ch ed before after short zone)
      by now apply Hlink.
    reflexivity.
  - reflexivity.
Qed.

(** C5, as the code has it.  A zone with fewer than 3 points makes neither
    repaint throw and contributes no drawing call of its own.  In the
    viewer the whole repaint is the one obtained without the short zone.
    In the editor the same holds as long as no stop line of the list is
    linked to the short zone: a stop line reads the colour, the status
    mark and the connector of its linked light from the zone list, short
    zones included. *)
Theorem short_zone_skipped
  (measureText : string -> string -> number) (Math_PI : number)
  (short : ZonePolygon.t) (before after : list ZonePolygon.t) :
  (length (ZonePolygon.points short) < 3)%nat ->
  (forall dets viols fw fh cw ch sl sz sv,
     let with_short :=
       DetectionViewer.mkProps dets (before ++ short :: after) viols
         fw fh cw ch sl sz sv in
     let without :=
       DetectionViewer.mkProps dets (before ++ after) viols
         fw fh cw ch sl sz sv in
     DetectionViewer.draw_zone with_short short = Ok []
     /\ (exists calls, DetectionViewer.draw measureText with_short = Ok calls)
     /\ DetectionViewer.draw measureText with_short
        = DetectionViewer.draw measureText without)
  /\ (forall fw fh cw ch ed st,
        let with_short :=
          PolygonEditor.mkProps (before ++ short :: after) fw fh cw ch ed in
        let without :=
          PolygonEditor.mkProps (before ++ after) fw fh cw ch ed in
        PolygonEditor.draw_zone with_short short = Ok []
        /\ (exists calls, PolygonEditor.draw with_short Math_PI st = Ok calls)
        /\ ((forall z, In z (before ++ after) ->
               ZonePolygon.is_stop_line z = true ->
               ZonePolygon.linked_traffic_light_id z
               <> Some (ZonePolygon.id short)) ->
            PolygonEditor.draw with_short Math_PI st
            = PolygonEditor.draw without Math_PI st)).
Proof.
  intros Hshort. split.
  - intros dets viols fw fh cw ch sl sz sv with_short without.
    split; [now apply viewer_draw_zone_short|].
    split; [apply viewer_draw_total|].
    unfold DetectionViewer.draw. cbn [DetectionViewer.zones with_short without].
    assert (Hloop :
      for_of (before ++ short :: after) (DetectionViewer.draw_zone with_short)
      = for_of (before ++ after) (DetectionViewer.draw_zone without)).
    { rewrite for_of_skip by now apply viewer_draw_zone_short.
      reflexivity. }
    rewrite Hloop.
    replace (0 <? length (before ++ short :: after))%nat with true
      by (symmetry; apply Nat.ltb_lt; rewrite length_app; simpl; lia).
    destruct (before ++ after) as [|z zs] eqn:E; [|reflexivity].
    simpl. now rewrite andb_true_r, andb_false_r, Tauto.if_same.
  - intros fw fh cw ch ed st with_short without.
    split; [now apply editor_draw_zone_short|].
    split; [apply editor_draw_total|].
    intros Hlink.
    unfold PolygonEditor.draw. cbn [PolygonEditor.zones with_short without].
    rewrite for_of_skip by now apply editor_draw_zone_short.
    rewrite (for_of_ext (PolygonEditor.draw_zone with_short)
               (PolygonEditor.draw_zone without)).
    + reflexivity.
    + intros z Hz. apply editor_draw_zone_skip. now apply Hlink.
Qed.

End ShortZones.

Section ShortZoneInstances.
Import Js Canvas.

(** C5 at a two-point zone sitting between a traffic light and the stop
    line linked to that light. *)
Lemma short_zone_skipped_witness :
  let measureText := fun (_ text : string) => of_nat (7 * String.length text) in
  let tri (dx : Z) :=
    [Point.mk (of_Z dx) (of_Z 0); Point.mk (of_Z (dx + 40)) (of_Z 0);
     Point.mk (of_Z dx) (of_Z 30)] in
  let light :=
    ZonePolygon.mk "a" "Light" (tri 0%Z) false true true false None "#FFFF00" in
  let stop :=
    ZonePolygon.mk "b" "Stop" (tri 100%Z) false false false true (Some "a")
      "#FFFFFF" in
  let short :=
    ZonePolygon.mk "s" "s" [Point.mk (of_Z 1) (of_Z 1); Point.mk (of_Z 2) (of_Z 2)]
      false false false false None "" in
  let st := PolygonEditor.mkState [] "" PolygonEditor.normal "" in
  DetectionViewer.draw measureText
    (DetectionViewer.mkProps [] [light; short; stop] []
       None None None None None None None)
  = DetectionViewer.draw measureText
      (DetectionViewer.mkProps [] [light; stop] []
         None None None None None None None)
  /\ PolygonEditor.draw
       (PolygonEditor.mkProps [light; short; stop] None None None None false)
       (Fin (355 # 113)) st
     = PolygonEditor.draw
         (PolygonEditor.mkProps [light; stop] None None None None false)
         (Fin (355 # 113)) st.
Proof.
  intros measureText tri light stop short st.
  destruct (short_zone_skipped measureText (Fin (355 # 113)) short
              [light] [stop]) as [Hv He].
  - simpl. lia.
  - split.
    + exact (proj2 (proj2 (Hv [] [] None None None None None None None))).
    + apply (proj2 (proj2 (He None None None None false st))).
      intros z Hz Hstop. simpl in Hz.
      destruct Hz as [<-|[<-|[]]]; discriminate.
Defined.

(** C5 fails in the editor when the short zone is the light a stop line is
    linked to.  With the red two-point light ["L"] in the list, the stop
    line is filled red and a connector is drawn to the light; without it,
    the stop line is filled white and no connector is drawn. *)
Lemma short_linked_light_changes_stop_line :
  let light :=
    ZonePolygon.mk "L" "Light"
      [Point.mk (of_Z 0) (of_Z 0); Point.mk (of_Z 10) (of_Z 0)]
      false true true false None "#FFFF00" in
  let stop :=
    ZonePolygon.mk "S" "Stop"
      [Point.mk (of_Z 0) (of_Z 50); Point.mk (of_Z 100) (of_Z 50);
       Point.mk (of_Z 100) (of_Z 60)]
      false false false true (Some "L") "#FFFFFF" in
  let with_short :=
    PolygonEditor.mkProps [light; stop] (Some (of_Z 640)) (Some (of_Z 360))
      (Some (of_Z 640)) (Some (of_Z 360)) false in
  let without :=
    PolygonEditor.mkProps [stop] (Some (of_Z 640)) (Some (of_Z 360))
      (Some (of_Z 640)) (Some (of_Z 360)) false in
  let st := PolygonEditor.mkState [] "" PolygonEditor.normal "" in
  (length (ZonePolygon.points light) < 3)%nat
  /\ PolygonEditor.getZoneColor with_short stop = "rgba(255, 0, 0, 0.4)"
  /\ PolygonEditor.getZoneColor without stop = "rgba(255, 255, 255, 0.3)"
  /\ length (PolygonEditor.link_line with_short stop) = 8%nat
  /\ PolygonEditor.link_line without stop = []
  /\ PolygonEditor.draw_zone with_short stop
     <> PolygonEditor.draw_zone without stop
  /\ PolygonEditor.draw with_short (Fin (355 # 113)) st
     <> PolygonEditor.draw without (Fin (355 # 113)) st.
Proof.
  intros light stop with_short without st.
  split; [simpl; lia|].
  split; [reflexivity|].
  split; [reflexivity|].
  split; [reflexivity|].
  split; [reflexivity|].
  split.
  - intros H.
    apply (f_equal (fun r => match r with Ok l => length l | Throw _ => O end)) in H.
    vm_compute in H. discriminate.
  - intros H.
    apply (f_equal (fun r => match r with Ok l => length l | Throw _ => O end)) in H.
    vm_compute in H. discriminate.
Qed.

End ShortZoneInstances.

(** ** The zone editor *)

Section Editor.
Import Js.
Import PolygonEditor.

Lemma slice_drop_last {A} (init : list A) (last : A) :
  slice (init ++ [last]) 0 (-1) = init.
Proof.
  unfold slice, rel_index. rewrite length_app. simpl.
  replace (Z.to_nat (Z.max (Z.of_nat (length init + 1) + -1) 0))
    with (length init) by lia.
  rewrite Nat.sub_0_r, drop_0.
  apply take_app_length.
Qed.

(** C10 -- undo.  On a non-empty in-progress polygon, Undo removes the
    last placed point and nothing else: the earlier points, the pending
    name, role and link target stay as they were; on an empty one it
    leaves everything as it is. *)
Theorem handleUndo_removes_last_point
  (init : list Point.t) (last : Point.t)
  (name : string) (role : ZoneType) (link : string) :
  handleUndo (mkState (init ++ [last]) name role link)
  = mkState init name role link
  /\ handleUndo (mkState [] name role link) = mkState [] name role link.
Proof.
  unfold handleUndo. simpl. rewrite slice_drop_last. split; reflexivity.
Qed.

Lemma ZoneType_eqb_eq (a b : ZoneType) : ZoneType_eqb a b = true <-> a = b.
Proof. destruct a, b; simpl; split; intros H; congruence. Qed.

Lemma str_not_false (s : string) : str_not s = false <-> s <> "".
Proof. unfold str_not. apply String.eqb_neq. Qed.

(** The three outcomes of [handleSaveZone]. *)
Lemma handleSaveZone_too_few (e : props) (st : state) (generateId : string) :
  (length (currentPoints st) < 3)%nat ->
  handleSaveZone e st generateId = (st, []).
Proof.
  intros H. unfold handleSaveZone.
  now rewrite (proj2 (Nat.ltb_lt _ _) H).
Qed.

Lemma handleSaveZone_unlinked (e : props) (st : state) (generateId : string) :
  (3 <= length (currentPoints st))%nat ->
  zoneType st = stop_line -> linkedTrafficLightId st = "" ->
  handleSaveZone e st generateId
  = (st, [alert "Stop Line must be linked to a Traffic Light zone!"]).
Proof.
  intros H Hrole Hlink. unfold handleSaveZone.
  rewrite (proj2 (Nat.ltb_ge _ _) H), Hrole, Hlink. reflexivity.
Qed.

Lemma handleSaveZone_saves (e : props) (st : state) (generateId : string) :
  (3 <= length (currentPoints st))%nat ->
  (zoneType st = stop_line -> linkedTrafficLightId st <> "") ->
  exists zone,
    handleSaveZone e st generateId
    = (mkState [] "" normal "", [onZoneAdd zone; onEditingChange false])
    /\ ZonePolygon.id zone = generateId
    /\ ZonePolygon.points zone = currentPoints st
    /\ ZonePolygon.is_parking_zone zone = ZoneType_eqb (zoneType st) parking
    /\ ZonePolygon.is_traffic_light zone
       = ZoneType_eqb (zoneType st) traffic_light
    /\ ZonePolygon.is_stop_line zone = ZoneType_eqb (zoneType st) stop_line
    /\ ZonePolygon.is_red_light zone = false
    /\ ZonePolygon.linked_traffic_light_id zone
       = (if ZoneType_eqb (zoneType st) stop_line
          then Some (linkedTrafficLightId st) else None).
Proof.
  intros H Hlink. unfold handleSaveZone.
  rewrite (proj2 (Nat.ltb_ge _ _) H).
  assert (G : ZoneType_eqb (zoneType st) stop_line
              && str_not (linkedTrafficLightId st) = false).
  { destruct (ZoneType_eqb (zoneType st) stop_line) eqn:E; [|reflexivity].
    simpl. apply str_not_false, Hlink. now apply ZoneType_eqb_eq. }
  rewrite G. eexists. split; [reflexivity|]. repeat split; reflexivity.
Qed.

(** C4 -- validation on save.  A stop line without a link target, or a
    polygon of fewer than 3 points, leaves the Save button disabled, and
    [handleSaveZone] itself then leaves the in-progress points, name, role
    and link untouched and calls neither [onZoneAdd] nor anything that
    reaches the network.  A stop line with a non-empty link and at least 3
    points is handed to [onZoneAdd] with that link in
    [linked_traffic_light_id], and posted as such by the page. *)
Theorem save_zone_validation
  (cameraId : string) (e : props) (st : state) (generateId : string)
  (w : DetectionPage.world) :
  let saved := handleSaveZone e st generateId in
  let after := DetectionPage.editor_effects cameraId (snd saved) w in
  (zoneType st = stop_line -> linkedTrafficLightId st = "" ->
   save_disabled st = true
   /\ fst saved = st
   /\ (forall zone, ~ In (onZoneAdd zone) (snd saved))
   /\ DetectionPage.requests (DetectionPage.env after)
      = DetectionPage.requests (DetectionPage.env w))
  /\ ((length (currentPoints st) < 3)%nat ->
      save_disabled st = true
      /\ saved = (st, [])
      /\ DetectionPage.requests (DetectionPage.env after)
         = DetectionPage.requests (DetectionPage.env w))
  /\ (zoneType st = stop_line -> linkedTrafficLightId st <> "" ->
      (3 <= length (currentPoints st))%nat ->
      save_disabled st = false
      /\ exists zone,
           snd saved = [onZoneAdd zone; onEditingChange false]
           /\ ZonePolygon.is_stop_line zone = true
           /\ ZonePolygon.points zone = currentPoints st
           /\ ZonePolygon.linked_traffic_light_id zone
              = Some (linkedTrafficLightId st)
           /\ (cameraId <> "" ->
               DetectionPage.requests (DetectionPage.env after)
               = DetectionPage.requests (DetectionPage.env w)
                 ++ [DetectionPage.POST_zones_add cameraId zone])).
Proof.
  intros saved after. subst after saved. split; [|split].
  - intros Hrole Hlink.
    split.
    { unfold save_disabled. rewrite Hrole, Hlink. simpl. apply orb_true_r. }
    destruct (Nat.lt_ge_cases (length (currentPoints st)) 3) as [Hlt|Hge].
    + rewrite handleSaveZone_too_few by assumption. simpl.
      split; [reflexivity|]. split; [|reflexivity]. intros zone [].
    + rewrite handleSaveZone_unlinked by assumption. simpl.
      split; [reflexivity|]. split; [|reflexivity].
      intros zone [H|[]]. discriminate.
  - intros Hlt.
    split.
    { unfold save_disabled. now rewrite (proj2 (Nat.ltb_lt _ _) Hlt). }
    rewrite handleSaveZone_too_few by assumption. simpl.
    split; reflexivity.
  - intros Hrole Hlink Hge.
    split.
    { unfold save_disabled.
      rewrite (proj2 (Nat.ltb_ge _ _) Hge), Hrole. simpl.
      now apply str_not_false. }
    destruct (handleSaveZone_saves e st generateId Hge (fun _ => Hlink))
      as (zone & Hsave & _ & Hpts & _ & _ & Hstop & _ & Hlinked).
    rewrite Hrole in Hstop, Hlinked. simpl in Hstop, Hlinked.
    exists zone. rewrite Hsave. simpl.
    split; [reflexivity|]. split; [assumption|]. split; [assumption|].
    split; [assumption|].
    intros Hcam. unfold DetectionPage.handleZoneAdd.
    rewrite (proj2 (str_not_false cameraId) Hcam). reflexivity.
Qed.

(** C8 -- role invariant at creation.  A zone handed to [onZoneAdd] by the
    save operation has at most one of its three role flags set (none for
    a normal zone), carries a link exactly when it is a stop line, and is
    created with [is_red_light] false. *)
Theorem saved_zone_role_invariant
  (e : props) (st : state) (generateId : string) (zone : ZonePolygon.t) :
  In (onZoneAdd zone) (snd (handleSaveZone e st generateId)) ->
  (Nat.b2n (ZonePolygon.is_parking_zone zone)
   + Nat.b2n (ZonePolygon.is_traffic_light zone)
   + Nat.b2n (ZonePolygon.is_stop_line zone) <= 1)%nat
  /\ (zoneType st = normal ->
      ZonePolygon.is_parking_zone zone = false
      /\ ZonePolygon.is_traffic_light zone = false
      /\ ZonePolygon.is_stop_line zone = false)
  /\ (ZonePolygon.linked_traffic_light_id zone <> None
      <-> ZonePolygon.is_stop_line zone = true)
  /\ ZonePolygon.is_red_light zone = false.
Proof.
  intros Hin.
  destruct (Nat.lt_ge_cases (length (currentPoints st)) 3) as [Hlt|Hge].
  { rewrite handleSaveZone_too_few in Hin by assumption. destruct Hin. }
  destruct (zoneType st) eqn:Hrole;
    try (destruct (handleSaveZone_saves e st generateId Hge)
           as (z & Hsave & _ & _ & Hp & Ht & Hs & Hr & Hl);
         [rewrite Hrole; discriminate|];
         rewrite Hsave in Hin; simpl in Hin;
         destruct Hin as [Hin|[Hin|[]]]; [|discriminate];
         injection Hin as ->;
         rewrite Hrole in Hp, Ht, Hs, Hl; simpl in Hp, Ht, Hs, Hl;
         rewrite Hp, Ht, Hs, Hl, Hr; simpl;
         repeat split; try lia; try congruence; try discriminate).
  destruct (string_dec (linkedTrafficLightId st) "") as [Hempty|Hlink].
  - rewrite handleSaveZone_unlinked in Hin by assumption.
    simpl in Hin. destruct Hin as [Hin|[]]. discriminate.
  - destruct (handleSaveZone_saves e st generateId Hge (fun _ => Hlink))
      as (z & Hsave & _ & _ & Hp & Ht & Hs & Hr & Hl).
    rewrite Hsave in Hin. simpl in Hin.
    destruct Hin as [Hin|[Hin|[]]]; [|discriminate].
    injection Hin as ->.
    rewrite Hrole in Hp, Ht, Hs, Hl. simpl in Hp, Ht, Hs, Hl.
    rewrite Hp, Ht, Hs, Hl, Hr. simpl.
    repeat split; try lia; try congruence; try discriminate.
Qed.

End Editor.

Section EditorInstances.
Import Js.
Import PolygonEditor.

(** C4 at a triangle: once as a stop line without link, once cut down to
    two points, once as a stop line linked to the light ["zone_1_ab"]. *)
Lemma save_zone_validation_witness :
  let tri := [Point.mk (of_Z 0) (of_Z 0); Point.mk (of_Z 40) (of_Z 0);
              Point.mk (of_Z 0) (of_Z 30)] in
  let e := mkProps [] (Some (of_Z 1920)) (Some (of_Z 1080))
             (Some (of_Z 800)) (Some (of_Z 450)) true in
  let unlinked := mkState tri "Stop" stop_line "" in
  let two := mkState (take 2 tri) "Stop" normal "" in
  let linked := mkState tri "Stop" stop_line "zone_1_ab" in
  (save_disabled unlinked = true
   /\ fst (handleSaveZone e unlinked "zone_2_cd") = unlinked
   /\ snd (handleSaveZone e unlinked "zone_2_cd")
      = [alert "Stop Line must be linked to a Traffic Light zone!"])
  /\ handleSaveZone e two "zone_2_cd" = (two, [])
  /\ exists zone,
       snd (handleSaveZone e linked "zone_2_cd")
       = [onZoneAdd zone; onEditingChange false]
       /\ ZonePolygon.linked_traffic_light_id zone = Some "zone_1_ab"
       /\ DetectionPage.requests
            (DetectionPage.env
               (DetectionPage.editor_effects "cam7"
                  (snd (handleSaveZone e linked "zone_2_cd"))
                  DetectionPage.initial))
          = [DetectionPage.POST_zones_add "cam7" zone].
Proof.
  intros tri e unlinked two linked.
  split.
  { destruct (save_zone_validation "cam7" e unlinked "zone_2_cd"
                DetectionPage.initial) as [H _].
    destruct H as [Hd [Hs _]]; [reflexivity|reflexivity|].
    split; [exact Hd|]. split; [exact Hs|reflexivity]. }
  split.
  - destruct (save_zone_validation "cam7" e two "zone_2_cd" DetectionPage.initial)
      as [_ [H _]].
    apply H. simpl. lia.
  - destruct (save_zone_validation "cam7" e linked "zone_2_cd"
                DetectionPage.initial) as [_ [_ H]].
    destruct H as [_ (zone & Hs & _ & _ & Hl & Hr)];
      [reflexivity|discriminate|simpl; lia|].
    exists zone. split; [exact Hs|]. split; [exact Hl|].
    apply Hr. discriminate.
Defined.

(** C8 at a parking triangle. *)
Lemma saved_zone_role_invariant_witness :
  let tri := [Point.mk (of_Z 0) (of_Z 0); Point.mk (of_Z 40) (of_Z 0);
              Point.mk (of_Z 0) (of_Z 30)] in
  let e := mkProps [] None None None None true in
  let st := mkState tri "" parking "" in
  let zone :=
    ZonePolygon.mk "zone_1_ab" "Zone 1" tri true false false false None
      "#00FF00" in
  snd (handleSaveZone e st "zone_1_ab") = [onZoneAdd zone; onEditingChange false]
  /\ (Nat.b2n (ZonePolygon.is_parking_zone zone)
      + Nat.b2n (ZonePolygon.is_traffic_light zone)
      + Nat.b2n (ZonePolygon.is_stop_line zone) <= 1)%nat
  /\ (ZonePolygon.linked_traffic_light_id zone <> None
      <-> ZonePolygon.is_stop_line zone = true)
  /\ ZonePolygon.is_red_light zone = false.
Proof.
  intros tri e st zone.
  split; [reflexivity|].
  destruct (saved_zone_role_invariant e st "zone_1_ab" zone)
    as [H1 [_ [H2 H3]]].
  - simpl. now left.
  - split; [exact H1|]. split; [exact H2|exact H3].
Defined.

End EditorInstances.

(** ** The detection page *)

Section Page.
Import DetectionPage.

Variable cameraId cameraUrl : string.

(** C3, as the code has it.  Stopping detection closes the socket held in
    [wsRef] and clears the interval held in [detectIntervalRef], empties
    both refs, resets the detection result and the synced frame to
    [null], unmounts the overlay and puts the raw video element (stream
    camera) or the snapshot image (other cameras) back on screen.  The
    violation list is not among the cells it resets: it stays as the last
    detection result left it. *)
Theorem toggle_off_clears_detection (urlWithT : string) (w : world) :
  isDetecting (page w) = true ->
  isEditing (page w) = false ->
  let w' := click_toggle cameraId cameraUrl urlWithT w in
  isDetecting (page w') = false
  /\ (forall ws, wsRef (page w) = Some ws ->
        sockets (env w') !! ws = Some CLOSED)
  /\ wsRef (page w') = None
  /\ (forall t, detectIntervalRef (page w) = Some t ->
        t ∉ intervals (env w'))
  /\ detectIntervalRef (page w') = None
  /\ result (page w') = None
  /\ syncedFrame (page w') = None
  /\ viewer_mounted w' = false
  /\ displayed cameraUrl w'
     = (if isM3u8 cameraUrl then video_element else snapshot_img)
  /\ violations (page w') = violations (page w).
Proof.
  destruct w as [[det ed dbg res viols zs fs sf wsr dir] [socks out ivs reqs cons]].
  simpl. intros -> ->.
  unfold click_toggle, displayed. simpl.
  destruct wsr as [ws|], dir as [t|]; simpl;
    (split; [reflexivity|]);
    (split; [intros ws' E;
             first [discriminate E
                   | replace ws' with ws by congruence;
                     simpl; apply lookup_insert_eq]
            | ]);
    (split; [reflexivity|]);
    (split; [intros t' E;
             first [discriminate E
                   | replace t' with t by congruence; simpl;
                     intros H; apply elem_of_difference in H as [_ H];
                     apply H; now apply elem_of_singleton]
            | ]);
    (split; [reflexivity|]);
    (split; [reflexivity|]);
    (split; [reflexivity|]);
    (split; [reflexivity|]);
    (split; [now destruct (isM3u8 cameraUrl)|reflexivity]).
Qed.

End Page.

Section Stream.
Import DetectionPage.

Variable cameraUrl : string.
Variable toString : Js.number -> string.




End Stream.

Section PageInstances.
Import DetectionPage.

(** A session on a stream camera: detection is started, the socket opens,
    and one detection result arrives with a violation and a frame. *)
Let url : string := "https://cam.example/live/index.M3U8".
Let cam : string := "cam7".
Let render : Js.number -> string := Js.toFixed0.
Let box : BoundingBox.t :=
  BoundingBox.mk (Js.of_Z 100) (Js.of_Z 100) (Js.of_Z 300) (Js.of_Z 300).
Let viol : ParkingViolation.t :=
  ParkingViolation.mk (Some 7%Z) "car" "zone_1_ab" "Kerb" (Js.of_Z 95) box.
Let res : DetectionResult.t :=
  DetectionResult.mk [Detection.mk box "car" 2 (Js.Fin (9 # 10)) (Some 7%Z)]
    ∅ (Js.of_Z 1) (Js.of_Z 1280) (Js.of_Z 720) (Js.of_Z 31).
Let msg : WsMessage.t :=
  WsMessage.mk "detection_result" (Some res) (Some [viol])
    (Some "data:image/jpeg;base64,AAAA") None.
Let started : world := click_toggle cam url "" initial.
Let opened : world := ws_opened url 0 started.
Let streaming : world := ws_received render 0 (Some msg) opened.

(** The same on a snapshot camera: the first request is out and the
    3-second interval is armed. *)
Let polling : world := click_toggle cam "https://cam.example/shot.jpg" "u1" initial.

(** C3 on both sessions. *)
Lemma toggle_off_clears_detection_witness :
  (let w' := click_toggle cam url "" streaming in
   displayed url streaming = synced_img "data:image/jpeg;base64,AAAA"
   /\ sockets (env w') !! 0%nat = Some CLOSED
   /\ result (page w') = None
   /\ syncedFrame (page w') = None
   /\ displayed url w' = video_element)
  /\ (let w' := click_toggle cam "https://cam.example/shot.jpg" "u2" polling in
      (1%positive ∈ intervals (env polling))
      /\ (1%positive ∉ intervals (env w'))
      /\ displayed "https://cam.example/shot.jpg" w' = snapshot_img).
Proof.
  split.
  - destruct (toggle_off_clears_detection cam url "" streaming)
      as (_ & Hs & _ & _ & _ & Hr & Hf & _ & Hd & _);
      [reflexivity|reflexivity|].
    split; [reflexivity|]. split; [now apply Hs|].
    split; [exact Hr|]. split; [exact Hf|exact Hd].
  - destruct (toggle_off_clears_detection cam "https://cam.example/shot.jpg"
                "u2" polling)
      as (_ & _ & _ & Ht & _ & _ & _ & _ & Hd & _);
      [reflexivity|reflexivity|].
    split; [now vm_compute|]. split; [now apply Ht|exact Hd].
Defined.

(** C3 fails on the violation list: the session above ends with detection
    stopped, the result cleared, and the violation of track 7 still in
    the page state. *)
Lemma toggle_off_keeps_violations :
  let w' := click_toggle cam url "" streaming in
  isDetecting (page streaming) = true
  /\ isDetecting (page w') = false
  /\ result (page w') = None
  /\ violations (page w') = [viol]
  /\ violations (page w') <> [].
Proof.
  split; [reflexivity|]. split; [reflexivity|]. split; [reflexivity|].
  split; [reflexivity|]. discriminate.
Qed.



End PageInstances.

(** * Further properties *)

(** ** Loops as maps *)

Section LoopShapes.
Import Js.

(** A loop whose body never throws is a [flat_map]. *)
Lemma for_of_flat_map {A B} (body : A -> result (list B)) (f : A -> list B)
      (arr : list A) :
  (forall a, In a arr -> body a = Ok (f a)) ->
  for_of arr body = Ok (flat_map f arr).
Proof.
  induction arr as [|a arr IH]; intros H; simpl; [reflexivity|].
  rewrite (H a) by now left.
  rewrite IH by (intros b Hb; apply H; now right).
  reflexivity.
Qed.

(** An index loop that reads [arr[i]] on its whole range visits a
    segment of the array, in order. *)
Lemma for_range_segment {A B} (arr : list A) (emit : A -> list B)
      (count lo : nat) :
  (lo + count <= length arr)%nat ->
  for_range lo count (fun i => let* x := at_index arr i in Ok (emit x))
  = Ok (flat_map emit (take count (drop lo arr))).
Proof.
  revert lo. induction count as [|n IH]; intros lo Hlen.
  - reflexivity.
  - cbn [for_range]. destruct (at_index_lt arr lo) as [a Ha]; [lia|].
    rewrite Ha. simpl. rewrite IH by lia. simpl.
    unfold at_index in Ha.
    destruct (arr !! lo) as [a'|] eqn:E; [|discriminate].
    injection Ha as ->.
    rewrite (drop_S arr a lo E). reflexivity.
Qed.

(** The edge loop of a polygon visits every point but the first. *)
Lemma edges_tail {B} (p0 : Point.t) (rest : list Point.t)
      (emit : Point.t -> list B) :
  for_range 1 (length (p0 :: rest) - 1)
    (fun i => let* pi := at_index (p0 :: rest) i in Ok (emit pi))
  = Ok (flat_map emit rest).
Proof.
  rewrite for_range_segment by (simpl; lia).
  simpl. rewrite Nat.sub_0_r, drop_0, take_ge by lia. reflexivity.
Qed.

End LoopShapes.

(** ** The viewer beyond untracked detections *)

Section ViewerMore.
Import Js Canvas.

Variable measureText : string -> string -> number.

Lemma find_first {A} (pred : A -> bool) (arr : list A) (a : A) :
  find pred arr = Some a ->
  exists before after,
    arr = before ++ a :: after /\ pred a = true
    /\ forall x, In x before -> pred x = false.
Proof.
  induction arr as [|b arr IH]; simpl; [discriminate|].
  destruct (pred b) eqn:E.
  - intros [= ->]. exists [], arr. repeat split; [assumption|]. intros x [].
  - intros H. destruct (IH H) as (before & after & -> & Ha & Hb).
    exists (b :: before), after. repeat split; [assumption|].
    intros x [<-|Hx]; [assumption|now apply Hb].
Qed.

Lemma find_some_match {A} (pred : A -> bool) (arr : list A) (x : A) :
  In x arr -> pred x = true -> exists a, find pred arr = Some a.
Proof.
  induction arr as [|b arr IH]; simpl; [contradiction|].
  intros Hin Hx. destruct (pred b) eqn:E; [now eexists|].
  destruct Hin as [->|Hin]; [congruence|now apply IH].
Qed.

Lemma has_track_id (v : DetectionViewer.props) (o : option Z) :
  o ∈ DetectionViewer.violationTrackIds v
  <-> exists viol, In viol (DetectionViewer.violations v)
                   /\ ParkingViolation.track_id viol = o.
Proof.
  unfold DetectionViewer.violationTrackIds.
  rewrite elem_of_list_to_set, list_elem_of_In, in_map_iff.
  split; intros (viol & H1 & H2); exists viol; tauto.
Qed.

Lemma isViolation_true (v : DetectionViewer.props) (det : Detection.t) :
  DetectionViewer.isViolation v det = true
  <-> DetectionViewer.flag (DetectionViewer.showViolations v) = true
      /\ exists t viol,
           Detection.track_id det = Some t
           /\ In viol (DetectionViewer.violations v)
           /\ ParkingViolation.track_id viol = Some t.
Proof.
  unfold DetectionViewer.isViolation.
  rewrite !andb_true_iff, negb_true_iff, bool_decide_eq_false,
    bool_decide_eq_true, has_track_id.
  split.
  - intros [[Hs Hn] (viol & Hin & Ht)].
    split; [assumption|].
    destruct (Detection.track_id det) as [t|]; [|contradiction].
    now exists t, viol.
  - intros [Hs (t & viol & Ht & Hin & Hv)].
    rewrite Ht. repeat split; [assumption|discriminate|].
    now exists viol.
Qed.

(** X1 -- when a detection is a violation.  A detection is painted as a
    violation exactly when violations are shown, it has a track id, and
    some entry of the violation list has that track id.  It is then
    stroked in the violation colour with line width 4, and, labels being
    on, the callout under it shows the duration of the first entry of
    the list with that track id, which is always found. *)
Theorem violation_rendering (v : DetectionViewer.props) (det : Detection.t) :
  let box := Detection.bbox det in
  let x1 := mul (BoundingBox.x1 box) (DetectionViewer.scaleX v) in
  let y1 := mul (BoundingBox.y1 box) (DetectionViewer.scaleY v) in
  let h := mul (sub (BoundingBox.y2 box) (BoundingBox.y1 box))
               (DetectionViewer.scaleY v) in
  (DetectionViewer.isViolation v det = true
   <-> DetectionViewer.flag (DetectionViewer.showViolations v) = true
       /\ exists t viol,
            Detection.track_id det = Some t
            /\ In viol (DetectionViewer.violations v)
            /\ ParkingViolation.track_id viol = Some t)
  /\ (DetectionViewer.isViolation v det = true ->
      exists viol before after rest,
        DetectionViewer.violations v = before ++ viol :: after
        /\ ParkingViolation.track_id viol = Detection.track_id det
        /\ (forall x, In x before ->
              ParkingViolation.track_id x <> Detection.track_id det)
        /\ DetectionViewer.draw_detection measureText v det
           = Ok (set_strokeStyle DetectionViewer.VIOLATION_COLOR
                   :: set_lineWidth (of_Z 4) :: rest)
        /\ (DetectionViewer.flag (DetectionViewer.showLabels v) = true ->
            In (fillText
                  ("⚠ PARKING "
                     ^^ toFixed0 (ParkingViolation.duration_seconds viol)
                     ^^ "s")
                  (add x1 (of_Z 6)) (add (add y1 h) (of_Z 20)))
               rest)).
Proof.
  intros box x1 y1 h. split; [apply isViolation_true|].
  intros Hv.
  destruct (proj1 (isViolation_true v det) Hv) as [_ (t & viol0 & Ht & Hin & Hv0)].
  destruct (find_some_match
              (fun x => bool_decide (ParkingViolation.track_id x
                                     = Detection.track_id det))
              (DetectionViewer.violations v) viol0 Hin) as [viol Hfind].
  { apply bool_decide_eq_true. congruence. }
  destruct (find_first _ _ _ Hfind) as (before & after & Hsplit & Hm & Hb).
  apply bool_decide_eq_true in Hm.
  exists viol, before, after. eexists.
  split; [exact Hsplit|]. split; [exact Hm|].
  split.
  { intros x Hx. specialize (Hb x Hx).
    now apply bool_decide_eq_false in Hb. }
  unfold DetectionViewer.draw_detection. rewrite Hv.
  unfold DetectionViewer.getColor, DetectionViewer.callout.
  rewrite Hfind. cbn [app].
  split; [reflexivity|].
  intros Hl. rewrite Hl. subst x1 y1 h box.
  right. apply in_or_app. right. simpl. tauto.
Qed.

End ViewerMore.

(** ** What the zone and polygon loops paint *)

Section Paths.
Import Js Canvas CanvasChecks.

Lemma flat_map_single {A B} (f : A -> B) (l : list A) :
  flat_map (fun a => [f a]) l = map f l.
Proof. induction l as [|a l IH]; simpl; congruence. Qed.

Lemma first_point_read (p0 : Point.t) (rest : list Point.t) :
  at_index (p0 :: rest) 0 = Ok p0.
Proof. reflexivity. Qed.

(** X2 -- the path of a polygon.  For a zone of at least 3 points both
    repaints build one closed path: [moveTo] the first point, [lineTo]
    every other point in order, each scaled by [scaleX] and [scaleY],
    then [closePath].  The polygon being drawn in the editor gets the
    same walk left open, followed by one disc per point. *)
Theorem polygon_path_visits_points_in_order
  (v : DetectionViewer.props) (e : PolygonEditor.props) (Math_PI : number)
  (p0 : Point.t) (rest : list Point.t) :
  let to_v (pt : Point.t) :=
    lineTo (mul (Point.x pt) (DetectionViewer.scaleX v))
           (mul (Point.y pt) (DetectionViewer.scaleY v)) in
  let to_e (pt : Point.t) :=
    lineTo (mul (Point.x pt) (PolygonEditor.scaleX e))
           (mul (Point.y pt) (PolygonEditor.scaleY e)) in
  (forall zone,
     ZonePolygon.points zone = p0 :: rest -> (2 <= length rest)%nat ->
     (exists after,
        DetectionViewer.draw_zone v zone
        = Ok (beginPath
                :: moveTo (mul (Point.x p0) (DetectionViewer.scaleX v))
                          (mul (Point.y p0) (DetectionViewer.scaleY v))
                :: map to_v rest ++ closePath :: after))
     /\ (exists after,
           PolygonEditor.draw_zone e zone
           = Ok (beginPath
                   :: moveTo (mul (Point.x p0) (PolygonEditor.scaleX e))
                             (mul (Point.y p0) (PolygonEditor.scaleY e))
                   :: map to_e rest ++ closePath :: after)))
  /\ (forall st,
        PolygonEditor.isEditing e = true ->
        PolygonEditor.currentPoints st = p0 :: rest ->
        PolygonEditor.draw_current e Math_PI st
        = Ok (beginPath
                :: moveTo (mul (Point.x p0) (PolygonEditor.scaleX e))
                          (mul (Point.y p0) (PolygonEditor.scaleY e))
                :: map to_e rest
                ++ [set_strokeStyle (PolygonEditor.strokeColor st);
                    set_lineWidth (of_Z 3);
                    setLineDash [of_Z 8; of_Z 4];
                    stroke;
                    setLineDash []]
                ++ flat_map
                     (fun pt =>
                        [beginPath;
                         arc (mul (Point.x pt) (PolygonEditor.scaleX e))
                             (mul (Point.y pt) (PolygonEditor.scaleY e))
                             (of_Z 8) (of_Z 0) (mul Math_PI (of_Z 2));
                         set_fillStyle (PolygonEditor.strokeColor st);
                         fill;
                         set_strokeStyle "#FFFFFF";
                         set_lineWidth (of_Z 2);
                         stroke])
                     (p0 :: rest))).
Proof.
  intros to_v to_e.
  pose proof (edges_tail p0 rest (fun pt => [to_v pt])) as Hv.
  pose proof (edges_tail p0 rest (fun pt => [to_e pt])) as He.
  rewrite flat_map_single in Hv, He.
  subst to_v to_e. cbv beta in Hv, He.
  split.
  - intros zone Hpts Hlen. split.
    + unfold DetectionViewer.draw_zone. rewrite Hpts.
      replace (length (p0 :: rest) <? 3)%nat with false
        by (symmetry; apply Nat.ltb_ge; simpl; lia).
      rewrite first_point_read. cbn [bind].
      rewrite Hv. cbn [bind].
      eexists. reflexivity.
    + unfold PolygonEditor.draw_zone. rewrite Hpts.
      replace (length (p0 :: rest) <? 3)%nat with false
        by (symmetry; apply Nat.ltb_ge; simpl; lia).
      rewrite first_point_read. cbn [bind].
      rewrite He. cbn [bind].
      eexists. reflexivity.
  - intros st Hed Hpts.
    unfold PolygonEditor.draw_current. rewrite Hed, Hpts.
    change (0 <? length (p0 :: rest))%nat with true. cbn [andb].
    rewrite first_point_read. cbn [bind].
    rewrite He. cbn [bind].
    erewrite for_of_flat_map by (intros; reflexivity).
    cbn [bind]. reflexivity.
Qed.

End Paths.

(** ** Lists that are not empty *)

Section ListShapes.

Lemma nonempty_split {A} (l : list A) :
  (0 < length l)%nat -> exists a rest, l = a :: rest.
Proof. destruct l as [|a rest]; simpl; [lia|]. intros _. now eexists _, _. Qed.

End ListShapes.

(** ** The editor's handlers together *)

Section EditorMore.
Import Js Canvas.
Import PolygonEditor.

(** X5 -- click and undo.  While editing, a click on the canvas appends
    exactly one point, the click position mapped to frame space, and
    Undo right after it gives back the state before the click; outside
    editing a click changes nothing. *)
Theorem click_appends_and_undo_reverts
  (e : props) (st : state) (clientX clientY : number) (rect : DOMRect) :
  (isEditing e = true ->
   currentPoints (handleCanvasClick e st clientX clientY rect)
   = currentPoints st ++ [toFrameCoords e clientX clientY rect]
   /\ handleUndo (handleCanvasClick e st clientX clientY rect) = st)
  /\ (isEditing e = false ->
      handleCanvasClick e st clientX clientY rect = st).
Proof.
  unfold handleCanvasClick. split; intros ->; simpl; [|reflexivity].
  split; [reflexivity|].
  unfold handleUndo. simpl. rewrite slice_drop_last. now destruct st.
Qed.

Lemma default_name_nonempty (name : string) (n : nat) :
  str_or name ("Zone " ^^ pretty n) <> "".
Proof.
  unfold str_or. destruct (String.eqb name "") eqn:E.
  - discriminate.
  - now apply String.eqb_neq.
Qed.

Lemma palette_color (n : nat) :
  In (nth (n mod length ZONE_COLORS) ZONE_COLORS "") ZONE_COLORS.
Proof.
  apply nth_In. apply Nat.mod_upper_bound. discriminate.
Qed.

(** X6 -- a saved zone is complete and gets painted.  The zone handed to
    [onZoneAdd] has the placed points (at least 3), a non-empty name (the
    typed one, or "Zone n" for the next free number), and a colour that
    is yellow for a traffic light, white for a stop line and otherwise
    taken from the six-colour palette by the number of zones; so neither
    repaint skips it. *)
Theorem saved_zone_is_complete_and_painted
  (e : props) (st : state) (generateId : string) (zone : ZonePolygon.t)
  (v : DetectionViewer.props) (e' : props) :
  In (onZoneAdd zone) (snd (handleSaveZone e st generateId)) ->
  ZonePolygon.points zone = currentPoints st
  /\ (3 <= length (ZonePolygon.points zone))%nat
  /\ ZonePolygon.name zone <> ""
  /\ (ZonePolygon.name zone = zoneName st
      \/ (zoneName st = ""
          /\ ZonePolygon.name zone
             = "Zone " ^^ pretty (length (zones e) + 1)%nat))
  /\ ZonePolygon.color zone
     = match zoneType st with
       | traffic_light => "#FFFF00"
       | stop_line => "#FFFFFF"
       | _ => nth (length (zones e) mod 6) ZONE_COLORS ""
       end
  /\ In (ZonePolygon.color zone) ("#FFFF00" :: "#FFFFFF" :: ZONE_COLORS)
  /\ (exists out, DetectionViewer.draw_zone v zone = Ok (beginPath :: out))
  /\ (exists out, draw_zone e' zone = Ok (beginPath :: out)).
Proof.
  intros Hin.
  unfold handleSaveZone in Hin.
  destruct (length (currentPoints st) <? 3)%nat eqn:Elen; [destruct Hin|].
  apply Nat.ltb_ge in Elen.
  destruct (ZoneType_eqb (zoneType st) stop_line
            && str_not (linkedTrafficLightId st)).
  { simpl in Hin. destruct Hin as [Hin|[]]. discriminate. }
  simpl in Hin. destruct Hin as [Hin|[Hin|[]]]; [|discriminate].
  injection Hin as <-. cbn [ZonePolygon.points ZonePolygon.name ZonePolygon.color].
  split; [reflexivity|]. split; [assumption|].
  split; [apply default_name_nonempty|].
  split.
  { unfold str_or. destruct (String.eqb (zoneName st) "") eqn:E.
    - right. split; [now apply String.eqb_eq|reflexivity].
    - now left. }
  split; [now destruct (zoneType st)|].
  split.
  { pose proof (palette_color (length (zones e))) as Hc.
    destruct (zoneType st); simpl; auto. }
  destruct (nonempty_split (currentPoints st)) as (p0 & rest & Hpts); [lia|].
  split.
  - unfold DetectionViewer.draw_zone.
    cbn [ZonePolygon.points]. rewrite (proj2 (Nat.ltb_ge _ _) Elen), Hpts.
    rewrite first_point_read. cbn [bind].
    destruct (edges_total (p0 :: rest)
                (fun pi => [lineTo (mul (Point.x pi) (DetectionViewer.scaleX v))
                                   (mul (Point.y pi) (DetectionViewer.scaleY v))]))
      as [edges He].
    rewrite He. cbn [bind]. eexists. reflexivity.
  - unfold draw_zone.
    cbn [ZonePolygon.points]. rewrite (proj2 (Nat.ltb_ge _ _) Elen), Hpts.
    rewrite first_point_read. cbn [bind].
    destruct (edges_total (p0 :: rest)
                (fun pj => [lineTo (mul (Point.x pj) (scaleX e'))
                                   (mul (Point.y pj) (scaleY e'))]))
      as [edges He].
    rewrite He. cbn [bind]. eexists. reflexivity.
Qed.

End EditorMore.

(** ** Editing sessions *)

Section EditorSessions.
Import Js.
Import PolygonEditor EditorControls.

Variable zone_list : list ZonePolygon.t.
Variables fw fh cw ch : option number.

(** A link target is the empty choice or the id of a traffic light. *)
Let offered (link : string) : Prop :=
  link = ""
  \/ exists light, In light zone_list
                   /\ ZonePolygon.is_traffic_light light = true
                   /\ ZonePolygon.id light = link.

Let well_linked (zone : ZonePolygon.t) : Prop :=
  (3 <= length (ZonePolygon.points zone))%nat
  /\ (ZonePolygon.is_stop_line zone = true ->
      exists light, In light zone_list
                    /\ ZonePolygon.is_traffic_light light = true
                    /\ ZonePolygon.linked_traffic_light_id zone
                       = Some (ZonePolygon.id light))
  /\ (ZonePolygon.is_stop_line zone = false ->
      ZonePolygon.linked_traffic_light_id zone = None).

Let session_ok (s : bool * state * list effect) : Prop :=
  let '(editing, st, log) := s in
  (editing = false -> st = initial)
  /\ (zoneType st <> stop_line -> linkedTrafficLightId st = "")
  /\ offered (linkedTrafficLightId st)
  /\ (forall zone, In (onZoneAdd zone) log -> well_linked zone).

Lemma option_offered (value : string) :
  existsb (String.eqb value) (link_options (props_of zone_list fw fh cw ch true))
  = true ->
  offered value.
Proof.
  intros H. apply existsb_exists in H as (o & Ho & Heq).
  apply String.eqb_eq in Heq. subst o.
  destruct Ho as [<-|Ho]; [now left|]. right.
  apply in_map_iff in Ho as (light & <- & Hl).
  apply filter_In in Hl as [Hin Ht]. now exists light.
Qed.

Lemma session_step_ok (s : bool * state * list effect) (ev : event) :
  session_ok s -> session_ok (step zone_list fw fh cw ch s ev).
Proof.
  destruct s as [[editing st] log].
  intros (Hidle & Hrole & Hoff & Hlog).
  assert (Hkeep : forall es, (forall zone, ~ In (onZoneAdd zone) es) ->
            forall zone, In (onZoneAdd zone) (log ++ es) -> well_linked zone).
  { intros es Hes zone Hin. apply in_app_or in Hin as [Hin|Hin];
      [now apply Hlog|now apply Hes in Hin]. }
  assert (Hsame : session_ok (editing, st, log ++ [])).
  { rewrite app_nil_r. exact (conj Hidle (conj Hrole (conj Hoff Hlog))). }
  destruct ev; unfold step, dispatch; cbn [isEditing props_of].
  - (* add zone *)
    destruct editing; [exact Hsame|].
    cbn [editing_after fold_left].
    split; [discriminate|]. split; [assumption|]. split; [assumption|].
    apply Hkeep. intros zone [H|[]]. discriminate.
  - (* click *)
    unfold handleCanvasClick. cbn [isEditing props_of].
    destruct editing; [|exact Hsame].
    cbn [negb editing_after fold_left].
    rewrite app_nil_r.
    split; [discriminate|]. split; [assumption|]. split; assumption.
  - (* undo *)
    destruct (editing && negb (length (currentPoints st) =? 0)%nat) eqn:E;
      [|exact Hsame].
    apply andb_true_iff in E as [-> _].
    cbn [editing_after fold_left]. rewrite app_nil_r.
    split; [discriminate|]. split; [assumption|]. split; assumption.
  - (* save *)
    destruct (editing && negb (save_disabled st)) eqn:E; [|exact Hsame].
    apply andb_true_iff in E as [-> E]. apply negb_true_iff in E.
    unfold save_disabled in E. apply orb_false_iff in E as [Elen Elink].
    unfold handleSaveZone. rewrite Elen, Elink.
    cbn [editing_after fold_left].
    split; [reflexivity|]. split; [reflexivity|]. split; [now left|].
    intros zone Hin. apply in_app_or in Hin as [Hin|Hin]; [now apply Hlog|].
    destruct Hin as [Hin|[Hin|[]]]; [|discriminate].
    injection Hin as <-. unfold well_linked.
    cbn [ZonePolygon.points ZonePolygon.is_stop_line
         ZonePolygon.linked_traffic_light_id].
    apply Nat.ltb_ge in Elen. split; [assumption|].
    destruct (ZoneType_eqb (zoneType st) stop_line) eqn:Es.
    + split; [|discriminate]. intros _.
      simpl in Elink. apply str_not_false in Elink.
      destruct Hoff as [Hoff|(light & Hl1 & Hl2 & Hl3)]; [contradiction|].
      exists light. repeat split; [assumption..|]. now rewrite Hl3.
    + split; [discriminate|reflexivity].
  - (* cancel *)
    destruct editing; [|exact Hsame].
    unfold handleCancel. cbn [editing_after fold_left].
    split; [reflexivity|]. split; [reflexivity|]. split; [now left|].
    apply Hkeep. intros zone [H|[]]. discriminate.
  - (* name *)
    destruct editing; [|exact Hsame].
    cbn [editing_after fold_left]. rewrite app_nil_r.
    split; [discriminate|]. split; [assumption|]. split; assumption.
  - (* role *)
    destruct editing; [|exact Hsame].
    cbn [editing_after fold_left]. rewrite app_nil_r.
    split; [discriminate|].
    unfold select_zoneType.
    cbn [zoneType linkedTrafficLightId].
    split; [|split; [|assumption]].
    + intros Hv. destruct value; simpl; congruence.
    + destruct value; simpl; try (now left). assumption.
  - (* link *)
    destruct (editing && ZoneType_eqb (zoneType st) stop_line
              && existsb (String.eqb value)
                   (link_options (props_of zone_list fw fh cw ch editing))) eqn:E;
      [|exact Hsame].
    apply andb_true_iff in E as [E Eo]. apply andb_true_iff in E as [-> Es].
    cbn [editing_after fold_left]. rewrite app_nil_r.
    apply ZoneType_eqb_eq in Es.
    split; [discriminate|]. split; [simpl; congruence|].
    split; [now apply option_offered|assumption].
Qed.

Lemma session_run_ok (evs : list event) (s : bool * state * list effect) :
  session_ok s -> session_ok (fold_left (step zone_list fw fh cw ch) evs s).
Proof.
  revert s. induction evs as [|ev evs IH]; intros s Hs; simpl; [assumption|].
  apply IH, session_step_ok, Hs.
Qed.

(** X7 -- what an editing session keeps true.  Whatever the user does
    with the editor's controls, starting from the idle editor: outside
    editing the editor holds no points, name, role or link; a link
    target is set only under the stop-line role and is always one of the
    offered traffic lights; and every zone handed to [onZoneAdd] has at
    least 3 points and, if it is a stop line, the id of a traffic light
    of the zone list as its link (no link otherwise). *)
Theorem editing_session_invariant
  (evs : list event) (editing : bool) (st : state) (log : list effect) :
  run zone_list fw fh cw ch evs = (editing, st, log) ->
  (editing = false -> st = initial)
  /\ (zoneType st <> stop_line -> linkedTrafficLightId st = "")
  /\ (linkedTrafficLightId st = ""
      \/ exists light, In light zone_list
                       /\ ZonePolygon.is_traffic_light light = true
                       /\ ZonePolygon.id light = linkedTrafficLightId st)
  /\ (forall zone, In (onZoneAdd zone) log ->
        (3 <= length (ZonePolygon.points zone))%nat
        /\ (ZonePolygon.is_stop_line zone = true ->
            exists light, In light zone_list
                          /\ ZonePolygon.is_traffic_light light = true
                          /\ ZonePolygon.linked_traffic_light_id zone
                             = Some (ZonePolygon.id light))
        /\ (ZonePolygon.is_stop_line zone = false ->
            ZonePolygon.linked_traffic_light_id zone = None)).
Proof.
  intros Hrun.
  assert (H : session_ok (run zone_list fw fh cw ch evs)).
  { unfold run. apply session_run_ok.
    split; [reflexivity|]. split; [reflexivity|]. split; [now left|].
    intros zone []. }
  rewrite Hrun in H. exact H.
Qed.

End EditorSessions.

(** ** The transports of the detection page *)

Section Transports.
Import DetectionPage PageEvents.

Variable cameraId cameraUrl : string.
Variable toString : Js.number -> string.

(** Handlers that leave the detection flag, the two refs, the sockets and
    the intervals alone keep the transports owned. *)
Lemma owned_frame (rt : option positive) (w w' : world) :
  isDetecting (page w') = isDetecting (page w) ->
  wsRef (page w') = wsRef (page w) ->
  detectIntervalRef (page w') = detectIntervalRef (page w) ->
  sockets (env w') = sockets (env w) ->
  intervals (env w') = intervals (env w) ->
  owned cameraUrl rt w -> owned cameraUrl rt w'.
Proof.
  intros Hd Hw Ht Hs Hi H. unfold owned in *.
  rewrite Hd, Hw, Ht, Hs, Hi. exact H.
Qed.

Ltac branches :=
  repeat match goal with
         | |- context [match ?x with _ => _ end] => destruct x
         end.

Ltac framed w :=
  apply (owned_frame _ w); destruct w as [[] []]; simpl; branches; reflexivity.

Lemma onmessage_frame rt (data : option WsMessage.t) (w : world) :
  owned cameraUrl rt w -> owned cameraUrl rt (onmessage toString data w).
Proof. unfold onmessage. framed w. Qed.

Lemma detect_settled_frame rt (response : option DetectResponse.t)
      (message : string) (w : world) :
  owned cameraUrl rt w ->
  owned cameraUrl rt (detect_settled toString response message w).
Proof. unfold detect_settled. framed w. Qed.

Lemma editor_effect_frame rt (e : PolygonEditor.effect) (w : world) :
  owned cameraUrl rt w -> owned cameraUrl rt (editor_effect cameraId e w).
Proof.
  unfold editor_effect, handleZoneAdd, handleZoneDelete, handleZonesClear.
  framed w.
Qed.

(** Closing or opening the socket a live entry stands for. *)
Lemma owned_socket_change rt (ws : nat) (r : readyState) (w : world) :
  (r <> CLOSED -> exists r0, sockets (env w) !! ws = Some r0 /\ r0 <> CLOSED) ->
  owned cameraUrl rt w -> owned cameraUrl rt (set_socket ws r w).
Proof.
  intros Hlive (Hsock & Hint & Hrt & Hnone).
  split; [|split; [exact Hint|split; [exact Hrt|exact Hnone]]].
  intros ws' r'. destruct w as [pg [socks out ivs reqs cons]]. simpl in *.
  destruct (decide (ws = ws')) as [<-|Hne].
  - rewrite lookup_insert_eq. intros [= <-] Hr.
    destruct (Hlive Hr) as (r0 & H0 & Hr0). now apply (Hsock ws r0).
  - rewrite lookup_insert_ne by assumption. apply Hsock.
Qed.

(** After the cleanup of the detection effect no socket is live and the
    only interval left is the refresh interval. *)
Lemma cleanup_quiet rt (w : world) :
  owned cameraUrl rt w ->
  let w' := detection_cleanup w in
  (forall ws r, sockets (env w') !! ws = Some r -> r = CLOSED)
  /\ (forall t, t ∈ intervals (env w') ->
        isM3u8 cameraUrl = false /\ rt = Some t)
  /\ (isM3u8 cameraUrl = false ->
      exists t, rt = Some t /\ t ∈ intervals (env w'))
  /\ (forall t, detectIntervalRef (page w') = Some t -> rt <> Some t)
  /\ isDetecting (page w') = isDetecting (page w).
Proof.
  intros (Hsock & Hint & Hrt & Hnone).
  destruct w as [[det ed dbg res viols zs fs sf wsr dir]
                 [socks out ivs reqs cons]].
  unfold detection_cleanup. simpl in *.
  assert (Hs : forall ws r,
            match wsr with
            | Some ws0 => <[ws0 := CLOSED]> socks
            | None => socks
            end !! ws = Some r -> r = CLOSED).
  { intros ws r Hl.
    assert (Hr : r = CLOSED \/ r <> CLOSED)
      by (destruct r; [right|right|left]; congruence).
    destruct Hr as [|Hr]; [assumption|].
    exfalso. destruct wsr as [ws0|].
    - destruct (decide (ws0 = ws)) as [<-|Hne].
      + rewrite lookup_insert_eq in Hl. congruence.
      + rewrite lookup_insert_ne in Hl by assumption.
        destruct (Hsock ws r Hl Hr) as [H _]. congruence.
    - destruct (Hsock ws r Hl Hr) as [H _]. discriminate. }
  assert (Hd : forall t, dir = Some t -> rt <> Some t).
  { intros t Hdir Hrt'. destruct (isM3u8 cameraUrl) eqn:Em.
    - rewrite (Hnone eq_refl) in Hrt'. discriminate.
    - destruct (Hrt eq_refl) as (t' & H1 & _ & H3). congruence. }
  destruct wsr as [ws0|], dir as [t0|]; simpl;
    (split; [exact Hs|]); (split; [|split; [|split; [exact Hd|reflexivity]]]).
  all: try (intros t Ht;
            try (apply elem_of_difference in Ht as [Ht Hne];
                 rewrite elem_of_singleton in Hne);
            destruct (Hint t Ht) as [Hm [H|[H _]]];
            [now split|congruence]).
  all: intros Hm; destruct (Hrt Hm) as (t & H1 & H2 & H3);
    exists t; split; [assumption|];
    try (apply elem_of_difference; split; [assumption|];
         rewrite elem_of_singleton; congruence);
    assumption.
Qed.

Lemma click_toggle_owned rt (urlWithT : string) (w : world) :
  owned cameraUrl rt w ->
  owned cameraUrl rt (click_toggle cameraId cameraUrl urlWithT w).
Proof.
  intros Hw. unfold click_toggle.
  destruct (isEditing (page w)); [assumption|].
  assert (Hq : let w1 := detection_cleanup
                           (setIsDetecting (negb (isDetecting (page w))) w) in
               (forall ws r, sockets (env w1) !! ws = Some r -> r = CLOSED)
               /\ (forall t, t ∈ intervals (env w1) ->
                     isM3u8 cameraUrl = false /\ rt = Some t)
               /\ (isM3u8 cameraUrl = false ->
                   exists t, rt = Some t /\ t ∈ intervals (env w1))
               /\ (forall t, detectIntervalRef (page w1) = Some t ->
                     rt <> Some t)
               /\ isDetecting (page w1) = negb (isDetecting (page w))).
  { (* the flag plays no role in the cleanup *)
    destruct (cleanup_quiet rt w Hw) as (H1 & H2 & H3 & H4 & H5).
    destruct w as [[det ed dbg res viols zs fs sf wsr dir]
                   [socks out ivs reqs cons]].
    unfold detection_cleanup in *. simpl in *.
    destruct wsr, dir; simpl in *;
      (split; [exact H1|]); (split; [exact H2|]); (split; [exact H3|]);
      (split; [exact H4|reflexivity]). }
  set (w1 := detection_cleanup _) in *.
  destruct Hq as (Hclosed & Hleft & Hkept & Hstale & Hflag).
  destruct Hw as (_ & _ & _ & Hnone).
  unfold detection_effect, owned. rewrite Hflag.
  destruct (negb (isDetecting (page w))) eqn:Eon.
  - (* starting *)
    destruct (isM3u8 cameraUrl) eqn:Em.
    + split; [|split; [|split; [discriminate|intros _; now apply Hnone]]].
      * intros ws r. destruct w1 as [[] [socks out ivs reqs cons]]. simpl in *.
        destruct (decide (fresh (dom socks) = ws)) as [<-|Hne].
        -- rewrite lookup_insert_eq. intros [= <-] _. now repeat split.
        -- rewrite lookup_insert_ne by assumption.
           intros Hl Hr. apply Hclosed in Hl. contradiction.
      * intros t. destruct w1 as [[] []]. simpl in *.
        intros Ht. destruct (Hleft t Ht) as [H _]. discriminate.
    + split; [|split; [|split; [|discriminate]]].
      * intros ws r. unfold runDetectionForImage.
        destruct w1 as [[] []]. simpl in *.
        destruct (_ || _); simpl; intros Hl Hr; apply Hclosed in Hl;
          contradiction.
      * intros t. unfold runDetectionForImage.
        destruct w1 as [[] [socks out ivs reqs cons]]. simpl in *.
        destruct (_ || _); simpl; intros Ht; (split; [reflexivity|]);
          apply elem_of_union in Ht as [Ht|Ht];
          try (left; now apply (Hleft t Ht));
          apply elem_of_singleton in Ht; subst t; right; now split.
      * intros _. destruct (Hkept eq_refl) as (t & Ht1 & Ht2).
        exists t. split; [assumption|].
        unfold runDetectionForImage.
        destruct w1 as [[] [socks out ivs reqs cons]]. simpl in *.
        destruct (_ || _); simpl;
          (split; [apply elem_of_union_r; assumption|]);
          intros [= E]; apply (is_fresh ivs); rewrite E; assumption.
  - (* stopping *)
    split; [|split; [|split; [|exact Hnone]]].
    + intros ws r. destruct w1 as [[det ed dbg res viols zs fs sf wsr dir]
                                   [socks out ivs reqs cons]]. simpl in *.
      destruct wsr as [ws0|], dir as [t0|]; simpl; intros Hl Hr;
        try (destruct (decide (ws0 = ws)) as [<-|Hne];
             [rewrite lookup_insert_eq in Hl; congruence
             |rewrite lookup_insert_ne in Hl by assumption]);
        apply Hclosed in Hl; contradiction.
    + intros t. destruct w1 as [[det ed dbg res viols zs fs sf wsr dir]
                                [socks out ivs reqs cons]]. simpl in *.
      destruct wsr as [ws0|], dir as [t0|]; simpl; intros Ht;
        try (apply elem_of_difference in Ht as [Ht _]);
        destruct (Hleft t Ht) as [H1 H2]; (split; [assumption|now left]).
    + intros Hm. destruct (Hkept Hm) as (t & Ht1 & Ht2).
      exists t. split; [assumption|].
      destruct w1 as [[det ed dbg res viols zs fs sf wsr dir]
                      [socks out ivs reqs cons]]. simpl in *.
      destruct wsr as [ws0|], dir as [t0|]; simpl;
        (split; [|discriminate]);
        try (apply elem_of_difference; split; [assumption|];
             rewrite elem_of_singleton; intros ->;
             now apply (Hstale t0 eq_refl));
        assumption.
Qed.

Lemma dispatch_owned (ev : event) (m : mounted) :
  transports_owned cameraUrl m ->
  transports_owned cameraUrl (dispatch cameraId cameraUrl toString ev m).
Proof.
  unfold transports_owned. destruct m as [w rt ts].
  intros Hw. destruct ev; simpl in *.
  - now apply click_toggle_owned.
  - unfold ws_opened.
    destruct (sockets (env w) !! ws) as [[| |]|] eqn:E; try assumption.
    unfold onopen.
    assert (H1 : owned cameraUrl rt (set_socket ws OPEN w)).
    { apply owned_socket_change; [|assumption].
      intros _. exists CONNECTING. now split. }
    revert H1. generalize (set_socket ws OPEN w). intros w1 H1.
    apply (owned_frame rt w1); try assumption; now destruct w1 as [[] []].
  - unfold ws_received.
    destruct (sockets (env w) !! ws) as [[| |]|]; try assumption.
    now apply onmessage_frame.
  - unfold ws_failed.
    assert (H1 : owned cameraUrl rt (ws_close ws w)).
    { apply owned_socket_change; [|assumption]. now intros []. }
    destruct (sockets (env w) !! ws) as [[| |]|]; try assumption;
      revert H1; generalize (ws_close ws w); intros w1 H1;
      apply (owned_frame rt w1); try assumption; now destruct w1 as [[] []].
  - unfold interval_ticked. simpl.
    destruct (bool_decide (rt = Some t)).
    + destruct (bool_decide _); assumption.
    + unfold on_cells, interval_fired, runDetectionForImage. simpl.
      destruct (bool_decide _); [|assumption].
      destruct (_ || _); [assumption|].
      apply (owned_frame rt w); try assumption; now destruct w as [[] []].
  - now apply detect_settled_frame.
  - now apply editor_effect_frame.
  - unfold zones_settled. destruct success; [|assumption].
    apply (owned_frame rt w); try assumption; now destruct w as [[] []].
  - unfold zones_cleared.
    apply (owned_frame rt w); try assumption; now destruct w as [[] []].
  - unfold zones_loaded.
    apply (owned_frame rt w); try assumption; now destruct w as [[] []].
  - unfold zones_load_failed.
    apply (owned_frame rt w); try assumption; now destruct w as [[] []].
  - unfold handleVideoLoad.
    apply (owned_frame rt w); try assumption; now destruct w as [[] []].
  - unfold handleImageLoad.
    apply (owned_frame rt w); try assumption; now destruct w as [[] []].
Qed.

Lemma mount_owned (now : Z) :
  transports_owned cameraUrl (mount cameraId cameraUrl now).
Proof.
  unfold transports_owned, mount, refresh_effect, zones_effect.
  destruct (isM3u8 cameraUrl) eqn:Em; destruct (Js.str_not cameraId);
    cbn; unfold owned; rewrite Em; cbn;
    (split; [intros ws r Hl; now rewrite lookup_empty in Hl|]).
  1,2: split; [intros t Ht; now apply not_elem_of_empty in Ht|];
       split; [discriminate|reflexivity].
  all: split; [intros t Ht; split; [reflexivity|left];
               apply elem_of_union in Ht as [Ht|Ht];
               [apply elem_of_singleton in Ht; now subst t
               |now apply not_elem_of_empty in Ht]|];
       split; [|discriminate];
       intros _; eexists; split; [reflexivity|];
       split; [apply elem_of_union_l, elem_of_singleton; reflexivity
              |discriminate].
Qed.

(** Clearing another interval first changes nothing else in what the
    cleanup of the detection effect leaves. *)
Lemma cleanup_after_clear (t : positive) (w : world) :
  let w' := detection_cleanup (clearInterval t w) in
  sockets (env w') = sockets (env (detection_cleanup w))
  /\ forall x, x ∈ intervals (env w') ->
       x ∈ intervals (env (detection_cleanup w)) /\ x <> t.
Proof.
  destruct w as [[det ed dbg res viols zs fs sf wsr dir]
                 [socks out ivs reqs cons]].
  unfold detection_cleanup, clearInterval. simpl.
  destruct wsr as [ws0|], dir as [t0|]; simpl;
    (split; [reflexivity|]); intros x Hx;
    repeat (apply elem_of_difference in Hx as [Hx ?]);
    (split; [|now rewrite elem_of_singleton in *]);
    try (apply elem_of_difference; split);
    assumption.
Qed.

Lemma run_owned (evs : list event) (m : mounted) :
  transports_owned cameraUrl m ->
  transports_owned cameraUrl (run cameraId cameraUrl toString evs m).
Proof.
  unfold run. revert m.
  induction evs as [|ev evs IH]; intros m Hm; simpl; [assumption|].
  apply IH, dispatch_owned, Hm.
Qed.

(** X8 -- the transports of the page have one owner each.  Whatever
    sequence of clicks, socket events, timer ticks, responses, media
    loads and editor callbacks the mounted page goes through, every
    socket that is not closed is the one in [wsRef] and exists only
    while detection is on, on a stream camera; every armed interval
    belongs to a snapshot camera and is either the refresh interval
    armed at the mount, which stays armed and is never the one in
    [detectIntervalRef], or the one in [detectIntervalRef], armed only
    while detection is on; a stream camera has no refresh interval.  So
    stopping detection leaves only the refresh interval running,
    starting it again never leaks the previous transport, and leaving
    the page closes every socket and clears every interval. *)
Theorem transports_always_owned (now : Z) (evs : list event) :
  let m := run cameraId cameraUrl toString evs (mount cameraId cameraUrl now) in
  transports_owned cameraUrl m
  /\ nothing_running (unmount m).
Proof.
  intros m.
  assert (Hm : transports_owned cameraUrl m)
    by apply run_owned, mount_owned.
  split; [exact Hm|].
  unfold transports_owned in Hm. unfold unmount.
  destruct (cleanup_quiet _ _ Hm) as (Hs & Ht & Hk & _ & _).
  destruct (refreshInterval m) as [t0|].
  - destruct (cleanup_after_clear t0 (cells m)) as [Es Ei].
    split.
    + intros ws r. rewrite Es. apply Hs.
    + intros t Hin. destruct (Ei t Hin) as [Hin' Hne].
      destruct (Ht t Hin') as [_ [= ->]]. now apply Hne.
  - split; [exact Hs|].
    intros t Hin. destruct (Ht t Hin) as [_ H]. discriminate.
Qed.

End Transports.

(** ** Failures, malformed messages and late responses *)

Section PageFailures.
Import DetectionPage PageEvents PageChecks.

Variable cameraId cameraUrl : string.
Variable toString : Js.number -> string.


(** X10 -- a detection result without its [result].  Such a message is
    caught like a parse failure, but only after the first two setters
    have run: the current result is reset and the violation list is
    replaced, which unmounts the overlay, while the frame size, the
    synced frame and the status line are kept; a message of any other
    unknown type changes nothing at all. *)
Theorem message_without_result (d : WsMessage.t) (w : world) :
  (WsMessage.type d = "detection_result" ->
   WsMessage.result d = None ->
   let w' := onmessage toString (Some d) w in
   result (page w') = None
   /\ violations (page w') = default [] (WsMessage.violations d)
   /\ frameSize (page w') = frameSize (page w)
   /\ syncedFrame (page w') = syncedFrame (page w)
   /\ debugInfo (page w') = debugInfo (page w)
   /\ console (env w') = console (env w) ++ ["WS message parse error:"]
   /\ viewer_mounted w' = false)
  /\ (WsMessage.type d <> "detection_result" ->
      WsMessage.type d <> "connected" ->
      WsMessage.type d <> "error" ->
      onmessage toString (Some d) w = w).
Proof.
  split.
  - intros Hty Hres. unfold onmessage. rewrite Hty, Hres.
    destruct w as [[] []]. simpl.
    repeat split; try reflexivity.
    unfold viewer_mounted. simpl. now rewrite andb_false_r.
  - intros H1 H2 H3. unfold onmessage.
    now rewrite (proj2 (String.eqb_neq _ _) H1),
      (proj2 (String.eqb_neq _ _) H2), (proj2 (String.eqb_neq _ _) H3).
Qed.

(** X11 -- a response that comes too late.  A detect response that
    settles after detection was stopped is applied all the same: the
    result, the violations and the frame size it carries enter the page
    state although detection is off.  The overlay stays unmounted and
    the raw media element stays on screen. *)
Theorem late_response_is_applied
  (urlWithT message : string) (r : DetectResponse.t) (res : DetectionResult.t)
  (w : world) :
  isDetecting (page w) = true ->
  isEditing (page w) = false ->
  DetectResponse.success r = true ->
  DetectResponse.result r = Some res ->
  let stopped := click_toggle cameraId cameraUrl urlWithT w in
  let w' := detect_settled toString (Some r) message stopped in
  result (page stopped) = None
  /\ isDetecting (page w') = false
  /\ result (page w') = Some res
  /\ violations (page w') = default [] (DetectResponse.violations r)
  /\ frameSize (page w')
     = mkSize (DetectionResult.frame_width res) (DetectionResult.frame_height res)
  /\ viewer_mounted w' = false
  /\ displayed cameraUrl w'
     = (if isM3u8 cameraUrl then video_element else snapshot_img).
Proof.
  destruct w as [[det ed dbg res0 viols zs fs sf wsr dir]
                 [socks out ivs reqs cons]].
  simpl. intros -> -> Hs Hr.
  unfold click_toggle, detect_settled, displayed, viewer_mounted.
  rewrite Hs, Hr. simpl.
  destruct wsr, dir; simpl; repeat split; try reflexivity;
    now destruct (isM3u8 cameraUrl).
Qed.

End PageFailures.

(** ** Starting detection, and what is on screen *)

Section PageStart.
Import DetectionPage PageEvents.

Variable cameraId cameraUrl : string.



(** X13 -- overlay or synced frame, never both.  The backend-annotated
    frame is on screen exactly when the camera is a stream, detection is
    on and a non-empty synced frame is held; the overlay canvas of the
    viewer is mounted only while detecting, outside editing, with a
    result at hand, and never on top of a synced frame. *)
Theorem overlay_excludes_synced_frame (w : world) :
  (forall f,
     displayed cameraUrl w = synced_img f
     <-> isM3u8 cameraUrl = true /\ isDetecting (page w) = true
         /\ syncedFrame (page w) = Some f /\ f <> "")
  /\ (viewer_mounted w = true ->
      isDetecting (page w) = true /\ isEditing (page w) = false
      /\ is_Some (result (page w))
      /\ forall f, displayed cameraUrl w <> synced_img f).
Proof.
  unfold displayed, viewer_mounted, present, Js.str_not. split.
  - intros f. destruct (isM3u8 cameraUrl); [|split; [discriminate|now intros []]].
    destruct (syncedFrame (page w)) as [g|];
      [|split; [discriminate|intros (_ & _ & H & _); discriminate]].
    destruct (isDetecting (page w)); simpl;
      [|split; [discriminate|intros (_ & H & _); discriminate]].
    destruct (String.eqb g "") eqn:E; simpl.
    + apply String.eqb_eq in E. subst g.
      split; [discriminate|]. intros (_ & _ & [= <-] & H). contradiction.
    + apply String.eqb_neq in E.
      split; [intros [= <-]; now repeat split|].
      intros (_ & _ & [= <-] & _). reflexivity.
  - rewrite !andb_true_iff, !negb_true_iff, bool_decide_eq_true.
    intros [[[Hd Hr] He] Hs]. repeat split; try assumption.
    intros f. destruct (isM3u8 cameraUrl); [|discriminate].
    destruct (syncedFrame (page w)) as [g|]; [|discriminate].
    rewrite Hd. simpl. apply negb_false_iff in Hs. rewrite Hs. discriminate.
Qed.

End PageStart.

(** ** Zone requests *)

Section ZoneRequests.
Import DetectionPage PageEvents.

Variable cameraId : string.

Lemma editor_effect_zones (e : PolygonEditor.effect) (w : world) :
  zones (page (editor_effect cameraId e w)) = zones (page w)
  /\ (cameraId = "" ->
      requests (env (editor_effect cameraId e w)) = requests (env w)).
Proof.
  destruct w as [[] []].
  unfold editor_effect, handleZoneAdd, handleZoneDelete, handleZonesClear.
  destruct e; simpl; (split; [now destruct (Js.str_not cameraId)|]);
    intros ->; reflexivity.
Qed.

(** X14 -- no optimistic zone edits.  Whatever callbacks the editor
    fires, the page's zone list is left as it is: a callback at most
    issues a request (none at all under an empty camera id), and the
    list is replaced only when the response to an add or a delete
    reports success; a response without success changes nothing. *)
Theorem zone_list_changes_only_on_response
  (es : list PolygonEditor.effect) (w : world) :
  zones (page (editor_effects cameraId es w)) = zones (page w)
  /\ (cameraId = "" ->
      requests (env (editor_effects cameraId es w)) = requests (env w))
  /\ (forall zs, zones_settled false zs w = w)
  /\ (forall zs, zones (page (zones_settled true zs w)) = zs).
Proof.
  split; [|split; [|split]].
  - unfold editor_effects. revert w.
    induction es as [|e es IH]; intros w; simpl; [reflexivity|].
    rewrite IH. apply editor_effect_zones.
  - intros Hc. unfold editor_effects. revert w.
    induction es as [|e es IH]; intros w; simpl; [reflexivity|].
    rewrite IH. now apply editor_effect_zones.
  - reflexivity.
  - intros zs. now destruct w as [[] []].
Qed.

(** X15 -- updating a zone.  [handleZoneUpdate] replaces, in the list it
    posts, every zone carrying the id of the updated zone and no other:
    the sequence of ids and the length are kept, a zone with another id
    stays in place untouched, an unknown id leaves the list as it is (a
    zone is never added), and the page's own list is not touched before
    the request resolves. *)
Theorem zone_update_replaces_by_id
  (updatedZone : ZonePolygon.t) (zs : list ZonePolygon.t) :
  map ZonePolygon.id (replace_zone updatedZone zs) = map ZonePolygon.id zs
  /\ (forall i z, zs !! i = Some z ->
        ZonePolygon.id z <> ZonePolygon.id updatedZone ->
        replace_zone updatedZone zs !! i = Some z)
  /\ (forall i z, zs !! i = Some z ->
        ZonePolygon.id z = ZonePolygon.id updatedZone ->
        replace_zone updatedZone zs !! i = Some updatedZone)
  /\ ((forall z, In z zs -> ZonePolygon.id z <> ZonePolygon.id updatedZone) ->
      replace_zone updatedZone zs = zs)
  /\ (forall w,
        zones (page (handleZoneUpdate cameraId updatedZone w)) = zones (page w)
        /\ (cameraId <> "" ->
            requests (env (handleZoneUpdate cameraId updatedZone w))
            = requests (env w)
              ++ [POST_zones cameraId
                    (replace_zone updatedZone (zones (page w)))])).
Proof.
  unfold replace_zone. split; [|split; [|split; [|split]]].
  - induction zs as [|z zs' IH]; simpl; [reflexivity|].
    rewrite IH. f_equal.
    destruct (String.eqb _ _) eqn:E; [|reflexivity].
    symmetry. now apply String.eqb_eq.
  - intros i z Hz Hne. rewrite list_lookup_fmap, Hz. simpl.
    now rewrite (proj2 (String.eqb_neq _ _) Hne).
  - intros i z Hz Heq. rewrite list_lookup_fmap, Hz. simpl.
    now rewrite (proj2 (String.eqb_eq _ _) Heq).
  - intros Hne. induction zs as [|z zs' IH]; simpl; [reflexivity|].
    rewrite IH by (intros z' Hz'; apply Hne; now right).
    now rewrite (proj2 (String.eqb_neq _ _) (Hne z (or_introl eq_refl))).
  - intros w. destruct w as [[] []]. unfold handleZoneUpdate. simpl.
    split; [now destruct (Js.str_not cameraId)|].
    intros Hc. now rewrite (proj2 (str_not_false cameraId) Hc).
Qed.

End ZoneRequests.

(** ** Stream sniffing *)

Section Sniffing.
Import DetectionPage.

Lemma prefix_app (needle rest : string) :
  String.prefix needle (needle ^^ rest) = true.
Proof.
  induction needle as [|c needle IH]; simpl; [now destruct rest|].
  destruct (Ascii.ascii_dec c c); [assumption|contradiction].
Qed.

Lemma prefix_split (needle s : string) :
  String.prefix needle s = true -> exists rest, s = needle ^^ rest.
Proof.
  revert s. induction needle as [|c needle IH]; intros s H.
  - now exists s.
  - destruct s as [|d s]; simpl in H; [discriminate|].
    destruct (Ascii.ascii_dec c d) as [<-|]; [|discriminate].
    destruct (IH s H) as [rest ->]. now exists rest.
Qed.

Lemma includes_iff (needle s : string) :
  includes needle s = true <-> exists a b, s = a ^^ needle ^^ b.
Proof.
  split.
  - induction s as [|c s IH]; cbn [includes]; intros H;
      apply orb_true_iff in H as [H|H]; try discriminate.
    + destruct (prefix_split _ _ H) as [rest Hr]. now exists "", rest.
    + destruct (prefix_split _ _ H) as [rest Hr]. now exists "", rest.
    + destruct (IH H) as (a & b & ->). now exists (String c a), b.
  - intros (a & b & ->). induction a as [|c a IH].
    + change ("" ^^ needle ^^ b) with (needle ^^ b).
      destruct (needle ^^ b) eqn:E; cbn [includes];
        rewrite <- E, prefix_app; reflexivity.
    + change (String c a ^^ needle ^^ b) with (String c (a ^^ needle ^^ b)).
      cbn [includes]. rewrite IH. apply orb_true_r.
Qed.

Lemma toLowerCase_app (a b : string) :
  toLowerCase (a ^^ b) = toLowerCase a ^^ toLowerCase b.
Proof.
  induction a as [|c a IH]; [reflexivity|].
  change (String c a ^^ b) with (String c (a ^^ b)).
  cbn [toLowerCase].
  change (String (lower c) (toLowerCase a) ^^ toLowerCase b)
    with (String (lower c) (toLowerCase a ^^ toLowerCase b)).
  now rewrite IH.
Qed.

(** X16 -- what counts as a stream camera.  A camera URL is treated as
    a stream exactly when its lower-cased form contains [".m3u8"]: so
    the suffix is recognised in any letter case and anywhere in the URL
    (before a query string, say), and a URL without it is a snapshot
    camera. *)
Theorem m3u8_anywhere_any_case (url : string) :
  (isM3u8 url = true <-> exists a b, toLowerCase url = a ^^ ".m3u8" ^^ b)
  /\ (forall a ext b,
        url = a ^^ ext ^^ b -> toLowerCase ext = ".m3u8" -> isM3u8 url = true).
Proof.
  unfold isM3u8. split; [apply includes_iff|].
  intros a ext b -> Hext. apply includes_iff.
  exists (toLowerCase a), (toLowerCase b).
  now rewrite !toLowerCase_app, Hext.
Qed.

End Sniffing.

(** ** The dashboard's trend *)

Section Trend.
Import Js JsMath TrafficDashboard.
Local Open Scope Q_scope.

Lemma slice_from_last {A} (arr : list A) (n : nat) :
  slice_from arr (- Z.of_nat (S n)) = drop (length arr - S n) arr.
Proof.
  unfold slice_from, slice, rel_index.
  replace (- Z.of_nat (S n) <? 0)%Z with true by (symmetry; apply Z.ltb_lt; lia).
  replace (Z.of_nat (length arr) <? 0)%Z with false
    by (symmetry; apply Z.ltb_ge; lia).
  rewrite Nat2Z.id, Nat.min_id.
  replace (Z.to_nat (Z.max (Z.of_nat (length arr) + - Z.of_nat (S n)) 0))
    with (length arr - S n)%nat by lia.
  apply take_ge. rewrite length_drop. lia.
Qed.

(** One step of the trend, in terms of [drop]. *)
Lemma on_result_push (now : string) (r : DetectionResult.t)
      (history : list sample) :
  gt (DetectionResult.total_count r) (of_Z 0) = true ->
  on_result now (Some r) history
  = drop (length history + 1 - 20)
         (history ++ [mkSample now (DetectionResult.total_count r)]).
Proof.
  intros H. unfold on_result. rewrite H.
  rewrite (slice_from_last _ 19), length_app. reflexivity.
Qed.

(** X17 -- the trend keeps the last 20 positive counts.  A result with a
    positive total appends one sample and drops the oldest ones beyond
    20; a missing result or a total that is zero, negative or [NaN]
    leaves the history alone.  So, over any sequence of results, the
    history never exceeds 20 samples and holds positive counts only. *)
Theorem trend_keeps_last_20
  (updates : list (string * option DetectionResult.t)) :
  let history :=
    fold_left (fun h u => on_result (fst u) (snd u) h) updates [] in
  (length history <= 20)%nat
  /\ Forall (fun s => gt (count s) (of_Z 0) = true) history
  /\ (forall now r,
        gt (DetectionResult.total_count r) (of_Z 0) = true ->
        let pushed := on_result now (Some r) history in
        last pushed = Some (mkSample now (DetectionResult.total_count r))
        /\ pushed
           = drop (length history + 1 - 20)
                  (history ++ [mkSample now (DetectionResult.total_count r)]))
  /\ (forall now r,
        gt (DetectionResult.total_count r) (of_Z 0) = false ->
        on_result now (Some r) history = history)
  /\ (forall now, on_result now None history = history).
Proof.
  intros history.
  assert (Hinv : (length history <= 20)%nat
                 /\ Forall (fun s => gt (count s) (of_Z 0) = true) history).
  { subst history.
    assert (H0 : (length (@nil sample) <= 20)%nat
                 /\ Forall (fun s => gt (count s) (of_Z 0) = true) [])
      by (split; [simpl; lia|constructor]).
    revert H0. generalize (@nil sample).
    induction updates as [|[now res] updates IH]; intros h Hh; simpl;
      [assumption|].
    apply IH. destruct Hh as [Hlen Hpos].
    destruct res as [r|]; [|now split].
    destruct (gt (DetectionResult.total_count r) (of_Z 0)) eqn:E.
    - rewrite (on_result_push now r h E). split.
      + rewrite length_drop, length_app. simpl. lia.
      + apply Forall_drop, Forall_app. split; [assumption|].
        constructor; [exact E|constructor].
    - unfold on_result. rewrite E. now split. }
  destruct Hinv as [Hlen Hpos].
  split; [assumption|]. split; [assumption|].
  split; [|split].
  - intros now r E pushed. subst pushed.
    rewrite (on_result_push now r history E). split; [|reflexivity].
    rewrite drop_app_le by lia. apply last_snoc.
  - intros now r E. unfold on_result. now rewrite E.
  - reflexivity.
Qed.

Lemma max2_fin (a b : Q) :
  exists m, max2 (Fin a) (Fin b) = Fin m /\ a <= m /\ b <= m.
Proof.
  simpl. destruct (Qle_bool b a) eqn:E; simpl.
  - exists a. split; [reflexivity|]. split; [apply Qle_refl|].
    now apply Qle_bool_iff.
  - exists b. split; [reflexivity|]. split; [|apply Qle_refl].
    destruct (Qlt_le_dec a b) as [H|H]; [now apply Qlt_le_weak|].
    apply Qle_bool_iff in H. congruence.
Qed.

Lemma Math_max_fin (counts : list number) (a : Q) :
  Forall CanvasChecks.fin counts ->
  exists m, fold_left max2 counts (Fin a) = Fin m
            /\ a <= m
            /\ Forall (fun c => exists q, c = Fin q /\ q <= m) counts.
Proof.
  revert a. induction counts as [|c counts IH]; intros a Hc; cbn [fold_left].
  - exists a. split; [reflexivity|]. split; [apply Qle_refl|constructor].
  - apply List.Forall_cons_iff in Hc as [Hfin Hc].
    destruct c as [q| | |]; try contradiction.
    destruct (max2_fin a q) as (m0 & Hm0 & Ha & Hq).
    rewrite Hm0. destruct (IH m0 Hc) as (m & Hm & Hle & Hall).
    exists m. split; [assumption|].
    split; [now apply Qle_trans with m0|].
    constructor; [|assumption].
    exists q. split; [reflexivity|]. now apply Qle_trans with m0.
Qed.

(** X18 -- the bars of the trend.  For finite counts the divisor
    [maxCount] is finite and at least 1 (the extra argument of
    [Math.max]), so no bar height is a division by zero, every count is
    at most [maxCount], and every bar is at most 100 percent high. *)
Theorem trend_bars_bounded (history : list sample) :
  Forall (fun s => CanvasChecks.fin (count s)) history ->
  exists m,
    maxCount history = Fin m /\ 1 <= m
    /\ forall h, In h history ->
         exists q b,
           count h = Fin q /\ q <= m
           /\ bar_height history h = Fin b /\ b <= 100
           /\ (0 <= q -> 0 <= b).
Proof.
  intros Hfin. unfold maxCount, Math_max.
  assert (Hall : Forall CanvasChecks.fin (map count history ++ [of_Z 1])).
  { apply List.Forall_app. split; [now apply List.Forall_map|].
    constructor; [exact I|constructor]. }
  destruct (map count history ++ [of_Z 1]) as [|c0 rest] eqn:E.
  { destruct (map count history); discriminate. }
  apply List.Forall_cons_iff in Hall as [H0 Hrest].
  destruct c0 as [q0| | |]; try contradiction.
  simpl. destruct (Math_max_fin rest q0 Hrest) as (m & Hm & Hle & Hbound).
  assert (Hcounts : Forall (fun c => exists q, c = Fin q /\ q <= m)
                      (map count history ++ [of_Z 1])).
  { rewrite E. constructor; [now exists q0|assumption]. }
  apply List.Forall_app in Hcounts as [Hc H1].
  apply List.Forall_cons_iff in H1 as [(q1 & Hq1 & Hle1) _].
  injection Hq1 as <-.
  assert (Hm1 : 1 <= m) by exact Hle1.
  assert (Hmpos : 0 < m) by (apply Qlt_le_trans with 1; [reflexivity|assumption]).
  assert (Hmnz : ~ m == 0).
  { intros Hz. rewrite Hz in Hmpos. now apply Qlt_irrefl in Hmpos. }
  exists m. split; [exact Hm|]. split; [assumption|].
  intros h Hin.
  rewrite List.Forall_map, List.Forall_forall in Hc.
  destruct (Hc h Hin) as (q & Hq & Hqm).
  exists q, (q / m * inject_Z 100).
  split; [assumption|]. split; [assumption|].
  unfold bar_height, maxCount, Math_max. rewrite E. simpl. rewrite Hm, Hq.
  rewrite div_Fin by assumption. simpl.
  split; [reflexivity|].
  assert (Hdiv : q / m <= 1).
  { apply Qle_shift_div_r; [assumption|]. now rewrite Qmult_1_l. }
  split.
  - apply Qle_trans with (1 * inject_Z 100).
    + apply Qmult_le_compat_r; [assumption|discriminate].
    + discriminate.
  - intros Hq0. apply Qmult_le_0_compat; [|discriminate].
    apply Qle_shift_div_l; [assumption|]. now rewrite Qmult_0_l.
Qed.

End Trend.

(** ** The camera selection dialog *)

Section Dialog.
Import CameraSelectDialog.

Lemma includes_In (arr : list string) (x : string) :
  includes arr x = true <-> In x arr.
Proof.
  unfold includes. rewrite existsb_exists. split.
  - intros (y & Hy & Heq). apply String.eqb_eq in Heq. now subst.
  - intros H. exists x. split; [assumption|apply String.eqb_refl].
Qed.

Lemma includes_false (arr : list string) (x : string) :
  includes arr x = false <-> ~ In x arr.
Proof.
  rewrite <- includes_In. destruct (includes arr x); split; congruence.
Qed.

Lemma remove_id_In (x y : string) (arr : list string) :
  In y (List.filter (fun i => negb (String.eqb i x)) arr)
  <-> In y arr /\ y <> x.
Proof.
  rewrite filter_In, negb_true_iff, String.eqb_neq. tauto.
Qed.

(** X19 -- ticking a camera.  Toggling an id flips whether that id is
    selected and changes no other id's selection; a selection without
    duplicates stays without duplicates; and ticking a camera that was
    not selected, then ticking it again, gives back the very same
    list. *)
Theorem toggle_camera_flips_one (cameraId : string) (prev : list string) :
  includes (handleToggleCamera cameraId prev) cameraId
  = negb (includes prev cameraId)
  /\ (forall other, other <> cameraId ->
        includes (handleToggleCamera cameraId prev) other
        = includes prev other)
  /\ (List.NoDup prev -> List.NoDup (handleToggleCamera cameraId prev))
  /\ (includes prev cameraId = false ->
      handleToggleCamera cameraId (handleToggleCamera cameraId prev) = prev).
Proof.
  unfold handleToggleCamera.
  destruct (includes prev cameraId) eqn:E; simpl.
  - split.
    { apply includes_false. rewrite remove_id_In. tauto. }
    split.
    { intros other Hne.
      destruct (includes prev other) eqn:Eo.
      - apply includes_In. apply remove_id_In. split; [|assumption].
        now apply includes_In.
      - apply includes_false. rewrite remove_id_In.
        apply includes_false in Eo. tauto. }
    split; [apply List.NoDup_filter|discriminate].
  - apply includes_false in E. split.
    { apply includes_In, in_or_app. right. now left. }
    split.
    { intros other Hne.
      destruct (includes prev other) eqn:Eo.
      - apply includes_In, in_or_app. left. now apply includes_In.
      - apply includes_false. apply includes_false in Eo.
        intros H. apply in_app_or in H as [H|[H|[]]]; [tauto|congruence]. }
    split.
    { intros Hnd. apply List.NoDup_app; [assumption| |].
      - constructor; [intros []|constructor].
      - intros x Hx [<-|[]]. contradiction. }
    intros _.
    replace (includes (prev ++ [cameraId]) cameraId) with true
      by (symmetry; apply includes_In, in_or_app; right; now left).
    rewrite List.filter_app. simpl. rewrite String.eqb_refl. simpl.
    rewrite app_nil_r.
    clear -E. induction prev as [|x prev IH]; simpl; [reflexivity|].
    destruct (String.eqb x cameraId) eqn:Ex.
    + apply String.eqb_eq in Ex. subst x. exfalso. apply E. now left.
    + simpl. rewrite IH; [reflexivity|]. intros H. apply E. now right.
Qed.

Variable ALL_CAMERAS : list Camera.

(** X20 -- removing a selected camera.  "Remove" takes every camera with
    that id out of the selection and keeps all others in order, and it
    takes the id out of the ticked ids as well, so that a later "save"
    does not bring the camera back; what "save" hands over is always
    made of catalogue entries, in catalogue order, whose ids are
    ticked. *)
Theorem removed_camera_stays_removed
  (cameraId : string) (selectedCameras : list Camera)
  (tempSelected : list string) :
  let removed := handleRemoveCamera cameraId selectedCameras tempSelected in
  (forall cam, In cam (fst removed)
               <-> In cam selectedCameras /\ id cam <> cameraId)
  /\ (forall i, In i (snd removed) <-> In i tempSelected /\ i <> cameraId)
  /\ (forall cam, In cam (handleSave ALL_CAMERAS (snd removed))
                  <-> In cam (handleSave ALL_CAMERAS tempSelected)
                      /\ id cam <> cameraId)
  /\ (forall cam, In cam (handleSave ALL_CAMERAS tempSelected)
                  <-> In cam ALL_CAMERAS /\ In (id cam) tempSelected)
  /\ sublist (handleSave ALL_CAMERAS tempSelected) ALL_CAMERAS
  /\ sublist (fst removed) selectedCameras.
Proof.
  unfold handleRemoveCamera, handleSave. simpl.
  split; [|split; [|split; [|split; [|split]]]];
    [..|induction selectedCameras as [|cam cams IH]; simpl; [constructor|];
        destruct (negb (String.eqb (id cam) cameraId));
          [now apply sublist_skip|now apply sublist_cons]].
  - intros cam. rewrite filter_In, negb_true_iff, String.eqb_neq. tauto.
  - intros i. apply remove_id_In.
  - intros cam. rewrite !filter_In, !includes_In, remove_id_In. tauto.
  - intros cam. rewrite filter_In, includes_In. tauto.
  - induction ALL_CAMERAS as [|cam cams IH]; simpl; [constructor|].
    destruct (includes tempSelected (id cam));
      [now apply sublist_skip|now apply sublist_cons].
Qed.

End Dialog.

(** ** The further properties on sample inputs *)

Section ViewerSamples.
Import Js Canvas CanvasChecks.

Let width_of : string -> string -> number :=
  fun _ text => of_nat (7 * String.length text).
Let box : BoundingBox.t :=
  BoundingBox.mk (of_Z 100) (of_Z 100) (of_Z 300) (of_Z 300).
Let car : Detection.t := Detection.mk box "car" 2 (Fin (9 # 10)) (Some 7%Z).
Let first_entry : ParkingViolation.t :=
  ParkingViolation.mk (Some 7%Z) "car" "z1" "Kerb" (Fin (191 # 2)) box.
Let second_entry : ParkingViolation.t :=
  ParkingViolation.mk (Some 7%Z) "car" "z2" "Gate" (of_Z 12) box.
Let triangle : ZonePolygon.t :=
  ZonePolygon.mk "z1" "Kerb"
    [Point.mk (of_Z 0) (of_Z 0); Point.mk (of_Z 192) (of_Z 0);
     Point.mk (of_Z 0) (of_Z 108)]
    true false false false None "".
Let viewer : DetectionViewer.props :=
  DetectionViewer.mkProps [car] [triangle] [first_entry; second_entry]
    (Some (of_Z 1920)) (Some (of_Z 1080)) (Some (of_Z 800)) (Some (of_Z 450))
    None None None.
Let editor : PolygonEditor.props :=
  PolygonEditor.mkProps [triangle] (Some (of_Z 1920)) (Some (of_Z 1080))
    (Some (of_Z 960)) (Some (of_Z 540)) true.

(** X1 at a car of track 7 with two entries for that track: the box is
    red and 4 wide, and the callout of an entry of track 7 is drawn. *)
Lemma violation_rendering_witness :
  DetectionViewer.isViolation viewer car = true
  /\ exists viol rest,
       ParkingViolation.track_id viol = Some 7%Z
       /\ DetectionViewer.draw_detection width_of viewer car
          = Ok (set_strokeStyle "#FF0000" :: set_lineWidth (of_Z 4) :: rest)
       /\ In (fillText ("⚠ PARKING "
                          ^^ toFixed0 (ParkingViolation.duration_seconds viol)
                          ^^ "s")
                (add (mul (of_Z 100) (DetectionViewer.scaleX viewer)) (of_Z 6))
                (add (add (mul (of_Z 100) (DetectionViewer.scaleY viewer))
                          (mul (sub (of_Z 300) (of_Z 100))
                               (DetectionViewer.scaleY viewer)))
                     (of_Z 20)))
            rest.
Proof.
  split; [reflexivity|].
  destruct (violation_rendering width_of viewer car) as [_ H].
  destruct H as (viol & before & after & rest & _ & Ht & _ & Hd & Hl);
    [reflexivity|].
  exists viol, rest. split; [exact Ht|]. split; [exact Hd|].
  apply Hl. reflexivity.
Defined.

(** X2 at the triangle (0,0), (192,0), (0,108) under scale 5/12. *)
Lemma polygon_path_visits_points_in_order_witness :
  exists after,
    DetectionViewer.draw_zone viewer triangle
    = Ok (beginPath
            :: moveTo (mul (of_Z 0) (DetectionViewer.scaleX viewer))
                      (mul (of_Z 0) (DetectionViewer.scaleY viewer))
            :: lineTo (mul (of_Z 192) (DetectionViewer.scaleX viewer))
                      (mul (of_Z 0) (DetectionViewer.scaleY viewer))
            :: lineTo (mul (of_Z 0) (DetectionViewer.scaleX viewer))
                      (mul (of_Z 108) (DetectionViewer.scaleY viewer))
            :: closePath :: after).
Proof.
  destruct (polygon_path_visits_points_in_order viewer editor (Fin (355 # 113))
              (Point.mk (of_Z 0) (of_Z 0))
              [Point.mk (of_Z 192) (of_Z 0); Point.mk (of_Z 0) (of_Z 108)])
    as [H _].
  destruct (H triangle) as [[after Hv] _]; [reflexivity|simpl; lia|].
  exists after. exact Hv.
Defined.

End ViewerSamples.

Section EditorSamples.
Import Js.
Import PolygonEditor EditorControls.

Let light : ZonePolygon.t :=
  ZonePolygon.mk "zone_1_ab" "Light"
    [Point.mk (of_Z 0) (of_Z 0); Point.mk (of_Z 40) (of_Z 0);
     Point.mk (of_Z 0) (of_Z 30)]
    false true false false None "#FFFF00".
Let dims : option number := Some (of_Z 640).
Let rect : DOMRect := mkRect (of_Z 8) (of_Z 16).
Let editor : props := mkProps [light] dims dims dims dims true.
Let two_points : state :=
  mkState [Point.mk (of_Z 1) (of_Z 2); Point.mk (of_Z 3) (of_Z 4)]
          "" parking "".

(** X5 at a click on (108, 216) with the canvas at (8, 16). *)
Lemma click_appends_and_undo_reverts_witness :
  length (currentPoints
            (handleCanvasClick editor two_points (of_Z 108) (of_Z 216) rect))
  = 3%nat
  /\ handleUndo (handleCanvasClick editor two_points (of_Z 108) (of_Z 216) rect)
     = two_points
  /\ handleCanvasClick (mkProps [light] dims dims dims dims false) two_points
       (of_Z 108) (of_Z 216) rect
     = two_points.
Proof.
  destruct (click_appends_and_undo_reverts editor two_points
              (of_Z 108) (of_Z 216) rect) as [H _].
  destruct H as [Hp Hu]; [reflexivity|].
  destruct (click_appends_and_undo_reverts
              (mkProps [light] dims dims dims dims false) two_points
              (of_Z 108) (of_Z 216) rect) as [_ Hn].
  split; [now rewrite Hp|]. split; [exact Hu|]. now apply Hn.
Defined.

(** X6 at an unnamed parking zone saved as the second zone. *)
Lemma saved_zone_is_complete_and_painted_witness :
  let st := mkState (ZonePolygon.points light) "" parking "" in
  let zone :=
    ZonePolygon.mk "zone_2_cd" "Zone 2" (ZonePolygon.points light)
      true false false false None "#FF8800" in
  snd (handleSaveZone editor st "zone_2_cd")
  = [onZoneAdd zone; onEditingChange false]
  /\ ZonePolygon.name zone <> ""
  /\ In (ZonePolygon.color zone) ("#FFFF00" :: "#FFFFFF" :: ZONE_COLORS)
  /\ exists out, draw_zone editor zone = Ok (Canvas.beginPath :: out).
Proof.
  intros st zone.
  split; [reflexivity|].
  destruct (saved_zone_is_complete_and_painted editor st "zone_2_cd" zone
              (DetectionViewer.mkProps [] [] [] None None None None
                 None None None) editor)
    as (_ & _ & Hn & _ & _ & Hc & _ & Hd).
  - simpl. now left.
  - split; [exact Hn|]. split; [exact Hc|exact Hd].
Defined.

(** X7 on a session that draws a stop line linked to the light: the
    link offered and chosen is the one the saved zone carries; a link
    that is not offered is not taken. *)
Lemma editing_session_invariant_witness :
  let evs :=
    [add_zone_pressed;
     role_selected stop_line;
     link_selected "zone_9_zz";
     link_selected "zone_1_ab";
     canvas_clicked (of_Z 10) (of_Z 20) rect;
     canvas_clicked (of_Z 110) (of_Z 20) rect;
     canvas_clicked (of_Z 110) (of_Z 40) rect;
     canvas_clicked (of_Z 10) (of_Z 40) rect;
     undo_pressed;
     save_pressed "zone_2_cd"] in
  exists zone,
    run [light] dims dims dims dims evs
    = (false, initial,
       [onEditingChange true; onZoneAdd zone; onEditingChange false])
    /\ length (ZonePolygon.points zone) = 3%nat
    /\ ZonePolygon.linked_traffic_light_id zone = Some "zone_1_ab"
    /\ exists l, In l [light]
                 /\ ZonePolygon.is_traffic_light l = true
                 /\ ZonePolygon.linked_traffic_light_id zone
                    = Some (ZonePolygon.id l).
Proof.
  intros evs. eexists. split; [reflexivity|].
  split; [reflexivity|]. split; [reflexivity|].
  match goal with
  | |- context [ZonePolygon.linked_traffic_light_id ?z] =>
      destruct (editing_session_invariant [light] dims dims dims dims evs
                  false initial
                  [onEditingChange true; onZoneAdd z; onEditingChange false]
                  eq_refl) as (_ & _ & _ & Hlog);
      destruct (Hlog z) as (_ & Hl & _); [simpl; tauto|];
      now apply Hl
  end.
Defined.

End EditorSamples.

Section PageSamples.
Import DetectionPage PageEvents PageChecks.

Let url : string := "https://cam.example/live/index.M3U8?token=1".
Let shot : string := "https://cam.example/shot.jpg".
Let cam : string := "cam7".
Let render : Js.number -> string := Js.toFixed0.
Let box : BoundingBox.t :=
  BoundingBox.mk (Js.of_Z 100) (Js.of_Z 100) (Js.of_Z 300) (Js.of_Z 300).
Let viol : ParkingViolation.t :=
  ParkingViolation.mk (Some 7%Z) "car" "zone_1_ab" "Kerb" (Js.of_Z 95) box.
Let res : DetectionResult.t :=
  DetectionResult.mk [Detection.mk box "car" 2 (Js.Fin (9 # 10)) (Some 7%Z)]
    ∅ (Js.of_Z 1) (Js.of_Z 1280) (Js.of_Z 720) (Js.of_Z 31).
Let good : DetectResponse.t := DetectResponse.mk true (Some res) (Some [viol]) None.

(** A snapshot camera that has received one good response. *)
Let polling : world :=
  detect_settled render (Some good) "" (click_toggle cam shot "u1" initial).


(** X10 on a stream page showing a result: the message has the type but
    not the result. *)
Lemma message_without_result_witness :
  let w :=
    ws_received render 0
      (Some (WsMessage.mk "detection_result" (Some res) (Some [viol]) None None))
      (ws_opened url 0 (click_toggle cam url "" initial)) in
  let d := WsMessage.mk "detection_result" None None None None in
  viewer_mounted w = true
  /\ result (page (onmessage render (Some d) w)) = None
  /\ violations (page (onmessage render (Some d) w)) = []
  /\ viewer_mounted (onmessage render (Some d) w) = false
  /\ onmessage render (Some (WsMessage.mk "ping" None None None None)) w = w.
Proof.
  intros w d.
  destruct (message_without_result render d w) as [H _].
  destruct H as (Hr & Hv & _ & _ & _ & _ & Hm); [reflexivity|reflexivity|].
  destruct (message_without_result render
              (WsMessage.mk "ping" None None None None) w) as [_ Hp].
  split; [reflexivity|]. split; [exact Hr|]. split; [exact Hv|].
  split; [exact Hm|]. apply Hp; discriminate.
Defined.

(** X11: detection is stopped on the snapshot camera while a request is
    in flight, and the response arrives afterwards. *)
Lemma late_response_is_applied_witness :
  let stopped := click_toggle cam shot "u2" polling in
  let w' := detect_settled render (Some good) "" stopped in
  result (page stopped) = None
  /\ isDetecting (page w') = false
  /\ result (page w') = Some res
  /\ viewer_mounted w' = false.
Proof.
  destruct (late_response_is_applied cam shot render "u2" "" good res polling)
    as (H1 & H2 & H3 & _ & _ & H4 & _);
    try reflexivity.
  split; [exact H1|]. split; [exact H2|]. split; [exact H3|exact H4].
Defined.


(** X13 on the stream page, before and after a frame arrives. *)
Lemma overlay_excludes_synced_frame_witness :
  let opened := ws_opened url 0 (click_toggle cam url "" initial) in
  let plain :=
    ws_received render 0
      (Some (WsMessage.mk "detection_result" (Some res) None None None))
      opened in
  let framed :=
    ws_received render 0
      (Some (WsMessage.mk "detection_result" (Some res) None
               (Some "data:image/jpeg;base64,AAAA") None))
      opened in
  viewer_mounted plain = true
  /\ displayed url plain = video_element
  /\ displayed url framed = synced_img "data:image/jpeg;base64,AAAA"
  /\ viewer_mounted framed = false.
Proof.
  intros opened plain framed.
  destruct (overlay_excludes_synced_frame url framed) as [Hiff _].
  destruct (overlay_excludes_synced_frame url plain) as [_ Hm].
  destruct Hm as (_ & _ & _ & Hno); [reflexivity|].
  split; [reflexivity|]. split; [reflexivity|].
  split; [|reflexivity].
  apply Hiff. repeat split; try reflexivity. discriminate.
Defined.

(** X14: a zone is added and another deleted under an empty camera id,
    then a failed response arrives. *)
Lemma zone_list_changes_only_on_response_witness :
  let es := [PolygonEditor.onZoneAdd
               (ZonePolygon.mk "z" "Z" [] false false false false None "");
             PolygonEditor.onZoneDelete "zone_1_ab";
             PolygonEditor.onZonesClear] in
  requests (env (editor_effects "" es polling)) = requests (env polling)
  /\ zones (page (editor_effects cam es polling)) = zones (page polling)
  /\ length (requests (env (editor_effects cam es polling))) = 4%nat.
Proof.
  intros es.
  destruct (zone_list_changes_only_on_response "" es polling) as (_ & H & _).
  destruct (zone_list_changes_only_on_response cam es polling) as (Hz & _).
  split; [now apply H|]. split; [exact Hz|reflexivity].
Defined.

(** X15 on a list of three zones, the middle one updated. *)
Lemma zone_update_replaces_by_id_witness :
  let zone (i n : string) :=
    ZonePolygon.mk i n [] false false false false None "" in
  let zs := [zone "a" "A"; zone "b" "B"; zone "c" "C"] in
  replace_zone (zone "b" "Bypass") zs
  = [zone "a" "A"; zone "b" "Bypass"; zone "c" "C"]
  /\ replace_zone (zone "d" "D") zs = zs
  /\ requests (env (handleZoneUpdate cam (zone "d" "D") initial))
     = [POST_zones cam []].
Proof.
  intros zone zs.
  destruct (zone_update_replaces_by_id cam (zone "d" "D") zs)
    as (_ & _ & _ & Hsame & Hreq).
  split; [reflexivity|]. split.
  - apply Hsame. intros z [<-|[<-|[<-|[]]]]; discriminate.
  - destruct (Hreq initial) as [_ H]. apply H. discriminate.
Defined.

(** X16 on an upper-case playlist name followed by a query string. *)
Lemma m3u8_anywhere_any_case_witness :
  isM3u8 url = true /\ isM3u8 shot = false.
Proof.
  destruct (m3u8_anywhere_any_case url) as [_ H].
  split; [|reflexivity].
  apply (H "https://cam.example/live/index" ".M3U8" "?token=1"); reflexivity.
Defined.

End PageSamples.

Section DashboardSamples.
Import Js JsMath TrafficDashboard CameraSelectDialog.
Local Open Scope Q_scope.

Let counted (n : Z) : option DetectionResult.t :=
  Some (DetectionResult.mk [] ∅ (of_Z n) (of_Z 1280) (of_Z 720) (of_Z 30)).

(** X17 after 22 results of 5 vehicles: a further result of 9 vehicles
    enters at the end, one of 0 vehicles does not. *)
Lemma trend_keeps_last_20_witness :
  let updates := repeat ("12:00:00", counted 5) 22 in
  let history := fold_left (fun h u => on_result (fst u) (snd u) h) updates [] in
  length history = 20%nat
  /\ last (on_result "12:01:06" (counted 9) history)
     = Some (mkSample "12:01:06" (of_Z 9))
  /\ length (on_result "12:01:06" (counted 9) history) = 20%nat
  /\ on_result "12:01:09" (counted 0) history = history.
Proof.
  intros updates history.
  destruct (trend_keeps_last_20 updates) as (_ & _ & Hpush & Hskip & _).
  destruct (Hpush "12:01:06"
              (DetectionResult.mk [] ∅ (of_Z 9) (of_Z 1280) (of_Z 720) (of_Z 30)))
    as [Hlast _]; [reflexivity|].
  split; [reflexivity|]. split; [exact Hlast|]. split; [reflexivity|].
  apply (Hskip "12:01:09"
           (DetectionResult.mk [] ∅ (of_Z 0) (of_Z 1280) (of_Z 720) (of_Z 30))).
  reflexivity.
Defined.

(** X18 on the counts 4, 10 and 0. *)
Lemma trend_bars_bounded_witness :
  let history := [mkSample "a" (of_Z 4); mkSample "b" (of_Z 10);
                  mkSample "c" (of_Z 0)] in
  exists m,
    maxCount history = Fin m /\ 1 <= m
    /\ exists b, bar_height history (mkSample "a" (of_Z 4)) = Fin b /\ b <= 100.
Proof.
  intros history.
  destruct (trend_bars_bounded history) as (m & Hm & H1 & Hb).
  - repeat constructor.
  - exists m. split; [exact Hm|]. split; [exact H1|].
    destruct (Hb (mkSample "a" (of_Z 4))) as (q & b & _ & _ & Hh & Hle & _);
      [now left|].
    now exists b.
Defined.

(** X19 on a selection of two cameras. *)
Lemma toggle_camera_flips_one_witness :
  handleToggleCamera "c" (handleToggleCamera "c" ["a"; "b"]) = ["a"; "b"]
  /\ List.NoDup (handleToggleCamera "a" ["a"; "b"])
  /\ includes (handleToggleCamera "a" ["a"; "b"]) "b" = true.
Proof.
  destruct (toggle_camera_flips_one "c" ["a"; "b"]) as (_ & _ & _ & H).
  destruct (toggle_camera_flips_one "a" ["a"; "b"]) as (_ & Ho & Hn & _).
  split; [now apply H|]. split.
  - apply Hn. repeat constructor; simpl; intuition discriminate.
  - rewrite Ho; [reflexivity|discriminate].
Defined.

(** X20 on a catalogue of three cameras, two of them selected. *)
Lemma removed_camera_stays_removed_witness :
  let cam (i : string) := mkCamera i "Tp. HCM" "" "" in
  let catalogue := [cam "a"; cam "b"; cam "c"] in
  let removed := handleRemoveCamera "a" [cam "a"; cam "c"] ["c"; "a"] in
  removed = ([cam "c"], ["c"])
  /\ handleSave catalogue ["c"; "a"] = [cam "a"; cam "c"]
  /\ ~ In (cam "a") (handleSave catalogue (snd removed)).
Proof.
  intros cam catalogue removed.
  destruct (removed_camera_stays_removed catalogue "a" [cam "a"; cam "c"]
              ["c"; "a"]) as (_ & _ & H & _).
  split; [reflexivity|]. split; [reflexivity|].
  intros Hin. apply H in Hin as [_ Hne]. now apply Hne.
Defined.

End DashboardSamples.

(** * The coordinate mapping in binary64 *)

(** ** Rounding to binary64 *)

Section Rounding.
Import Js Binary64.
Local Open Scope Q_scope.

Lemma pow2_pos (e : Z) : 0 < pow2 e.
Proof. unfold pow2. apply Qpower_0_lt. reflexivity. Qed.

Lemma pow2_add (a b : Z) : pow2 (a + b) == pow2 a * pow2 b.
Proof. unfold pow2. apply Qpower_plus. discriminate. Qed.

Lemma pow2_le (a b : Z) : (a <= b)%Z -> pow2 a <= pow2 b.
Proof. intros H. unfold pow2. apply Qpower_le_compat_l; [assumption|]. discriminate. Qed.

Lemma pow2_lt (a b : Z) : (a < b)%Z -> pow2 a < pow2 b.
Proof. intros H. unfold pow2. apply Qpower_lt_compat_l; [assumption|]. reflexivity. Qed.

Lemma pow2_le_inv (a b : Z) : pow2 a <= pow2 b -> (a <= b)%Z.
Proof.
  intros H. destruct (Z_lt_le_dec b a) as [Hlt|]; [|assumption].
  apply pow2_lt in Hlt. exfalso. apply (Qlt_not_le _ _ Hlt H).
Qed.

Lemma pow2_of_Z (k : Z) : (0 <= k)%Z -> inject_Z (2 ^ k) == pow2 k.
Proof. intros H. unfold pow2. now rewrite Zpower_Qpower. Qed.

Lemma pow2_succ (a : Z) : pow2 (a + 1) == 2 * pow2 a.
Proof. rewrite pow2_add. unfold pow2 at 2. simpl. ring. Qed.


(** [ilog2] brackets its argument between two powers of two. *)
Lemma ilog2_spec (a : Q) :
  0 < a -> pow2 (ilog2 a) <= a /\ a < pow2 (ilog2 a + 1).
Proof.
  intros Ha. destruct a as [n d].
  assert (Hn : (0 < n)%Z) by (unfold Qlt in Ha; simpl in Ha; lia).
  unfold ilog2. cbn [Qnum Qden].
  set (ln := Z.log2 n). set (ld := Z.log2 (Z.pos d)).
  destruct (Z.log2_spec n Hn) as [Hn1 Hn2]. fold ln in Hn1, Hn2.
  destruct (Z.log2_spec (Z.pos d) eq_refl) as [Hd1 Hd2]. fold ld in Hd1, Hd2.
  assert (Lln : (0 <= ln)%Z) by apply Z.log2_nonneg.
  assert (Lld : (0 <= ld)%Z) by apply Z.log2_nonneg.
  assert (Qn1 : pow2 ln <= inject_Z n)
    by (rewrite <- pow2_of_Z by assumption; now rewrite <- Zle_Qle).
  assert (Qn2 : inject_Z n < pow2 (ln + 1))
    by (rewrite <- pow2_of_Z by lia; now rewrite <- Zlt_Qlt).
  assert (Qd1 : pow2 ld <= inject_Z (Z.pos d))
    by (rewrite <- pow2_of_Z by assumption; now rewrite <- Zle_Qle).
  assert (Qd2 : inject_Z (Z.pos d) < pow2 (ld + 1))
    by (rewrite <- pow2_of_Z by lia; now rewrite <- Zlt_Qlt).
  assert (Hd : 0 < inject_Z (Z.pos d)) by reflexivity.
  assert (E : n # d == inject_Z n / inject_Z (Z.pos d)) by apply Qmake_Qdiv.
  destruct (Qle_bool (pow2 (ln - ld)) (n # d)) eqn:T.
  - apply Qle_bool_iff in T. split; [exact T|].
    rewrite E. apply Qlt_shift_div_r; [exact Hd|].
    apply Qlt_le_trans with (1 := Qn2).
    replace (ln + 1)%Z with ((ln - ld + 1) + ld)%Z by lia.
    rewrite pow2_add.
    apply Qmult_le_l; [apply pow2_pos|exact Qd1].
  - assert (T' : n # d < pow2 (ln - ld)).
    { apply Qnot_le_lt. intros H. apply Qle_bool_iff in H. congruence. }
    split.
    + rewrite E. apply Qle_shift_div_l; [exact Hd|].
      apply Qle_trans with (2 := Qn1).
      replace ln with ((ln - ld - 1) + (ld + 1))%Z at 2 by lia.
      rewrite pow2_add.
      apply Qmult_le_l; [apply pow2_pos|]. now apply Qlt_le_weak.
    + now replace (ln - ld - 1 + 1)%Z with (ln - ld)%Z by lia.
Qed.

(** The nearest integer is within one half of its argument. *)
Lemma nearest_even_near (x : Q) :
  Qabs (inject_Z (nearest_even x) - x) <= 1 # 2.
Proof.
  unfold nearest_even.
  pose proof (Qfloor_le x) as Hlo. pose proof (Qlt_floor x) as Hhi.
  set (f := Qfloor x) in *.
  rewrite inject_Z_plus in Hhi. change (inject_Z 1) with 1 in Hhi.
  apply Qabs_Qle_condition.
  destruct (Qcompare (x - inject_Z f) (1 # 2)) eqn:C.
  - apply Qeq_alt in C.
    destruct (Z.even f);
      [|rewrite inject_Z_plus; change (inject_Z 1) with 1]; split; lra.
  - apply Qlt_alt in C. split; lra.
  - apply Qgt_alt in C. rewrite inject_Z_plus. change (inject_Z 1) with 1.
    split; lra.
Qed.

(** It stays between the integers that bound its argument. *)
Lemma nearest_even_ge (x : Q) (lo : Z) :
  inject_Z lo <= x -> (lo <= nearest_even x)%Z.
Proof.
  intros H. apply Qfloor_resp_le in H. rewrite Qfloor_Z in H.
  unfold nearest_even.
  destruct (Qcompare _ _); [destruct (Z.even _)| |]; lia.
Qed.

Lemma nearest_even_le (x : Q) (hi : Z) :
  x <= inject_Z hi -> (nearest_even x <= hi)%Z.
Proof.
  intros H. unfold nearest_even.
  pose proof (Qfloor_le x) as Hlo.
  set (f := Qfloor x) in *.
  assert (Hf : (f <= hi)%Z) by (rewrite Zle_Qle; lra).
  assert (Hup : 0 < x - inject_Z f -> (f + 1 <= hi)%Z).
  { intros Hr. assert (Hlt : (f < hi)%Z) by (rewrite Zlt_Qlt; lra). lia. }
  destruct (Qcompare (x - inject_Z f) (1 # 2)) eqn:C.
  - apply Qeq_alt in C. destruct (Z.even f); [assumption|]. apply Hup. lra.
  - assumption.
  - apply Qgt_alt in C. apply Hup. lra.
Qed.


(** Rounding a magnitude within the range of binary64. *)
Lemma round_magnitude (a : Q) :
  0 < a -> a <= pow2 1023 ->
  let ulp := pow2 (Z.max (ilog2 a - 52) (-1074)) in
  let r := inject_Z (nearest_even (a / ulp)) * ulp in
  0 <= r /\ r <= pow2 1023
  /\ Qabs (r - a) <= eps * a + eta
  /\ (pow2 (-1074) <= a -> 0 < r).
Proof.
  intros Ha Hmax.
  destruct (ilog2_spec a Ha) as [Hlo Hhi].
  set (e := ilog2 a) in *.
  assert (He : (e <= 1023)%Z)
    by (apply pow2_le_inv; now apply Qle_trans with a).
  set (k := Z.max (e - 52) (-1074)).
  assert (Hk : (k <= 971)%Z) by lia.
  intros ulp r. subst ulp. set (u := pow2 k) in *.
  assert (Hu : 0 < u) by apply pow2_pos.
  assert (Nu : ~ u == 0) by lra.
  set (x := a / u) in *.
  assert (Ex : x * u == a) by (unfold x; field; exact Nu).
  set (m := nearest_even x) in *.
  pose proof (nearest_even_near x) as Hnear. fold m in Hnear.
  assert (Hx0 : 0 <= x).
  { unfold x. apply Qle_shift_div_l; [exact Hu|]. lra. }
  assert (Hm0 : (0 <= m)%Z) by (apply nearest_even_ge; exact Hx0).
  assert (Hr0 : 0 <= r).
  { unfold r. apply Qmult_le_0_compat; [|lra].
    change 0 with (inject_Z 0). now rewrite <- Zle_Qle. }
  split; [exact Hr0|]. split; [|split].
  - (* no overflow *)
    assert (Etop : pow2 (1023 - k) * u == pow2 1023).
    { unfold u. rewrite <- pow2_add.
      now replace (1023 - k + k)%Z with 1023%Z by lia. }
    assert (Hx : x <= inject_Z (2 ^ (1023 - k))).
    { rewrite pow2_of_Z by lia. unfold x.
      apply Qle_shift_div_r; [exact Hu|]. now rewrite Etop. }
    apply nearest_even_le in Hx. fold m in Hx.
    rewrite Zle_Qle, pow2_of_Z in Hx by lia.
    unfold r. rewrite <- Etop. apply Qmult_le_compat_r; [exact Hx|lra].
  - (* the error is at most half a unit in the last place *)
    assert (Herr : Qabs (r - a) <= (1 # 2) * u).
    { assert (E : r - a == (inject_Z m - x) * u) by (unfold r; rewrite <- Ex; ring).
      rewrite E, Qabs_Qmult, (Qabs_pos u) by lra.
      apply Qmult_le_compat_r; [exact Hnear|lra]. }
    apply Qle_trans with (1 := Herr).
    assert (Heta : 0 < eta) by apply pow2_pos.
    assert (Heps : 0 < eps) by apply pow2_pos.
    destruct (Z.max_spec (e - 52) (-1074)) as [[_ Ek]|[_ Ek]]; fold k in Ek.
    + (* subnormal *)
      assert (E : (1 # 2) * u == eta).
      { unfold u. rewrite Ek. reflexivity. }
      rewrite E.
      assert (0 <= eps * a) by (apply Qmult_le_0_compat; lra). lra.
    + assert (E : (1 # 2) * u == eps * pow2 e).
      { unfold u, eps. rewrite Ek.
        replace (e - 52)%Z with (- 52 + e)%Z by lia.
        rewrite pow2_add.
        assert (E52 : pow2 (-52) == 2 * pow2 (-53)) by reflexivity.
        rewrite E52. ring. }
      rewrite E.
      assert (eps * pow2 e <= eps * a)
        by (apply Qmult_le_l; [exact Heps|exact Hlo]).
      lra.
  - (* no underflow to zero *)
    intros Hmin.
    assert (Hua : u <= a).
    { destruct (Z.max_spec (e - 52) (-1074)) as [[_ Ek]|[_ Ek]]; fold k in Ek;
        unfold u; rewrite Ek; [exact Hmin|].
      apply Qle_trans with (2 := Hlo). apply pow2_le. lia. }
    assert (Hx1 : inject_Z 1 <= x).
    { unfold x. apply Qle_shift_div_l; [exact Hu|].
      change (inject_Z 1) with 1. lra. }
    apply nearest_even_ge in Hx1. fold m in Hx1.
    unfold r. apply Qmult_lt_0_compat; [|exact Hu].
    change 0 with (inject_Z 0). rewrite <- Zlt_Qlt. lia.
Qed.

(** Below the overflow threshold [round64] yields a finite number, whose
    relative error is at most [eps] but for [eta] near zero, and which
    is zero only for an argument below the smallest positive number. *)
Lemma round64_finite (q : Q) :
  Qabs q <= pow2 1023 ->
  exists r,
    round64 q = Fin r
    /\ Qabs (r - q) <= eps * Qabs q + eta
    /\ Qabs r <= pow2 1023
    /\ (pow2 (-1074) <= Qabs q -> ~ r == 0).
Proof.
  intros Hmax. unfold round64.
  destruct (is_zero q) eqn:Z.
  - exists 0. apply Qeq_bool_iff in Z.
    split; [reflexivity|]. rewrite Z.
    split; [|split].
    + vm_compute. discriminate.
    + vm_compute. discriminate.
    + intros H. exfalso. revert H. vm_compute. intros H. now apply H.
  - assert (Nq : ~ q == 0).
    { intros E. apply Qeq_bool_iff in E. unfold is_zero in Z. congruence. }
    assert (Ha : 0 < Qabs q).
    { apply Qabs_case; intros H;
        (apply Qle_lteq in H as [H|H]; [lra|]);
        exfalso; apply Nq; lra. }
    destruct (round_magnitude (Qabs q) Ha Hmax) as (Hr0 & Hr1 & Herr & Hnz).
    set (r := inject_Z _ * _) in *.
    assert (Hno : Qle_bool (pow2 1024) r = false).
    { destruct (Qle_bool (pow2 1024) r) eqn:T; [|reflexivity].
      apply Qle_bool_iff in T. exfalso.
      assert (pow2 1023 < pow2 1024) by (apply pow2_lt; lia). lra. }
    rewrite Hno.
    unfold is_pos. destruct (0 <? Qnum q)%Z eqn:P.
    + assert (Hq : 0 < q) by (unfold Qlt; simpl; lia).
      assert (Eq : Qabs q == q) by (apply Qabs_pos; lra).
      exists (Qred r). split; [reflexivity|].
      rewrite Qred_correct.
      split; [|split].
      * rewrite <- Eq at 1. exact Herr.
      * rewrite Qabs_pos; assumption.
      * intros Hmin E. specialize (Hnz Hmin). lra.
    + assert (Hq : q < 0).
      { apply Z.ltb_ge in P. unfold Qlt. simpl.
        assert (Qnum q <> 0)%Z; [|lia].
        intros E. apply Nq. unfold Qeq. simpl. lia. }
      assert (Eq : Qabs q == - q) by (apply Qabs_neg; lra).
      exists (Qred (- r)). split; [reflexivity|].
      rewrite Qred_correct.
      split; [|split].
      * assert (E : - r - q == - (r - Qabs q)) by (rewrite Eq; ring).
        rewrite E, Qabs_opp. exact Herr.
      * rewrite Qabs_opp, Qabs_pos; assumption.
      * intros Hmin E. specialize (Hnz Hmin). lra.
Qed.


(** Powers of two as numerals, for linear arithmetic. *)
Ltac numeral t :=
  let c := eval vm_compute in t in change t with c in *.

Lemma round64_within (q B : Q) :
  Qabs q <= B -> B <= pow2 1023 ->
  exists r, round64 q = Fin r /\ Qabs (r - q) <= eps * B + eta.
Proof.
  intros Hq HB.
  destruct (round64_finite q) as (r & Hr & Herr & _); [lra|].
  exists r. split; [exact Hr|].
  apply Qle_trans with (1 := Herr).
  assert (eps * Qabs q <= eps * B)
    by (apply Qmult_le_l; [apply pow2_pos|exact Hq]).
  lra.
Qed.

(** The quotient of two magnitudes between [2 ^ -200] and [2 ^ 200]. *)
Lemma scale_in_range (c f : Q) :
  pow2 (-200) <= c -> c <= pow2 200 ->
  pow2 (-200) <= f -> f <= pow2 200 ->
  exists s, div (Fin c) (Fin f) = Fin s
            /\ pow2 (-401) <= s /\ s <= pow2 401.
Proof.
  intros Hc1 Hc2 Hf1 Hf2.
  assert (P200 : 0 < pow2 (-200)) by apply pow2_pos.
  assert (Hf : 0 < f) by lra.
  assert (Nf : is_zero f = false).
  { unfold is_zero. destruct (Qeq_bool f 0) eqn:E; [|reflexivity].
    apply Qeq_bool_iff in E. lra. }
  unfold div, Js.div. rewrite Nf. cbn [rounded].
  assert (Hq1 : pow2 (-400) <= c / f).
  { apply Qle_shift_div_l; [exact Hf|].
    apply Qle_trans with (pow2 (-400) * pow2 200).
    - apply Qmult_le_l; [apply pow2_pos|exact Hf2].
    - rewrite <- pow2_add. exact Hc1. }
  assert (Hq2 : c / f <= pow2 400).
  { apply Qle_shift_div_r; [exact Hf|].
    apply Qle_trans with (pow2 400 * pow2 (-200)).
    - rewrite <- pow2_add. exact Hc2.
    - apply Qmult_le_l; [apply pow2_pos|exact Hf1]. }
  assert (P400 : 0 < pow2 (-400)) by apply pow2_pos.
  assert (Eq : Qabs (c / f) == c / f) by (apply Qabs_pos; lra).
  destruct (round64_finite (c / f)) as (s & Hs & Herr & _).
  { rewrite Eq. apply Qle_trans with (1 := Hq2). apply pow2_le. lia. }
  exists s. split; [exact Hs|].
  rewrite Eq in Herr. apply Qabs_diff_Qle_condition in Herr.
  numeral eps. numeral eta. numeral (pow2 (-400)). numeral (pow2 (-401)).
  numeral (pow2 400). numeral (pow2 401).
  split; lra.
Qed.


(** One coordinate through the projection and back: scaled, shifted by
    the origin, shifted back and unscaled, each step rounded. *)
Lemma roundtrip_coordinate (c o s : Q) :
  pow2 (-401) <= s -> s <= pow2 401 ->
  Qabs c <= pow2 200 -> Qabs o <= pow2 200 ->
  exists x,
    div (sub (add (Fin o) (mul (Fin c) (Fin s))) (Fin o)) (Fin s) = Fin x
    /\ Qabs (x - c) <= pow2 (-50) * (Qabs c + Qabs o / s) + pow2 (-600).
Proof.
  intros Hs1 Hs2 Hc Ho.
  assert (Hs : 0 < s) by (pose proof (pow2_pos (-401)); lra).
  assert (Ns : ~ s == 0) by lra.
  assert (Zs : is_zero s = false).
  { unfold is_zero. destruct (Qeq_bool s 0) eqn:E; [|reflexivity].
    apply Qeq_bool_iff in E. contradiction. }
  pose proof (Qabs_nonneg c) as Hc0. pose proof (Qabs_nonneg o) as Ho0.
  set (W := Qabs c) in *. set (O := Qabs o) in *.
  set (OS := O / s). set (HS := eta / s).
  assert (HOS0 : 0 <= OS).
  { unfold OS. apply Qle_shift_div_l; [exact Hs|]. lra. }
  assert (HOS : OS <= pow2 601).
  { unfold OS. apply Qle_shift_div_r; [exact Hs|].
    apply Qle_trans with (1 := Ho).
    apply Qle_trans with (pow2 601 * pow2 (-401)).
    - rewrite <- pow2_add. apply Qle_refl.
    - apply Qmult_le_l; [apply pow2_pos|exact Hs1]. }
  assert (HHS0 : 0 <= HS).
  { unfold HS. apply Qle_shift_div_l; [exact Hs|].
    pose proof (pow2_pos (-1075)). unfold eta. lra. }
  assert (HHS : HS <= pow2 (-674)).
  { unfold HS. apply Qle_shift_div_r; [exact Hs|].
    apply Qle_trans with (pow2 (-674) * pow2 (-401)).
    - rewrite <- pow2_add. apply Qle_refl.
    - apply Qmult_le_l; [apply pow2_pos|exact Hs1]. }
  set (P := W * s).
  assert (HP0 : 0 <= P) by (apply Qmult_le_0_compat; lra).
  assert (HP : P <= pow2 601).
  { unfold P. apply Qle_trans with (pow2 200 * s).
    - apply Qmult_le_compat_r; lra.
    - apply Qle_trans with (pow2 200 * pow2 401).
      + apply Qmult_le_l; [apply pow2_pos|exact Hs2].
      + rewrite <- pow2_add. apply Qle_refl. }
  assert (Hcs : Qabs (c * s) <= P).
  { rewrite Qabs_Qmult, (Qabs_pos s) by lra. apply Qle_refl. }
  (* scaling *)
  destruct (round64_within (c * s) P) as (v & Ev & Hv); [exact Hcs| |].
  { apply Qle_trans with (1 := HP). apply pow2_le. lia. }
  apply Qabs_Qle_condition in Hcs. apply Qabs_diff_Qle_condition in Hv.
  assert (Hoo : - O <= o <= O) by (apply Qabs_Qle_condition, Qle_refl).
  (* shifting by the origin *)
  set (B2 := O + P + (eps * P + eta)).
  destruct (round64_within (o + v) B2) as (cl & Ecl & Hcl).
  { apply Qabs_Qle_condition. unfold B2. split; lra. }
  { unfold B2. revert HP HP0 Ho0 Ho. generalize P O.
    numeral eps. numeral eta. numeral (pow2 200). numeral (pow2 601).
    numeral (pow2 1023). intros; lra. }
  apply Qabs_diff_Qle_condition in Hcl.
  (* shifting back *)
  set (B3 := P + (eps * P + eta) + (eps * B2 + eta)).
  assert (Heps0 : 0 < eps) by apply pow2_pos.
  assert (Heta0 : 0 < eta) by apply pow2_pos.
  assert (HB2 : 0 <= B2).
  { unfold B2. assert (0 <= eps * P) by (apply Qmult_le_0_compat; lra). lra. }
  destruct (round64_within (cl + - o) B3) as (d & Ed & Hd).
  { apply Qabs_Qle_condition. unfold B3. split; lra. }
  { unfold B3, B2. revert HP HP0 Ho0 Ho. generalize P O.
    numeral eps. numeral eta. numeral (pow2 200). numeral (pow2 601).
    numeral (pow2 1023). intros; lra. }
  apply Qabs_diff_Qle_condition in Hd.
  (* unscaling *)
  set (N := d - c * s).
  set (EB := (eps * P + eta) + (eps * B2 + eta) + (eps * B3 + eta)).
  assert (HN : Qabs N <= EB).
  { apply Qabs_Qle_condition. unfold N, EB. split; lra. }
  set (Y := N / s).
  set (YB := EB / s).
  assert (HY : Qabs Y <= YB).
  { unfold Y, YB, Qdiv. rewrite Qabs_Qmult, Qabs_Qinv, (Qabs_pos s) by lra.
    apply Qmult_le_compat_r; [exact HN|].
    apply Qlt_le_weak, Qinv_lt_0_compat, Hs. }
  assert (EYB : YB == (3 * eps + 3 * eps * eps + eps * eps * eps) * W
                      + (eps + eps * eps) * OS
                      + (3 + 3 * eps + eps * eps) * HS).
  { unfold YB, EB, B3, B2, P, OS, HS. field. exact Ns. }
  assert (Edq : d / s == c + Y) by (unfold Y, N; field; exact Ns).
  destruct (round64_within (d / s) (W + YB)) as (x & Ex & Hx).
  { rewrite Edq. apply Qle_trans with (1 := Qabs_triangle c Y).
    fold W. lra. }
  { rewrite EYB. revert Hc Hc0 HOS HOS0 HHS HHS0. generalize W OS HS.
    numeral eps. numeral (pow2 200). numeral (pow2 601).
    numeral (pow2 (-674)). numeral (pow2 1023). intros; lra. }
  exists x. split.
  { unfold div, sub, add, mul. cbn [Js.mul rounded]. rewrite Ev.
    cbn [Js.add rounded]. rewrite Ecl.
    unfold Js.sub. cbn [Js.neg Js.add rounded]. rewrite Ed.
    cbn [Js.div]. rewrite Zs. cbn [rounded]. exact Ex. }
  fold OS.
  assert (E : x - c == (x - d / s) + Y) by (rewrite Edq; ring).
  rewrite E.
  apply Qle_trans with (1 := Qabs_triangle _ _).
  apply Qle_trans with ((eps * (W + YB) + eta) + YB); [lra|].
  rewrite EYB. revert Hc0 HOS0 HHS HHS0. generalize W OS HS.
  numeral eps. numeral eta. numeral (pow2 (-50)). numeral (pow2 (-600)).
  numeral (pow2 (-674)). intros; lra.
Qed.


(** The quotient of two dimensions clear of underflow and overflow. *)
Lemma quotient_finite_nonzero (c f : Q) :
  pow2 (-500) <= Qabs c -> Qabs c <= pow2 500 ->
  pow2 (-500) <= Qabs f -> Qabs f <= pow2 500 ->
  finite_nonzero (div (Fin c) (Fin f)).
Proof.
  intros Hc1 Hc2 Hf1 Hf2.
  assert (P500 : 0 < pow2 (-500)) by apply pow2_pos.
  assert (Hf : 0 < Qabs f) by lra.
  assert (Nf : is_zero f = false).
  { unfold is_zero. destruct (Qeq_bool f 0) eqn:E; [|reflexivity].
    apply Qeq_bool_iff in E. rewrite E in Hf. exfalso. revert Hf. apply Qlt_irrefl. }
  unfold div, Js.div. rewrite Nf. cbn [rounded].
  assert (Eq : Qabs (c / f) == Qabs c / Qabs f).
  { unfold Qdiv. now rewrite Qabs_Qmult, Qabs_Qinv. }
  destruct (round64_finite (c / f)) as (r & Hr & _ & _ & Hnz).
  - rewrite Eq. apply Qle_shift_div_r; [exact Hf|].
    apply Qle_trans with (1 := Hc2).
    apply Qle_trans with (pow2 1023 * pow2 (-500)).
    + rewrite <- pow2_add. apply pow2_le. lia.
    + apply Qmult_le_l; [apply pow2_pos|exact Hf1].
  - rewrite Hr. simpl. apply Hnz.
    rewrite Eq. apply Qle_shift_div_l; [exact Hf|].
    apply Qle_trans with (2 := Hc1).
    apply Qle_trans with (pow2 (-1074) * pow2 500).
    + apply Qmult_le_l; [apply pow2_pos|exact Hf2].
    + rewrite <- pow2_add. apply pow2_le. lia.
Qed.

(** A guarded dimension is never falsy, and is ordinary when the
    dimension and the default are. *)
Lemma num_or_truthy (v : option number) (d : number) :
  truthy d = true -> truthy (num_or v d) = true.
Proof.
  intros Hd. destruct v as [a|]; simpl; [|exact Hd].
  destruct (truthy a) eqn:E; assumption.
Qed.

Lemma num_or_ordinary (k : Z) (v : option number) (d : Z) :
  (10 <= k)%Z -> ordinary k v -> (1 <= d <= 1000)%Z ->
  exists c, num_or v (of_Z d) = Fin c
            /\ pow2 (- k) <= Qabs c /\ Qabs c <= pow2 k.
Proof.
  intros Hk Hv Hd.
  assert (Hdef : pow2 (- k) <= Qabs (inject_Z d)
                 /\ Qabs (inject_Z d) <= pow2 k).
  { rewrite Qabs_pos by (change 0 with (inject_Z 0); rewrite <- Zle_Qle; lia).
    split.
    - apply Qle_trans with (pow2 0); [apply pow2_le; lia|].
      change (pow2 0) with (inject_Z 1). rewrite <- Zle_Qle. lia.
    - apply Qle_trans with (pow2 10); [|apply pow2_le; lia].
      change (pow2 10) with (inject_Z 1024). rewrite <- Zle_Qle. lia. }
  destruct v as [[q| | |]|]; simpl in *; try contradiction;
    try (exists (inject_Z d); split; [reflexivity|exact Hdef]).
  destruct (is_zero q) eqn:E; simpl.
  - exists (inject_Z d). split; [reflexivity|exact Hdef].
  - exists q. split; [reflexivity|].
    destruct Hv as [Hz|Hr]; [|exact Hr].
    apply Qeq_bool_iff in Hz. unfold is_zero in E. congruence.
Qed.

End Rounding.

(** ** The rounding against the reference implementation *)

Section ReferenceFloats.
Import Js Binary64.
Local Open Scope Q_scope.

(** [round64] and the division, product, sum and difference of the
    Standard Library's specification of binary64 agree on the operands
    met below, up to the largest and the smallest numbers. *)
Example reference_quotients :
  of_spec_float
    (SpecFloat.SFdiv 53 1024 (spec_float_of 800 0) (spec_float_of 1920 0))
  = div (of_Z 800) (of_Z 1920)
  /\ of_spec_float
       (SpecFloat.SFdiv 53 1024 (spec_float_of 1 (-600)) (spec_float_of 1 600))
     = div (Fin (pow2 (-600))) (Fin (pow2 600))
  /\ of_spec_float
       (SpecFloat.SFdiv 53 1024 (spec_float_of 1 600) (spec_float_of 1 (-600)))
     = div (Fin (pow2 600)) (Fin (pow2 (-600)))
  /\ of_spec_float
       (SpecFloat.SFdiv 53 1024 (spec_float_of 1 (-1074)) (spec_float_of 640 0))
     = div (Fin (pow2 (-1074))) (of_Z 640)
  /\ of_spec_float
       (SpecFloat.SFdiv 53 1024 (spec_float_of 3 (-1074)) (spec_float_of 2 0))
     = div (Fin (3 * pow2 (-1074))) (of_Z 2).
Proof. repeat split; vm_compute; reflexivity. Qed.

Example reference_products_and_sums :
  of_spec_float
    (SpecFloat.SFmul 53 1024 (spec_float_of 100 0)
       (SpecFloat.SFdiv 53 1024 (spec_float_of 800 0) (spec_float_of 1920 0)))
  = mul (of_Z 100) (div (of_Z 800) (of_Z 1920))
  /\ of_spec_float
       (SpecFloat.SFmul 53 1024 (spec_float_of 1 1023) (spec_float_of 12 (-2)))
     = mul (Fin (pow2 1023)) (of_Z 3)
  /\ of_spec_float
       (SpecFloat.SFadd 53 1024 (spec_float_of 1 53) (spec_float_of 1 0))
     = add (Fin (pow2 53)) (of_Z 1)
  /\ of_spec_float
       (SpecFloat.SFadd 53 1024 (spec_float_of 1 53) (spec_float_of 3 0))
     = add (Fin (pow2 53)) (of_Z 3)
  /\ of_spec_float
       (SpecFloat.SFsub 53 1024 (spec_float_of 1 53) (spec_float_of 1 53))
     = sub (Fin (pow2 53)) (Fin (pow2 53))
  /\ of_spec_float
       (SpecFloat.SFadd 53 1024 (spec_float_of 1 1023) (spec_float_of 1 1023))
     = add (Fin (pow2 1023)) (Fin (pow2 1023)).
Proof. repeat split; vm_compute; reflexivity. Qed.

End ReferenceFloats.

(** ** Guarded dimensions, in binary64 *)

Section GuardedDimensions.
Import Js Binary64.
Local Open Scope Q_scope.

Lemma scale_finite_nonzero (cv fv : option number) (dc df : Z) :
  ordinary 500 cv -> ordinary 500 fv ->
  (1 <= dc <= 1000)%Z -> (1 <= df <= 1000)%Z ->
  finite_nonzero (div (num_or cv (of_Z dc)) (num_or fv (of_Z df))).
Proof.
  intros Hc Hf Hdc Hdf.
  destruct (num_or_ordinary 500 cv dc) as (c & Ec & Hc1 & Hc2);
    [lia|assumption..|].
  destruct (num_or_ordinary 500 fv df) as (f & Ef & Hf1 & Hf2);
    [lia|assumption..|].
  rewrite Ec, Ef. now apply quotient_finite_nonzero.
Qed.

(** C6, as the code has it.  In the viewer and in the editor alike, a
    frame or container dimension that is zero or undefined is replaced by
    the default (640 for a width, 360 for a height).  Whatever the
    dimensions are, the guarded ones are never zero nor [NaN], so that no
    scale factor is a division by zero.  In binary64 the scale factors
    are finite and different from zero when each dimension is undefined,
    [NaN], zero or of a magnitude between [2 ^ -500] and [2 ^ 500]
    ([ordinary 500]). *)
Theorem guarded_dimensions_scale
  (v : DetectionViewer.props) (e : PolygonEditor.props) :
  ((zero_or_undefined (DetectionViewer.frameWidth v) ->
    DetectionViewer.safeFrameWidth v = of_Z 640)
   /\ (zero_or_undefined (DetectionViewer.frameHeight v) ->
       DetectionViewer.safeFrameHeight v = of_Z 360)
   /\ (zero_or_undefined (DetectionViewer.containerWidth v) ->
       DetectionViewer.safeContainerWidth v = of_Z 640)
   /\ (zero_or_undefined (DetectionViewer.containerHeight v) ->
       DetectionViewer.safeContainerHeight v = of_Z 360))
  /\ ((zero_or_undefined (PolygonEditor.frameWidth e) ->
       PolygonEditor.safeFrameWidth e = of_Z 640)
      /\ (zero_or_undefined (PolygonEditor.frameHeight e) ->
          PolygonEditor.safeFrameHeight e = of_Z 360)
      /\ (zero_or_undefined (PolygonEditor.containerWidth e) ->
          PolygonEditor.safeContainerWidth e = of_Z 640)
      /\ (zero_or_undefined (PolygonEditor.containerHeight e) ->
          PolygonEditor.safeContainerHeight e = of_Z 360))
  /\ (truthy (DetectionViewer.safeFrameWidth v) = true
      /\ truthy (DetectionViewer.safeFrameHeight v) = true
      /\ truthy (DetectionViewer.safeContainerWidth v) = true
      /\ truthy (DetectionViewer.safeContainerHeight v) = true
      /\ truthy (PolygonEditor.safeFrameWidth e) = true
      /\ truthy (PolygonEditor.safeFrameHeight e) = true
      /\ truthy (PolygonEditor.safeContainerWidth e) = true
      /\ truthy (PolygonEditor.safeContainerHeight e) = true)
  /\ ((ordinary 500 (DetectionViewer.containerWidth v) ->
       ordinary 500 (DetectionViewer.frameWidth v) ->
       finite_nonzero (DetectionViewer64.scaleX v))
      /\ (ordinary 500 (DetectionViewer.containerHeight v) ->
          ordinary 500 (DetectionViewer.frameHeight v) ->
          finite_nonzero (DetectionViewer64.scaleY v)))
  /\ ((ordinary 500 (PolygonEditor.containerWidth e) ->
       ordinary 500 (PolygonEditor.frameWidth e) ->
       finite_nonzero (PolygonEditor64.scaleX e))
      /\ (ordinary 500 (PolygonEditor.containerHeight e) ->
          ordinary 500 (PolygonEditor.frameHeight e) ->
          finite_nonzero (PolygonEditor64.scaleY e))).
Proof.
  split; [|split; [|split; [|split]]].
  - repeat split; intros Hz; now apply num_or_default.
  - repeat split; intros Hz; now apply num_or_default.
  - repeat split; apply num_or_truthy; reflexivity.
  - split; intros Hc Hf; apply scale_finite_nonzero; (assumption || lia).
  - split; intros Hc Hf; apply scale_finite_nonzero; (assumption || lia).
Qed.

(** C6 at a viewer that knows no dimension yet and an editor whose frame
    is reported as 0 x undefined inside an 800 x 450 container. *)
Lemma guarded_dimensions_scale_witness :
  let v := DetectionViewer.mkProps [] [] [] None None None None None None None in
  let e := PolygonEditor.mkProps [] (Some (Fin 0)) None
             (Some (of_Z 800)) (Some (of_Z 450)) false in
  DetectionViewer.safeFrameWidth v = of_Z 640
  /\ PolygonEditor.safeFrameWidth e = of_Z 640
  /\ PolygonEditor.safeFrameHeight e = of_Z 360
  /\ truthy (PolygonEditor.safeFrameWidth e) = true
  /\ finite_nonzero (DetectionViewer64.scaleX v)
  /\ finite_nonzero (PolygonEditor64.scaleX e)
  /\ finite_nonzero (PolygonEditor64.scaleY e).
Proof.
  intros v e.
  destruct (guarded_dimensions_scale v e)
    as [[Hv _] [[He1 [He2 _]] [[_ [_ [_ [_ [Ht _]]]]] [[Sv _] [Sx Sy]]]]].
  split; [apply Hv; exact I|].
  split; [apply He1; reflexivity|].
  split; [apply He2; exact I|].
  split; [exact Ht|].
  split; [apply Sv; exact I|].
  split; [apply Sx; [|left; reflexivity]|apply Sy; [|exact I]];
    right; split; vm_compute; discriminate.
Defined.

(** C6 fails outside that range.  A container 5e-324 wide (the smallest
    positive number) in front of a frame whose width is still undefined:
    the default 640 is substituted, and the quotient underflows to zero.
    A container [2 ^ 600] wide and a frame [2 ^ -600] wide, both finite
    and positive: the quotient overflows.  An infinite container width:
    it is truthy, so it is kept, and the scale factor is infinite. *)
Lemma scale_factor_zero_or_infinite :
  let tiny := PolygonEditor.mkProps [] None None
                (Some (Fin (pow2 (-1074)))) (Some (of_Z 450)) false in
  let huge := PolygonEditor.mkProps [] (Some (Fin (pow2 (-600)))) None
                (Some (Fin (pow2 600))) (Some (of_Z 450)) false in
  let unbounded := PolygonEditor.mkProps [] None None
                     (Some PosInf) (Some (of_Z 450)) false in
  (representable (Fin (pow2 (-1074)))
   /\ zero_or_undefined (PolygonEditor.frameWidth tiny)
   /\ PolygonEditor.safeFrameWidth tiny = of_Z 640
   /\ PolygonEditor64.scaleX tiny = Fin 0
   /\ ~ finite_nonzero (PolygonEditor64.scaleX tiny))
  /\ (representable (Fin (pow2 (-600))) /\ representable (Fin (pow2 600))
      /\ PolygonEditor64.scaleX huge = PosInf
      /\ ~ finite_nonzero (PolygonEditor64.scaleX huge))
  /\ (PolygonEditor64.scaleX unbounded = PosInf
      /\ ~ finite_nonzero (PolygonEditor64.scaleX unbounded)).
Proof.
  assert (E1 : PolygonEditor64.scaleX
                 (PolygonEditor.mkProps [] None None
                    (Some (Fin (pow2 (-1074)))) (Some (of_Z 450)) false)
               = Fin 0) by (vm_compute; reflexivity).
  assert (E2 : PolygonEditor64.scaleX
                 (PolygonEditor.mkProps [] (Some (Fin (pow2 (-600)))) None
                    (Some (Fin (pow2 600))) (Some (of_Z 450)) false)
               = PosInf) by (vm_compute; reflexivity).
  cbv zeta. rewrite E1, E2.
  split; [|split].
  - split; [vm_compute; reflexivity|]. split; [exact I|].
    split; [reflexivity|]. split; [reflexivity|].
    simpl. intros H. now apply H.
  - split; [vm_compute; reflexivity|]. split; [vm_compute; reflexivity|].
    split; [reflexivity|]. simpl. tauto.
  - split; [reflexivity|]. simpl. tauto.
Qed.

End GuardedDimensions.

(** ** The round trip of the coordinate mapper, in binary64 *)

Section RoundTrip.
Import Js Binary64.
Local Open Scope Q_scope.

Lemma num_or_positive (q : Q) (d : number) :
  0 < q -> num_or (Some (Fin q)) d = Fin q.
Proof.
  intros Hq. simpl. unfold is_zero.
  destruct (Qeq_bool q 0) eqn:E; [|reflexivity].
  apply Qeq_bool_iff in E. lra.
Qed.

(** C1, as the code has it.  For frame and container dimensions between
    [2 ^ -200] and [2 ^ 200] and a point and a container origin of
    coordinates at most [2 ^ 200] in magnitude, a frame-space point
    projected into the viewport ([x * scaleX], [y * scaleY], with the
    editor's scale factors or with the viewer's, which are the same),
    placed on screen at the container's origin, and mapped back with
    [toFrameCoords], all in binary64, is a finite point whose
    coordinates are within [tolerance] of those of the point. *)
Theorem roundtrip_within_tolerance
  (v : DetectionViewer.props) (e : PolygonEditor.props)
  (fw fh cw ch px py l t : Q) :
  PolygonEditor.frameWidth e = Some (Fin fw) ->
  PolygonEditor.frameHeight e = Some (Fin fh) ->
  PolygonEditor.containerWidth e = Some (Fin cw) ->
  PolygonEditor.containerHeight e = Some (Fin ch) ->
  DetectionViewer.frameWidth v = Some (Fin fw) ->
  DetectionViewer.frameHeight v = Some (Fin fh) ->
  DetectionViewer.containerWidth v = Some (Fin cw) ->
  DetectionViewer.containerHeight v = Some (Fin ch) ->
  pow2 (-200) <= fw <= pow2 200 -> pow2 (-200) <= fh <= pow2 200 ->
  pow2 (-200) <= cw <= pow2 200 -> pow2 (-200) <= ch <= pow2 200 ->
  Qabs px <= pow2 200 -> Qabs py <= pow2 200 ->
  Qabs l <= pow2 200 -> Qabs t <= pow2 200 ->
  let pt := Point.mk (Fin px) (Fin py) in
  let rect := PolygonEditor.mkRect (Fin l) (Fin t) in
  let back (vx vy : number) :=
    PolygonEditor64.toFrameCoords e
      (add (PolygonEditor.left rect) vx) (add (PolygonEditor.top rect) vy)
      rect in
  let in_editor :=
    back (Point.x (PolygonEditor64.toViewport e pt))
         (Point.y (PolygonEditor64.toViewport e pt)) in
  let in_viewer :=
    back (mul (Point.x pt) (DetectionViewer64.scaleX v))
         (mul (Point.y pt) (DetectionViewer64.scaleY v)) in
  exists sx sy,
    (0 < sx /\ 0 < sy)
    /\ (PolygonEditor64.scaleX e = Fin sx /\ PolygonEditor64.scaleY e = Fin sy)
    /\ (DetectionViewer64.scaleX v = Fin sx
        /\ DetectionViewer64.scaleY v = Fin sy)
    /\ (within (Point.x in_editor) px (tolerance px l sx)
        /\ within (Point.y in_editor) py (tolerance py t sy))
    /\ (within (Point.x in_viewer) px (tolerance px l sx)
        /\ within (Point.y in_viewer) py (tolerance py t sy)).
Proof.
  intros Hfw Hfh Hcw Hch Vfw Vfh Vcw Vch [Rfw1 Rfw2] [Rfh1 Rfh2]
    [Rcw1 Rcw2] [Rch1 Rch2] Rpx Rpy Rl Rt pt rect back in_editor in_viewer.
  assert (P200 : 0 < pow2 (-200)) by apply pow2_pos.
  assert (P401 : 0 < pow2 (-401)) by apply pow2_pos.
  destruct (scale_in_range cw fw) as (sx & Esx & Hsx1 & Hsx2); try assumption.
  destruct (scale_in_range ch fh) as (sy & Esy & Hsy1 & Hsy2); try assumption.
  assert (Ex : PolygonEditor64.scaleX e = Fin sx).
  { unfold PolygonEditor64.scaleX, PolygonEditor.safeContainerWidth,
      PolygonEditor.safeFrameWidth.
    rewrite Hfw, Hcw, !num_or_positive by lra. exact Esx. }
  assert (Ey : PolygonEditor64.scaleY e = Fin sy).
  { unfold PolygonEditor64.scaleY, PolygonEditor.safeContainerHeight,
      PolygonEditor.safeFrameHeight.
    rewrite Hfh, Hch, !num_or_positive by lra. exact Esy. }
  assert (Vx : DetectionViewer64.scaleX v = Fin sx).
  { unfold DetectionViewer64.scaleX, DetectionViewer.safeContainerWidth,
      DetectionViewer.safeFrameWidth.
    rewrite Vfw, Vcw, !num_or_positive by lra. exact Esx. }
  assert (Vy : DetectionViewer64.scaleY v = Fin sy).
  { unfold DetectionViewer64.scaleY, DetectionViewer.safeContainerHeight,
      DetectionViewer.safeFrameHeight.
    rewrite Vfh, Vch, !num_or_positive by lra. exact Esy. }
  destruct (roundtrip_coordinate px l sx) as (x' & Hx & Tx); try assumption.
  destruct (roundtrip_coordinate py t sy) as (y' & Hy & Ty); try assumption.
  assert (Hed : within (Point.x in_editor) px (tolerance px l sx)
                /\ within (Point.y in_editor) py (tolerance py t sy)).
  { subst in_editor back rect pt.
    unfold PolygonEditor64.toFrameCoords, PolygonEditor64.toViewport.
    cbn [Point.x Point.y PolygonEditor.left PolygonEditor.top].
    rewrite Ex, Ey, Hx, Hy. split; assumption. }
  exists sx, sy.
  split; [split; lra|]. split; [now split|]. split; [now split|].
  split; [exact Hed|].
  subst in_viewer. rewrite Vx, Vy.
  subst in_editor back rect pt.
  unfold PolygonEditor64.toViewport in Hed.
  cbn [Point.x Point.y] in Hed. rewrite Ex, Ey in Hed. exact Hed.
Qed.

(** C1 at frame 1920x1080, container 800x450, origin (12, 34) and point
    (100, 300). *)
Lemma roundtrip_within_tolerance_witness :
  let e := PolygonEditor.mkProps [] (Some (of_Z 1920)) (Some (of_Z 1080))
             (Some (of_Z 800)) (Some (of_Z 450)) true in
  let pt := Point.mk (Fin 100) (Fin 300) in
  let rect := PolygonEditor.mkRect (Fin 12) (Fin 34) in
  let shown := PolygonEditor64.toViewport e pt in
  let back :=
    PolygonEditor64.toFrameCoords e
      (add (PolygonEditor.left rect) (Point.x shown))
      (add (PolygonEditor.top rect) (Point.y shown)) rect in
  exists sx sy,
    (0 < sx /\ 0 < sy)
    /\ within (Point.x back) 100 (tolerance 100 12 sx)
    /\ within (Point.y back) 300 (tolerance 300 34 sy).
Proof.
  intros e pt rect shown back.
  destruct (roundtrip_within_tolerance
              (DetectionViewer.mkProps [] [] [] (Some (of_Z 1920))
                 (Some (of_Z 1080)) (Some (of_Z 800)) (Some (of_Z 450))
                 None None None)
              e 1920 1080 800 450 100 300 12 34)
    as (sx & sy & Hpos & _ & _ & Hed & _);
    try reflexivity;
    try (split; vm_compute; discriminate);
    try (vm_compute; discriminate).
  exists sx, sy. split; [exact Hpos|exact Hed].
Defined.

(** C1 fails outside those ranges.  With a frame [2 ^ 600] wide and high
    and a container [2 ^ -600] wide and high, all positive, the scale
    factors underflow to zero and the point (1, 1) comes back as
    ([NaN], [NaN]), which is within no tolerance of it.  With the frame
    1920x1080 in the container 800x450 and the container origin at
    [2 ^ 53], the point (1, 1) is absorbed by the origin and comes back
    as (0, 0). *)
Lemma roundtrip_lost :
  let one := Point.mk (of_Z 1) (of_Z 1) in
  let back (e : PolygonEditor.props) (rect : PolygonEditor.DOMRect) :=
    PolygonEditor64.toFrameCoords e
      (add (PolygonEditor.left rect)
           (Point.x (PolygonEditor64.toViewport e one)))
      (add (PolygonEditor.top rect)
           (Point.y (PolygonEditor64.toViewport e one)))
      rect in
  let squeezed :=
    PolygonEditor.mkProps [] (Some (Fin (pow2 600))) (Some (Fin (pow2 600)))
      (Some (Fin (pow2 (-600)))) (Some (Fin (pow2 (-600)))) true in
  let usual :=
    PolygonEditor.mkProps [] (Some (of_Z 1920)) (Some (of_Z 1080))
      (Some (of_Z 800)) (Some (of_Z 450)) true in
  let at_origin := PolygonEditor.mkRect (of_Z 0) (of_Z 0) in
  let far_away := PolygonEditor.mkRect (Fin (pow2 53)) (Fin (pow2 53)) in
  (representable (Fin (pow2 600)) /\ representable (Fin (pow2 (-600)))
   /\ 0 < pow2 600 /\ 0 < pow2 (-600)
   /\ PolygonEditor64.scaleX squeezed = Fin 0
   /\ back squeezed at_origin = Point.mk NaN NaN
   /\ forall tol, ~ within (Point.x (back squeezed at_origin)) 1 tol)
  /\ (representable (Fin (pow2 53))
      /\ back usual far_away = Point.mk (Fin 0) (Fin 0)
      /\ ~ within (Point.x (back usual far_away)) 1 (1 # 2)).
Proof.
  assert (E1 : PolygonEditor64.toFrameCoords
                 (PolygonEditor.mkProps [] (Some (Fin (pow2 600)))
                    (Some (Fin (pow2 600))) (Some (Fin (pow2 (-600))))
                    (Some (Fin (pow2 (-600)))) true)
                 (add (of_Z 0)
                    (Point.x
                       (PolygonEditor64.toViewport
                          (PolygonEditor.mkProps [] (Some (Fin (pow2 600)))
                             (Some (Fin (pow2 600)))
                             (Some (Fin (pow2 (-600))))
                             (Some (Fin (pow2 (-600)))) true)
                          (Point.mk (of_Z 1) (of_Z 1)))))
                 (add (of_Z 0)
                    (Point.y
                       (PolygonEditor64.toViewport
                          (PolygonEditor.mkProps [] (Some (Fin (pow2 600)))
                             (Some (Fin (pow2 600)))
                             (Some (Fin (pow2 (-600))))
                             (Some (Fin (pow2 (-600)))) true)
                          (Point.mk (of_Z 1) (of_Z 1)))))
                 (PolygonEditor.mkRect (of_Z 0) (of_Z 0))
               = Point.mk NaN NaN) by (vm_compute; reflexivity).
  assert (E2 : PolygonEditor64.toFrameCoords
                 (PolygonEditor.mkProps [] (Some (of_Z 1920))
                    (Some (of_Z 1080)) (Some (of_Z 800)) (Some (of_Z 450))
                    true)
                 (add (Fin (pow2 53))
                    (Point.x
                       (PolygonEditor64.toViewport
                          (PolygonEditor.mkProps [] (Some (of_Z 1920))
                             (Some (of_Z 1080)) (Some (of_Z 800))
                             (Some (of_Z 450)) true)
                          (Point.mk (of_Z 1) (of_Z 1)))))
                 (add (Fin (pow2 53))
                    (Point.y
                       (PolygonEditor64.toViewport
                          (PolygonEditor.mkProps [] (Some (of_Z 1920))
                             (Some (of_Z 1080)) (Some (of_Z 800))
                             (Some (of_Z 450)) true)
                          (Point.mk (of_Z 1) (of_Z 1)))))
                 (PolygonEditor.mkRect (Fin (pow2 53)) (Fin (pow2 53)))
               = Point.mk (Fin 0) (Fin 0)) by (vm_compute; reflexivity).
  cbv zeta. cbn [PolygonEditor.left PolygonEditor.top].
  rewrite E1, E2. cbn [Point.x within].
  split.
  - split; [vm_compute; reflexivity|]. split; [vm_compute; reflexivity|].
    split; [reflexivity|]. split; [reflexivity|].
    split; [vm_compute; reflexivity|]. split; [reflexivity|].
    intros tol H. exact H.
  - split; [vm_compute; reflexivity|]. split; [reflexivity|].
    vm_compute. intros H. now apply H.
Qed.

End RoundTrip.

(** * The repaints in binary64 *)

(** ** Magnitudes through the operators of binary64 *)

Section Magnitudes.
Import Js Binary64 CanvasChecks.
Local Open Scope Q_scope.

Ltac numeral t :=
  let c := eval vm_compute in t in change t with c in *.

Lemma bounded_fin (k : Z) (a : number) : bounded k a -> fin a.
Proof. now destruct a. Qed.

Lemma bounded_weaken (j k : Z) (a : number) :
  (j <= k)%Z -> bounded j a -> bounded k a.
Proof.
  intros Hjk. destruct a; simpl; try tauto.
  intros H. apply Qle_trans with (1 := H). now apply pow2_le.
Qed.

(** Rounding at most doubles a magnitude of 1 or more. *)
Lemma bounded_round (q : Q) (k : Z) :
  (0 <= k <= 1022)%Z -> Qabs q <= pow2 k -> bounded (k + 1) (round64 q).
Proof.
  intros Hk Hq.
  destruct (round64_finite q) as (r & Hr & Herr & _).
  { apply Qle_trans with (1 := Hq). apply pow2_le. lia. }
  rewrite Hr. simpl. rewrite pow2_succ.
  assert (H1 : 1 <= pow2 k) by (change 1 with (pow2 0); apply pow2_le; lia).
  assert (Hr' : Qabs r <= Qabs q + Qabs (r - q)).
  { assert (E : r == q + (r - q)) by ring.
    rewrite E at 1. apply Qabs_triangle. }
  revert Herr Hr' Hq H1.
  generalize (Qabs r) (Qabs q) (Qabs (r - q)) (pow2 k).
  numeral eps. numeral eta. intros; lra.
Qed.

Lemma bounded_mul (j k : Z) (a b : number) :
  bounded j a -> bounded k b -> (0 <= j + k <= 1022)%Z ->
  bounded (j + k + 1) (mul a b).
Proof.
  destruct a as [p| | |], b as [q| | |]; simpl; try contradiction.
  intros Hp Hq Hjk. apply bounded_round; [exact Hjk|].
  rewrite Qabs_Qmult, pow2_add.
  apply Qmult_le_compat_nonneg; split; try assumption; apply Qabs_nonneg.
Qed.

Lemma bounded_add (j k : Z) (a b : number) :
  bounded j a -> bounded k b -> (0 <= Z.max j k + 1 <= 1022)%Z ->
  bounded (Z.max j k + 2) (add a b).
Proof.
  destruct a as [p| | |], b as [q| | |]; simpl; try contradiction.
  intros Hp Hq Hjk.
  replace (Z.max j k + 2)%Z with (Z.max j k + 1 + 1)%Z by lia.
  apply bounded_round; [exact Hjk|].
  apply Qle_trans with (1 := Qabs_triangle p q).
  rewrite pow2_succ.
  assert (pow2 j <= pow2 (Z.max j k)) by (apply pow2_le; lia).
  assert (pow2 k <= pow2 (Z.max j k)) by (apply pow2_le; lia).
  lra.
Qed.

Lemma bounded_sub (j k : Z) (a b : number) :
  bounded j a -> bounded k b -> (0 <= Z.max j k + 1 <= 1022)%Z ->
  bounded (Z.max j k + 2) (sub a b).
Proof.
  intros Ha Hb. apply (bounded_add j k a (neg b) Ha).
  destruct b as [q| | |]; cbn [neg bounded] in *; try contradiction.
  now rewrite Qabs_opp.
Qed.

Lemma bounded_of_Z (z : Z) : (Z.abs z <= 1024)%Z -> bounded 10 (of_Z z).
Proof.
  intros Hz. unfold bounded, of_Z.
  apply Qabs_Qle_condition.
  change (pow2 10) with (inject_Z 1024).
  change (- inject_Z 1024) with (inject_Z (-1024)).
  rewrite <- !Zle_Qle. lia.
Qed.

(** A mean divides by the number of its terms. *)
Lemma bounded_div_count (k : Z) (a : number) (n : nat) :
  bounded k a -> (1 <= n)%nat -> (0 <= k <= 1022)%Z ->
  bounded (k + 1) (div a (of_nat n)).
Proof.
  destruct a as [p| | |]; simpl; try contradiction.
  intros Hp Hn Hk.
  assert (Hq : 1 <= inject_Z (Z.of_nat n))
    by (change 1 with (inject_Z 1); rewrite <- Zle_Qle; lia).
  unfold div, of_nat, of_Z, Js.div.
  replace (is_zero (inject_Z (Z.of_nat n))) with false.
  2:{ symmetry. unfold is_zero.
      destruct (Qeq_bool (inject_Z (Z.of_nat n)) 0) eqn:E; [|reflexivity].
      apply Qeq_bool_iff in E. lra. }
  cbn [rounded]. apply bounded_round; [exact Hk|].
  unfold Qdiv. rewrite Qabs_Qmult, Qabs_Qinv, (Qabs_pos (inject_Z _)) by lra.
  apply Qle_trans with (2 := Hp).
  apply Qle_shift_div_r; [lra|].
  pose proof (Qabs_nonneg p).
  assert (Qabs p * 1 <= Qabs p * inject_Z (Z.of_nat n)).
  { destruct (Qeq_dec (Qabs p) 0) as [E|E].
    - rewrite E. lra.
    - apply Qmult_le_l; [|exact Hq].
      destruct (Qlt_le_dec 0 (Qabs p)); [assumption|]. exfalso. apply E. lra. }
  lra.
Qed.

(** A sum of at most [2 ^ 32] terms, rounded at each step. *)
Lemma bounded_sum {A} (coord : A -> number) (pts : list A) :
  Forall (fun pt => bounded 200 (coord pt)) pts ->
  (Z.of_nat (length pts) <= 2 ^ 32)%Z ->
  bounded 234 (fold_left (fun s pt => add s (coord pt)) pts (of_Z 0)).
Proof.
  intros Hpts Hlen.
  assert (Hgen : forall (l : list A) (m : nat) (a : Q),
            Forall (fun pt => bounded 200 (coord pt)) l ->
            (Z.of_nat m + Z.of_nat (length l) <= 2 ^ 32)%Z ->
            Qabs a <= 2 * inject_Z (Z.of_nat m) * pow2 200 ->
            exists r,
              fold_left (fun s pt => add s (coord pt)) l (Fin a) = Fin r
              /\ Qabs r
                 <= 2 * inject_Z (Z.of_nat (m + length l)) * pow2 200).
  { induction l as [|pt l IH]; intros m a Hl Hm Ha.
    - exists a. split; [reflexivity|]. now rewrite Nat.add_0_r.
    - apply List.Forall_cons_iff in Hl as [Hpt Hl].
      cbn [fold_left length] in *.
      destruct (coord pt) as [x| | |] eqn:Ex; cbn [bounded] in Hpt;
        try contradiction.
      unfold add at 2. cbn [Js.add rounded].
      assert (HM : inject_Z (Z.of_nat m) <= inject_Z (2 ^ 32 - 1))
        by (rewrite <- Zle_Qle; lia).
      assert (HM0 : 0 <= inject_Z (Z.of_nat m))
        by (change 0 with (inject_Z 0); rewrite <- Zle_Qle; lia).
      assert (Hq : Qabs (a + x)
                   <= (2 * inject_Z (Z.of_nat m) + 1) * pow2 200).
      { apply Qle_trans with (1 := Qabs_triangle a x). lra. }
      destruct (round64_finite (a + x)) as (r & Hr & Herr & _).
      { apply Qle_trans with (1 := Hq).
        revert HM HM0. generalize (inject_Z (Z.of_nat m)).
        numeral (inject_Z (2 ^ 32 - 1)). numeral (pow2 200).
        numeral (pow2 1023). intros; lra. }
      rewrite Hr.
      destruct (IH (S m) r Hl) as (r' & Hr' & Hb); [lia| |].
      + assert (Hr0 : Qabs r <= Qabs (a + x) + Qabs (r - (a + x))).
        { assert (E : r == (a + x) + (r - (a + x))) by ring.
          rewrite E at 1. apply Qabs_triangle. }
        rewrite Nat2Z.inj_succ. unfold Z.succ. rewrite inject_Z_plus.
        change (inject_Z 1) with 1.
        revert Herr Hr0 Hq HM HM0.
        generalize (Qabs r) (Qabs (a + x)) (Qabs (r - (a + x)))
                   (inject_Z (Z.of_nat m)).
        numeral eps. numeral eta. numeral (inject_Z (2 ^ 32 - 1)).
        numeral (pow2 200). intros; lra.
      + exists r'. split; [exact Hr'|].
        now replace (m + S (length l))%nat with (S m + length l)%nat by lia. }
  destruct (Hgen pts 0%nat 0 Hpts) as (r & Hr & Hb); [lia| |].
  { vm_compute. discriminate. }
  unfold of_Z. change (inject_Z 0) with 0. rewrite Hr. simpl.
  apply Qle_trans with (1 := Hb). cbn [Nat.add].
  assert (HL : inject_Z (Z.of_nat (length pts)) <= inject_Z (2 ^ 32))
    by (rewrite <- Zle_Qle; exact Hlen).
  revert HL. generalize (inject_Z (Z.of_nat (length pts))).
  numeral (inject_Z (2 ^ 32)). numeral (pow2 200). numeral (pow2 234).
  intros; lra.
Qed.

End Magnitudes.

(** ** Only finite numbers reach the canvas *)

Section FiniteCalls.
Import Js Canvas Binary64 CanvasChecks.
Local Open Scope Q_scope.

Lemma for_of_Forall {A B} (P : B -> Prop) (body : A -> result (list B))
      (arr : list A) (outs : list B) :
  for_of arr body = Ok outs ->
  (forall a out, In a arr -> body a = Ok out -> Forall P out) ->
  Forall P outs.
Proof.
  revert outs. induction arr as [|a arr IH]; intros outs Hloop Hbody.
  - injection Hloop as <-. constructor.
  - simpl in Hloop.
    destruct (body a) as [out|] eqn:Ea; simpl in Hloop; [|discriminate].
    destruct (for_of arr body) as [rest|] eqn:Er; simpl in Hloop; [|discriminate].
    injection Hloop as <-. apply Forall_app. split.
    + apply (Hbody a); [now left|assumption].
    + apply IH; [reflexivity|]. intros b out' Hb. apply Hbody. now right.
Qed.

Lemma find_member {A} (pred : A -> bool) (arr : list A) (a : A) :
  find pred arr = Some a -> In a arr.
Proof.
  induction arr as [|b arr IH]; simpl; [discriminate|].
  destruct (pred b); [intros [= ->]; now left|]. intros H. right. now apply IH.
Qed.

(** A guarded dimension and a scale factor of ordinary dimensions. *)
Lemma guarded_fin (v : option number) (d : Z) :
  ordinary 200 v -> (1 <= d <= 1000)%Z -> fin (num_or v (of_Z d)).
Proof.
  intros Hv Hd.
  destruct (num_or_ordinary 200 v d) as (c & Ec & _); [lia|assumption..|].
  now rewrite Ec.
Qed.

Lemma scale_bounded (cv fv : option number) (dc df : Z) :
  ordinary 200 cv -> ordinary 200 fv ->
  (1 <= dc <= 1000)%Z -> (1 <= df <= 1000)%Z ->
  bounded 401 (div (num_or cv (of_Z dc)) (num_or fv (of_Z df))).
Proof.
  intros Hc Hf Hdc Hdf.
  destruct (num_or_ordinary 200 cv dc) as (c & Ec & Hc1 & Hc2);
    [lia|assumption..|].
  destruct (num_or_ordinary 200 fv df) as (f & Ef & Hf1 & Hf2);
    [lia|assumption..|].
  rewrite Ec, Ef. change (Z.opp 200) with (-200)%Z in Hc1, Hf1.
  assert (P200 : 0 < pow2 (-200)) by apply pow2_pos.
  assert (Pf : 0 < Qabs f) by lra.
  assert (Nf : is_zero f = false).
  { unfold is_zero. destruct (Qeq_bool f 0) eqn:E; [|reflexivity].
    apply Qeq_bool_iff in E. rewrite E in Pf. exfalso. revert Pf.
    apply Qlt_irrefl. }
  unfold div, Js.div. rewrite Nf. cbn [rounded].
  apply (bounded_round _ 400); [lia|].
  unfold Qdiv. rewrite Qabs_Qmult, Qabs_Qinv.
  apply Qle_shift_div_r; [exact Pf|].
  apply Qle_trans with (1 := Hc2).
  apply Qle_trans with (pow2 400 * pow2 (-200)).
  - rewrite <- pow2_add. apply Qle_refl.
  - apply Qmult_le_l; [apply pow2_pos|exact Hf1].
Qed.

Ltac magnitude :=
  lazymatch goal with
  | |- bounded _ (add _ _) => eapply bounded_add; [magnitude|magnitude|]
  | |- bounded _ (sub _ _) => eapply bounded_sub; [magnitude|magnitude|]
  | |- bounded _ (mul _ _) => eapply bounded_mul; [magnitude|magnitude|]
  | |- bounded _ (of_Z _) => apply bounded_of_Z; vm_compute; discriminate
  | |- bounded _ _ => eassumption
  end.

Ltac finite :=
  lazymatch goal with
  | |- fin (of_Z _) => exact I
  | |- fin _ => first [assumption | eapply bounded_fin; magnitude; lia]
  end.

Ltac finite_calls :=
  repeat first
    [ apply List.Forall_nil
    | apply List.Forall_cons; [cbn [finite_call]; repeat split|]
    | apply List.Forall_app; split ];
  try exact I; try assumption; try finite.

Lemma bounded_edges (sx sy : number) (pts : list Point.t) :
  bounded 401 sx -> bounded 401 sy -> Forall (bounded_point 200) pts ->
  Forall finite_call
    (map (fun pt => lineTo (mul (Point.x pt) sx) (mul (Point.y pt) sy)) pts).
Proof.
  intros Hx Hy Hp. apply List.Forall_map.
  eapply List.Forall_impl; [|exact Hp].
  intros pt [Hpx Hpy]. cbn [finite_call]. split; finite.
Qed.

Section Viewer.
Variable measureText : string -> string -> number.
Variable v : DetectionViewer.props.
Hypothesis measured : forall font text, bounded 200 (measureText font text).
Hypothesis Rfw : ordinary 200 (DetectionViewer.frameWidth v).
Hypothesis Rfh : ordinary 200 (DetectionViewer.frameHeight v).
Hypothesis Rcw : ordinary 200 (DetectionViewer.containerWidth v).
Hypothesis Rch : ordinary 200 (DetectionViewer.containerHeight v).

Lemma viewer_scaleX_bounded : bounded 401 (DetectionViewer64.scaleX v).
Proof. apply scale_bounded; (assumption || lia). Qed.

Lemma viewer_scaleY_bounded : bounded 401 (DetectionViewer64.scaleY v).
Proof. apply scale_bounded; (assumption || lia). Qed.

Lemma viewer_zone_finite (zone : ZonePolygon.t) :
  Forall (bounded_point 200) (ZonePolygon.points zone) ->
  exists out, DetectionViewer64.draw_zone v zone = Ok out
              /\ Forall finite_call out.
Proof.
  intros Hp. unfold DetectionViewer64.draw_zone.
  destruct (length (ZonePolygon.points zone) <? 3)%nat eqn:E.
  { eexists. split; [reflexivity|constructor]. }
  apply Nat.ltb_ge in E.
  destruct (nonempty_split (ZonePolygon.points zone)) as (p0 & rest & Hpts);
    [lia|].
  rewrite Hpts in *. rewrite first_point_read. cbn [bind].
  pose proof (edges_tail p0 rest
                (fun pt => [lineTo (mul (Point.x pt) (DetectionViewer64.scaleX v))
                                   (mul (Point.y pt) (DetectionViewer64.scaleY v))]))
    as He.
  rewrite flat_map_single in He. cbv beta in He. rewrite He. cbn [bind].
  eexists. split; [reflexivity|].
  apply List.Forall_cons_iff in Hp as [[H0x H0y] Hrest].
  pose proof viewer_scaleX_bounded. pose proof viewer_scaleY_bounded.
  pose proof (bounded_edges _ _ rest viewer_scaleX_bounded
                viewer_scaleY_bounded Hrest).
  destruct (DetectionViewer.flag (DetectionViewer.showLabels v));
    finite_calls.
Qed.

Lemma viewer_detection_finite (det : Detection.t) :
  bounded_box 200 (Detection.bbox det) ->
  exists out, DetectionViewer64.draw_detection measureText v det = Ok out
              /\ Forall finite_call out.
Proof.
  intros (Hx1 & Hy1 & Hx2 & Hy2).
  unfold DetectionViewer64.draw_detection, DetectionViewer64.callout.
  eexists. split; [reflexivity|].
  pose proof viewer_scaleX_bounded. pose proof viewer_scaleY_bounded.
  destruct (DetectionViewer.flag (DetectionViewer.showLabels v));
    destruct (DetectionViewer.isViolation v det);
    try destruct (find _ (DetectionViewer.violations v)) as [viol|];
    try pose proof (measured "bold 12px Arial"
                      (DetectionViewer64.label_of det));
    try pose proof
        (measured "bold 14px Arial"
           ("⚠ PARKING "
              ^^ toFixed0 (ParkingViolation.duration_seconds viol) ^^ "s"));
    cbv zeta; finite_calls.
Qed.

End Viewer.

(** X3 -- no [NaN] or infinity on the viewer's canvas.  In binary64,
    when each of the four dimensions is undefined, [NaN], zero or of a
    magnitude between [2 ^ -200] and [2 ^ 200], and the coordinates of
    the zone points and of the detection boxes and the measured text
    widths are finite and at most [2 ^ 200] in magnitude, the repaint
    succeeds and every number it hands to the 2D context is finite. *)
Theorem viewer_repaint_finite
  (measureText : string -> string -> number) (v : DetectionViewer.props) :
  (forall font text, bounded 200 (measureText font text)) ->
  ordinary 200 (DetectionViewer.frameWidth v) ->
  ordinary 200 (DetectionViewer.frameHeight v) ->
  ordinary 200 (DetectionViewer.containerWidth v) ->
  ordinary 200 (DetectionViewer.containerHeight v) ->
  (forall zone, In zone (DetectionViewer.zones v) ->
     Forall (bounded_point 200) (ZonePolygon.points zone)) ->
  (forall det, In det (DetectionViewer.detections v) ->
     bounded_box 200 (Detection.bbox det)) ->
  exists calls,
    DetectionViewer64.draw measureText v = Ok calls
    /\ Forall finite_call calls.
Proof.
  intros Hm Rfw Rfh Rcw Rch Hz Hd.
  assert (Tz : exists zs,
             for_of (DetectionViewer.zones v) (DetectionViewer64.draw_zone v)
             = Ok zs).
  { apply for_of_total. intros zone Hin.
    destruct (viewer_zone_finite v Rfw Rfh Rcw Rch zone (Hz zone Hin))
      as (out & Ho & _). now exists out. }
  assert (Td : exists ds,
             for_of (DetectionViewer.detections v)
               (DetectionViewer64.draw_detection measureText v) = Ok ds).
  { apply for_of_total. intros det Hin. now eexists. }
  destruct Tz as [zs0 Ez0]. destruct Td as [ds0 Ed0].
  assert (Fz : Forall finite_call zs0).
  { eapply for_of_Forall; [exact Ez0|].
    intros zone out Hin Ho.
    destruct (viewer_zone_finite v Rfw Rfh Rcw Rch zone (Hz zone Hin))
      as (out' & Ho' & Hf). congruence. }
  assert (Fd : Forall finite_call ds0).
  { eapply for_of_Forall; [exact Ed0|].
    intros det out Hin Ho.
    destruct (viewer_detection_finite measureText v Hm Rfw Rfh Rcw Rch det
                (Hd det Hin)) as (out' & Ho' & Hf). congruence. }
  pose proof (guarded_fin _ 640 Rcw ltac:(lia)) as Hw.
  pose proof (guarded_fin _ 360 Rch ltac:(lia)) as Hh.
  unfold DetectionViewer64.draw. rewrite Ez0, Ed0.
  destruct (_ && _); destruct (0 <? _)%nat; cbn [bind];
    eexists; (split; [reflexivity|]);
    unfold DetectionViewer.safeContainerWidth,
      DetectionViewer.safeContainerHeight;
    finite_calls.
Qed.

Lemma bounded_points_x (pts : list Point.t) :
  Forall (bounded_point 200) pts ->
  Forall (fun pt => bounded 200 (Point.x pt)) pts.
Proof. apply List.Forall_impl. now intros pt [Hx _]. Qed.

Lemma bounded_points_y (pts : list Point.t) :
  Forall (bounded_point 200) pts ->
  Forall (fun pt => bounded 200 (Point.y pt)) pts.
Proof. apply List.Forall_impl. now intros pt [_ Hy]. Qed.

(** The centroid of a non-empty list of points. *)
Lemma mean_bounded (coord : Point.t -> number) (pts : list Point.t) :
  Forall (fun pt => bounded 200 (coord pt)) pts ->
  (1 <= length pts)%nat -> (Z.of_nat (length pts) <= 2 ^ 32)%Z ->
  bounded 235 (PolygonEditor64.mean coord pts).
Proof.
  intros Hp Hlen Hmax. unfold PolygonEditor64.mean.
  apply (bounded_div_count 234); [|assumption|lia].
  now apply bounded_sum.
Qed.

Section Editor.
Variable e : PolygonEditor.props.
Hypothesis Rfw : ordinary 200 (PolygonEditor.frameWidth e).
Hypothesis Rfh : ordinary 200 (PolygonEditor.frameHeight e).
Hypothesis Rcw : ordinary 200 (PolygonEditor.containerWidth e).
Hypothesis Rch : ordinary 200 (PolygonEditor.containerHeight e).
Hypothesis zones_bounded :
  forall zone, In zone (PolygonEditor.zones e) ->
    Forall (bounded_point 200) (ZonePolygon.points zone)
    /\ (Z.of_nat (length (ZonePolygon.points zone)) <= 2 ^ 32)%Z.

Lemma editor_scaleX_bounded : bounded 401 (PolygonEditor64.scaleX e).
Proof. apply scale_bounded; (assumption || lia). Qed.

Lemma editor_scaleY_bounded : bounded 401 (PolygonEditor64.scaleY e).
Proof. apply scale_bounded; (assumption || lia). Qed.

(** The connector is drawn between two centroids, each the mean of a
    non-empty list: of at least 3 points for the stop line, and of more
    than 0 points, by the guard, for the light. *)
Lemma editor_link_line_finite (zone : ZonePolygon.t) :
  In zone (PolygonEditor.zones e) ->
  (3 <= length (ZonePolygon.points zone))%nat ->
  Forall finite_call (PolygonEditor64.link_line e zone).
Proof.
  intros Hin Hlen. unfold PolygonEditor64.link_line.
  destruct (_ && _); [|constructor].
  destruct (PolygonEditor.find_linked e zone) as [light|] eqn:Ef; [|constructor].
  destruct (0 <? length (ZonePolygon.points light))%nat eqn:El; [|constructor].
  apply Nat.ltb_lt in El.
  apply find_member in Ef.
  destruct (zones_bounded zone Hin) as [Hz Hzn].
  destruct (zones_bounded light Ef) as [Hl Hln].
  pose proof editor_scaleX_bounded. pose proof editor_scaleY_bounded.
  assert (bounded 235 (PolygonEditor64.mean Point.x (ZonePolygon.points zone)))
    by (apply mean_bounded; [now apply bounded_points_x|lia|assumption]).
  assert (bounded 235 (PolygonEditor64.mean Point.y (ZonePolygon.points zone)))
    by (apply mean_bounded; [now apply bounded_points_y|lia|assumption]).
  assert (bounded 235 (PolygonEditor64.mean Point.x (ZonePolygon.points light)))
    by (apply mean_bounded; [now apply bounded_points_x|lia|assumption]).
  assert (bounded 235 (PolygonEditor64.mean Point.y (ZonePolygon.points light)))
    by (apply mean_bounded; [now apply bounded_points_y|lia|assumption]).
  cbn [Point.x Point.y].
  finite_calls.
Qed.

Lemma editor_zone_finite (zone : ZonePolygon.t) :
  In zone (PolygonEditor.zones e) ->
  exists out, PolygonEditor64.draw_zone e zone = Ok out
              /\ Forall finite_call out.
Proof.
  intros Hin. destruct (zones_bounded zone Hin) as [Hp _].
  unfold PolygonEditor64.draw_zone.
  destruct (length (ZonePolygon.points zone) <? 3)%nat eqn:E.
  { eexists. split; [reflexivity|constructor]. }
  apply Nat.ltb_ge in E.
  pose proof (editor_link_line_finite zone Hin E) as Hlink.
  destruct (nonempty_split (ZonePolygon.points zone)) as (p0 & rest & Hpts);
    [lia|].
  rewrite Hpts in *. rewrite first_point_read. cbn [bind].
  pose proof (edges_tail p0 rest
                (fun pt => [lineTo (mul (Point.x pt) (PolygonEditor64.scaleX e))
                                   (mul (Point.y pt) (PolygonEditor64.scaleY e))]))
    as He.
  rewrite flat_map_single in He. cbv beta in He. rewrite He. cbn [bind].
  eexists. split; [reflexivity|].
  apply List.Forall_cons_iff in Hp as [[H0x H0y] Hrest].
  pose proof editor_scaleX_bounded. pose proof editor_scaleY_bounded.
  pose proof (bounded_edges _ _ rest editor_scaleX_bounded
                editor_scaleY_bounded Hrest).
  destruct (ZonePolygon.is_traffic_light zone || ZonePolygon.is_stop_line zone);
    destruct (ZonePolygon.is_stop_line zone);
    finite_calls.
Qed.

Lemma editor_current_finite (Math_PI : number) (st : PolygonEditor.state) :
  bounded 2 Math_PI ->
  Forall (bounded_point 200) (PolygonEditor.currentPoints st) ->
  exists out, PolygonEditor64.draw_current e Math_PI st = Ok out
              /\ Forall finite_call out.
Proof.
  intros Hpi Hp. unfold PolygonEditor64.draw_current.
  destruct (PolygonEditor.isEditing e
            && (0 <? length (PolygonEditor.currentPoints st))%nat) eqn:E.
  2:{ eexists. split; [reflexivity|constructor]. }
  apply andb_true_iff in E as [_ E]. apply Nat.ltb_lt in E.
  destruct (nonempty_split (PolygonEditor.currentPoints st))
    as (p0 & rest & Hpts); [lia|].
  rewrite Hpts in *. rewrite first_point_read. cbn [bind].
  pose proof (edges_tail p0 rest
                (fun pt => [lineTo (mul (Point.x pt) (PolygonEditor64.scaleX e))
                                   (mul (Point.y pt) (PolygonEditor64.scaleY e))]))
    as He.
  rewrite flat_map_single in He. cbv beta in He. rewrite He. cbn [bind].
  erewrite for_of_flat_map by (intros; reflexivity). cbn [bind].
  eexists. split; [reflexivity|].
  pose proof editor_scaleX_bounded. pose proof editor_scaleY_bounded.
  assert (Hdiscs : forall pts, Forall (bounded_point 200) pts ->
            Forall finite_call
              (flat_map
                 (fun point =>
                    [beginPath;
                     arc (mul (Point.x point) (PolygonEditor64.scaleX e))
                         (mul (Point.y point) (PolygonEditor64.scaleY e))
                         (of_Z 8) (of_Z 0) (mul Math_PI (of_Z 2));
                     set_fillStyle (PolygonEditor.strokeColor st);
                     fill;
                     set_strokeStyle "#FFFFFF";
                     set_lineWidth (of_Z 2);
                     stroke]) pts)).
  { induction 1 as [|pt pts [Hx Hy] Hpts' IH]; simpl; [constructor|].
    finite_calls. }
  pose proof (Hdiscs _ Hp) as Hd.
  apply List.Forall_cons_iff in Hp as [[H0x H0y] Hrest].
  pose proof (bounded_edges _ _ rest editor_scaleX_bounded
                editor_scaleY_bounded Hrest).
  finite_calls. now apply Hdiscs.
Qed.

End Editor.

(** X4 -- no [NaN] or infinity on the editor's canvas.  In binary64,
    when each of the four dimensions is undefined, [NaN], zero or of a
    magnitude between [2 ^ -200] and [2 ^ 200], the points of the zones
    and of the polygon being drawn have finite coordinates of at most
    [2 ^ 200] in magnitude, and no zone has more than [2 ^ 32] points
    (no array has), the editor's repaint succeeds and every number it
    hands to the 2D context is finite; in particular neither centroid of
    a connector is a division by zero. *)
Theorem editor_repaint_finite
  (e : PolygonEditor.props) (Math_PI : number) (st : PolygonEditor.state) :
  ordinary 200 (PolygonEditor.frameWidth e) ->
  ordinary 200 (PolygonEditor.frameHeight e) ->
  ordinary 200 (PolygonEditor.containerWidth e) ->
  ordinary 200 (PolygonEditor.containerHeight e) ->
  (forall zone, In zone (PolygonEditor.zones e) ->
     Forall (bounded_point 200) (ZonePolygon.points zone)
     /\ (Z.of_nat (length (ZonePolygon.points zone)) <= 2 ^ 32)%Z) ->
  Forall (bounded_point 200) (PolygonEditor.currentPoints st) ->
  bounded 2 Math_PI ->
  exists calls,
    PolygonEditor64.draw e Math_PI st = Ok calls
    /\ Forall finite_call calls.
Proof.
  intros Rfw Rfh Rcw Rch Hz Hp Hpi.
  assert (Tz : exists zs,
             for_of (PolygonEditor.zones e) (PolygonEditor64.draw_zone e)
             = Ok zs).
  { apply for_of_total. intros zone Hin.
    destruct (editor_zone_finite e Rfw Rfh Rcw Rch Hz zone Hin)
      as (out & Ho & _). now exists out. }
  destruct Tz as [zs Ez].
  assert (Fz : Forall finite_call zs).
  { eapply for_of_Forall; [exact Ez|].
    intros zone out Hin Ho.
    destruct (editor_zone_finite e Rfw Rfh Rcw Rch Hz zone Hin)
      as (out' & Ho' & Hf). congruence. }
  destruct (editor_current_finite e Rfw Rfh Rcw Rch Math_PI st Hpi Hp)
    as (cur & Ec & Fc).
  pose proof (guarded_fin _ 640 Rcw ltac:(lia)) as Hw.
  pose proof (guarded_fin _ 360 Rch ltac:(lia)) as Hh.
  unfold PolygonEditor64.draw. rewrite Ez, Ec. cbn [bind].
  eexists. split; [reflexivity|].
  unfold PolygonEditor.safeContainerWidth, PolygonEditor.safeContainerHeight.
  finite_calls.
Qed.

End FiniteCalls.

Section Binary64Samples.
Import Js Canvas Binary64 CanvasChecks.
Local Open Scope Q_scope.

Let width_of : string -> string -> number := fun _ _ => of_Z 56.
Let box : BoundingBox.t :=
  BoundingBox.mk (of_Z 100) (of_Z 100) (of_Z 300) (of_Z 300).
Let car : Detection.t := Detection.mk box "car" 2 (Fin (7 # 8)) (Some 7%Z).
Let entry : ParkingViolation.t :=
  ParkingViolation.mk (Some 7%Z) "car" "z1" "Kerb" (Fin (191 # 2)) box.
Let triangle : ZonePolygon.t :=
  ZonePolygon.mk "z1" "Kerb"
    [Point.mk (of_Z 0) (of_Z 0); Point.mk (of_Z 192) (of_Z 0);
     Point.mk (of_Z 0) (of_Z 108)]
    true false false false None "".
Let light : ZonePolygon.t :=
  ZonePolygon.mk "z2" "Light"
    [Point.mk (of_Z 500) (of_Z 40); Point.mk (of_Z 520) (of_Z 40);
     Point.mk (of_Z 520) (of_Z 90)]
    false true true false None "#FFFF00".
Let line : ZonePolygon.t :=
  ZonePolygon.mk "z3" "Line"
    [Point.mk (of_Z 300) (of_Z 700); Point.mk (of_Z 900) (of_Z 700);
     Point.mk (of_Z 900) (of_Z 720)]
    false false false true (Some "z2") "#FFFFFF".
Let viewer : DetectionViewer.props :=
  DetectionViewer.mkProps [car] [triangle] [entry]
    (Some (of_Z 1920)) (Some (of_Z 1080)) (Some (of_Z 800)) (Some (of_Z 450))
    None None None.
Let editor : PolygonEditor.props :=
  PolygonEditor.mkProps [triangle; light; line] (Some (of_Z 1920)) None
    (Some (of_Z 960)) (Some (of_Z 540)) true.
(** The binary64 number nearest to pi. *)
Let Math_PI : number := Fin (884279719003555 # 281474976710656).

Ltac in_range := vm_compute; discriminate.

(** X3 on a viewer with a zone, a detection and a violation. *)
Lemma viewer_repaint_finite_witness :
  exists calls,
    DetectionViewer64.draw width_of viewer = Ok calls
    /\ Forall finite_call calls.
Proof.
  apply (viewer_repaint_finite width_of viewer);
    try (right; split; in_range).
  - intros font text. in_range.
  - intros zone [<-|[]]. repeat constructor; in_range.
  - intros det [<-|[]]. repeat constructor; in_range.
Defined.

(** X4 on an editor with a stop line linked to a light, two points
    placed, and a frame height that is still undefined. *)
Lemma editor_repaint_finite_witness :
  representable Math_PI
  /\ exists calls,
       PolygonEditor64.draw editor Math_PI
         (PolygonEditor.mkState
            [Point.mk (of_Z 10) (of_Z 10); Point.mk (of_Z 50) (of_Z 10)]
            "" PolygonEditor.normal "")
       = Ok calls
       /\ Forall finite_call calls.
Proof.
  split; [vm_compute; reflexivity|].
  apply editor_repaint_finite;
    try (right; split; in_range); try exact I.
  - intros zone [<-|[<-|[<-|[]]]]; (split; [|in_range]);
      repeat constructor; in_range.
  - repeat constructor; in_range.
  - in_range.
Defined.

End Binary64Samples.
